(** * Reading-automation engine of the Arvore e-reader tool: model and properties

    A shallow embedding of [server/automation.ts] (class [AutomationService]),
    [server/book-browser.ts] (class [BookBrowserService]), the configuration
    schema of [shared/schema.ts], the WebSocket bridge and storage layer of
    [server/routes.ts] and [server/storage.ts], and the message handler of
    the client hook [useAutomation].

    Conventions of the embedding.
    - A JavaScript string is the [string] of the bytes of its UTF-8
      encoding.  [length] counts UTF-16 code units, and [trim] and the
      class [\s] know the white space outside ASCII.  Case mapping
      ([toLowerCase], [toUpperCase]) and [slice] by one character are the
      ASCII ones: they are what the code does on ASCII text, and a theorem
      that needs them on arbitrary text says that the text is ASCII.
    - JavaScript numbers that hold page counts and millisecond time stamps
      are [Z]; numbers obtained by division (seconds, percentages,
      estimates) are exact rationals [Q], compared with [==].
    - [Date.now()] is an explicit argument [now] of every function that
      reads the clock.
    - What the browser shows is an input: every [await] on the page is
      answered by a field of a script value supplied by the environment.
      The search for a browser executable at the head of [start] has no
      effect on the engine and is left out.
    - Commands ([pause], [resume], [stop]) run while the engine waits at an
      [await]; the script says during which wait each of them arrives.
      The model is of one run of an engine: a second [start] sent to an
      engine whose run is in progress would run a second [start] on the
      same object, interleaved with the first; no script holds one.
    - The database refuses a statement that binds an integer outside the
      32-bit range of its [integer] columns: the call of the storage
      layer throws.  Its other failures (a lost connection, a text it
      cannot store) are outside the model, and so is what the process
      does with the rejected promise of a listener.
    - Emitted events are collected, in order, in a trace.  The bridge
      registers its listeners, the one for [error] included, as soon as the
      engine is created, so that emitting an event never throws. *)

From Stdlib Require Import ZArith QArith Qround String Ascii List Bool Lia.
From stdpp Require Import gmap strings.
Import ListNotations.

Close Scope Q_scope.
Local Open Scope string_scope.
Local Open Scope Z_scope.
Local Open Scope list_scope.

(* ===================================================================== *)
(** ** JavaScript string primitives used by the sources *)
(* ===================================================================== *)

Module JS.

Definition chars (s : string) : list ascii := list_ascii_of_string s.
Definition str (l : list ascii) : string := string_of_list_ascii l.

Definition code (c : ascii) : N := N_of_ascii c.

Definition between (lo hi : N) (c : ascii) : bool :=
  (lo <=? code c)%N && (code c <=? hi)%N.

(** [[a-z]], [[A-Z]], [\d] and [[a-zA-Z]] *)
Definition isLower : ascii -> bool := between 97 122.
Definition isUpper : ascii -> bool := between 65 90.
Definition isDigit : ascii -> bool := between 48 57.
Definition isLetter (c : ascii) : bool := isLower c || isUpper c.

(** White space, the class [\s], which is also what [trim] removes.
    In one byte: TAB, LF, VT, FF, CR, SP. *)
Definition isSpace (c : ascii) : bool :=
  between 9 13 c || (code c =? 32)%N.

(** In two bytes: U+00A0. *)
Definition isSpace2 (a b : ascii) : bool :=
  (code a =? 194)%N && (code b =? 160)%N.

(** In three bytes: U+1680, U+2000 to U+200A, U+2028, U+2029, U+202F,
    U+205F, U+3000 and U+FEFF. *)
Definition isSpace3 (a b c : ascii) : bool :=
  (code a =? 225)%N && (code b =? 154)%N && (code c =? 128)%N
  || (code a =? 226)%N && (code b =? 128)%N
     && (between 128 138 c || (code c =? 168)%N || (code c =? 169)%N
         || (code c =? 175)%N)
  || (code a =? 226)%N && (code b =? 129)%N && (code c =? 159)%N
  || (code a =? 227)%N && (code b =? 128)%N && (code c =? 128)%N
  || (code a =? 239)%N && (code b =? 187)%N && (code c =? 191)%N.

Definition lowerChar (c : ascii) : ascii :=
  if isUpper c then ascii_of_N (code c + 32) else c.
Definition upperChar (c : ascii) : ascii :=
  if isLower c then ascii_of_N (code c - 32) else c.

Definition toLowerCase (s : string) : string := str (map lowerChar (chars s)).
Definition toUpperCase (s : string) : string := str (map upperChar (chars s)).

Fixpoint dropWhile (p : ascii -> bool) (l : list ascii) : list ascii :=
  match l with
  | c :: r => if p c then dropWhile p r else l
  | [] => []
  end.

Fixpoint takeWhile (p : ascii -> bool) (l : list ascii) : list ascii :=
  match l with
  | c :: r => if p c then c :: takeWhile p r else []
  | [] => []
  end.

(** The white space at the head of a text, removed. *)
Fixpoint trimStart (l : list ascii) : list ascii :=
  match l with
  | [] => []
  | a :: r1 =>
      if isSpace a then trimStart r1
      else
        match r1 with
        | [] => l
        | b :: r2 =>
            if isSpace2 a b then trimStart r2
            else
              match r2 with
              | [] => l
              | c :: r3 => if isSpace3 a b c then trimStart r3 else l
              end
        end
  end.

(** The white space at the end of a text, removed; the text is given
    and returned last byte first. *)
Fixpoint trimEnd (reversed : list ascii) : list ascii :=
  match reversed with
  | [] => []
  | c :: r1 =>
      if isSpace c then trimEnd r1
      else
        match r1 with
        | [] => reversed
        | b :: r2 =>
            if isSpace2 b c then trimEnd r2
            else
              match r2 with
              | [] => reversed
              | a :: r3 => if isSpace3 a b c then trimEnd r3 else reversed
              end
        end
  end.

Definition trimChars (l : list ascii) : list ascii :=
  rev (trimEnd (rev (trimStart l))).

Definition trim (s : string) : string := str (trimChars (chars s)).

(** [s.replace(/[a-z]/g, '')] *)
Definition stripLower (s : string) : string :=
  str (List.filter (fun c => negb (isLower c)) (chars s)).

(** [s.slice(0, -1)]: everything but the last character *)
Definition sliceInit (s : string) : string := str (removelast (chars s)).

(** [s.slice(-1)]: the last character, or the empty string *)
Definition sliceLast (s : string) : string :=
  match rev (chars s) with
  | c :: _ => String c EmptyString
  | [] => EmptyString
  end.

(** the capture of [s.match(/([a-z]{2})$/)], when the match succeeds *)
Definition matchTrailingTwoLower (s : string) : option string :=
  match rev (chars s) with
  | b :: a :: _ => if isLower a && isLower b then Some (str [a; b]) else None
  | _ => None
  end.

(** [/^\d+[a-zA-Z]{2}$/.test(s)] *)
Definition testDigitsTwoLetters (s : string) : bool :=
  match takeWhile isDigit (chars s), dropWhile isDigit (chars s) with
  | _ :: _, [a; b] => isLetter a && isLetter b
  | _, _ => false
  end.

Fixpoint prefixOf (p l : list ascii) : bool :=
  match p, l with
  | [], _ => true
  | c :: p', d :: l' => Ascii.eqb c d && prefixOf p' l'
  | _ :: _, [] => false
  end.

Fixpoint includesChars (sub l : list ascii) : bool :=
  prefixOf sub l ||
  match l with
  | _ :: r => includesChars sub r
  | [] => false
  end.

(** [s.includes(sub)] *)
Definition includes (s sub : string) : bool := includesChars (chars sub) (chars s).

(** The UTF-16 code units that the character begun by the byte [c]
    takes: two for a character outside the basic plane, none for a
    continuation byte. *)
Definition units (c : ascii) : nat :=
  if (code c <? 128)%N then 1
  else if (code c <? 192)%N then 0
  else if (code c <? 240)%N then 1
  else 2.

(** [s.length] *)
Definition length (s : string) : nat := list_sum (List.map units (chars s)).

(** A text of ASCII characters only. *)
Definition isAscii (s : string) : bool :=
  forallb (fun c => (code c <? 128)%N) (chars s).

(** truthiness of a string, of a number and of a nullable number *)
Definition truthyStr (s : string) : bool := negb (String.eqb s EmptyString).
Definition truthyNum (n : Z) : bool := negb (n =? 0)%Z.
Definition truthyOpt (o : option Z) : bool :=
  match o with Some n => truthyNum n | None => false end.

End JS.

(* ===================================================================== *)
(** ** [shared/schema.ts]: states, log types, configuration, payloads *)
(* ===================================================================== *)

Module LogType.
Inductive t := info | success | warning | error.
End LogType.

Module Schema.

Inductive AutomationState :=
| idle | connecting | logging_in | loading_book
| reading | paused | completed | error.

Record AutomationConfig := {
  cfg_ra : string;
  cfg_password : string;
  cfg_bookSlug : string;
  cfg_interval : Q;
  cfg_bookQueueId : option string
}.

Record ProgressData := {
  pd_currentPage : Z;
  pd_totalPages : option Z;
  pd_percentage : Q;
  pd_elapsedTime : Q;
  pd_estimatedTimeRemaining : option Q
}.

(** A field of a parsed JSON payload, as far as the schema looks at it. *)
Inductive JsValue :=
| JUndefined
| JNull
| JBool (b : bool)
| JNumber (q : Q)
| JString (s : string).

(** [message.payload]: [None] when it is not an object; the fields the
    schema reads otherwise (an absent key reads as [JUndefined]). *)
Record Payload := {
  p_ra : JsValue;
  p_password : JsValue;
  p_bookSlug : JsValue;
  p_interval : JsValue;
  p_bookQueueId : JsValue
}.

(** [z.string().min(1, ...)] *)
Definition stringMin1 (v : JsValue) : option string :=
  match v with
  | JString s => if (1 <=? String.length s)%nat then Some s else None
  | _ => None
  end.

(** [z.string().min(1, ...).regex(/^\d+[a-zA-Z]{2}$/, ...)] *)
Definition raField (v : JsValue) : option string :=
  match stringMin1 v with
  | Some s => if JS.testDigitsTwoLetters s then Some s else None
  | None => None
  end.

(** [z.number().min(60).max(300).default(60)] *)
Definition intervalField (v : JsValue) : option Q :=
  match v with
  | JUndefined => Some (60 # 1)%Q
  | JNumber q => if Qle_bool (60 # 1)%Q q && Qle_bool q (300 # 1)%Q then Some q else None
  | _ => None
  end.

(** [z.string().optional()] *)
Definition optionalString (v : JsValue) : option (option string) :=
  match v with
  | JUndefined => Some None
  | JString s => Some (Some s)
  | _ => None
  end.

(** [automationConfigSchema.safeParse(payload)]: [Some data] on success *)
Definition safeParse (payload : option Payload) : option AutomationConfig :=
  match payload with
  | None => None
  | Some p =>
      match raField (p_ra p), stringMin1 (p_password p), stringMin1 (p_bookSlug p),
            intervalField (p_interval p), optionalString (p_bookQueueId p) with
      | Some r, Some pw, Some slug, Some iv, Some qid =>
          Some {| cfg_ra := r; cfg_password := pw; cfg_bookSlug := slug;
                  cfg_interval := iv; cfg_bookQueueId := qid |}
      | _, _, _, _, _ => None
      end
  end.


(** The object a client sends for a configuration [cfg]: what
    [JSON.parse(JSON.stringify(cfg))] reads back. *)
Definition asPayload (cfg : AutomationConfig) : Payload :=
  {| p_ra := JString (cfg_ra cfg);
     p_password := JString (cfg_password cfg);
     p_bookSlug := JString (cfg_bookSlug cfg);
     p_interval := JNumber (cfg_interval cfg);
     p_bookQueueId := match cfg_bookQueueId cfg with
                      | Some id => JString id
                      | None => JUndefined
                      end |}.

End Schema.
Import Schema.

(* ===================================================================== *)
(** ** Events of the engine *)
(* ===================================================================== *)

(** A template literal: its text and the numbers interpolated into it. *)
Inductive Piece :=
| Txt (s : string)
| Int (z : Z)
| Num (q : Q)
| Fixed1 (q : Q).

Definition Message := list Piece.

Record CompletedData := {
  cd_bookQueueId : option string;
  cd_pagesRead : Z;
  cd_totalPages : Z;
  cd_timeSpent : Q
}.

Inductive Event :=
| EvStateChange (state : AutomationState) (bookTitle userRa : option string)
| EvProgress (progress : ProgressData)
| EvLog (type : LogType.t) (message : Message)
| EvError (message : string)
| EvCompleted (data : CompletedData).

(** The return type of both [parseRA] methods. *)
Record RA := { ra : string; digito : string; uf : string }.

(** A value thrown by an awaited call. *)
Inductive Thrown :=
| JsError (message : string)
| NotAnError.

(** [error instanceof Error ? error.message : fallback] *)
Definition messageOf (t : Thrown) (fallback : string) : string :=
  match t with
  | JsError m => m
  | NotAnError => fallback
  end.

(* ===================================================================== *)
(** ** What the browser shows *)
(* ===================================================================== *)

Record Element := {
  textContent : string;
  el_disabled : bool   (* disabled, aria-disabled="true" or class "disabled" *)
}.

(** One reading of the document: [page.$(selector)] and [page.$$("*")]. *)
Record Dom := {
  query : string -> option Element;
  allElements : list Element
}.

(** The commands that the bridge passes on to a run in progress.  A
    start message is not one of them: the bridge answers it with another
    call of [start], whose first assignments ([reset]) clear the stop
    flag and set the page counter, the total and the clocks back, and
    which then runs as a second task on the same engine.  The model is of
    one run, from its [start] to its end. *)
Inductive Command := CmdPause | CmdResume | CmdStop.

(** A command handler that runs while the engine is suspended at an
    [await], with the clock at that moment. *)
Definition Signal : Type := Command * Z.

(* ===================================================================== *)
(** ** [server/automation.ts]: class [AutomationService] *)
(* ===================================================================== *)

Module AutomationService.

(** The private fields of the class; [browser] and [page] hold handles. *)
Record Engine := {
  browser : option nat;
  page : option nat;
  config : option AutomationConfig;
  isPaused : bool;
  shouldStop : bool;
  currentPage : Z;
  totalPages : option Z;
  startTime : Z;
  pausedTime : Z;
  lastPauseStart : Z;
  bookQueueId : option string
}.

(** The field initialisers of the class. *)
Definition fresh : Engine :=
  {| browser := None; page := None; config := None;
     isPaused := false; shouldStop := false;
     currentPage := 0; totalPages := None;
     startTime := 0; pausedTime := 0; lastPauseStart := 0;
     bookQueueId := None |}.

Definition set_browser (b : option nat) (e : Engine) : Engine :=
  {| browser := b; page := page e; config := config e;
     isPaused := isPaused e; shouldStop := shouldStop e;
     currentPage := currentPage e; totalPages := totalPages e;
     startTime := startTime e; pausedTime := pausedTime e;
     lastPauseStart := lastPauseStart e; bookQueueId := bookQueueId e |}.

Definition set_page (p : option nat) (e : Engine) : Engine :=
  {| browser := browser e; page := p; config := config e;
     isPaused := isPaused e; shouldStop := shouldStop e;
     currentPage := currentPage e; totalPages := totalPages e;
     startTime := startTime e; pausedTime := pausedTime e;
     lastPauseStart := lastPauseStart e; bookQueueId := bookQueueId e |}.

Definition set_isPaused (b : bool) (e : Engine) : Engine :=
  {| browser := browser e; page := page e; config := config e;
     isPaused := b; shouldStop := shouldStop e;
     currentPage := currentPage e; totalPages := totalPages e;
     startTime := startTime e; pausedTime := pausedTime e;
     lastPauseStart := lastPauseStart e; bookQueueId := bookQueueId e |}.

Definition set_shouldStop (b : bool) (e : Engine) : Engine :=
  {| browser := browser e; page := page e; config := config e;
     isPaused := isPaused e; shouldStop := b;
     currentPage := currentPage e; totalPages := totalPages e;
     startTime := startTime e; pausedTime := pausedTime e;
     lastPauseStart := lastPauseStart e; bookQueueId := bookQueueId e |}.

Definition set_currentPage (n : Z) (e : Engine) : Engine :=
  {| browser := browser e; page := page e; config := config e;
     isPaused := isPaused e; shouldStop := shouldStop e;
     currentPage := n; totalPages := totalPages e;
     startTime := startTime e; pausedTime := pausedTime e;
     lastPauseStart := lastPauseStart e; bookQueueId := bookQueueId e |}.

Definition set_totalPages (t : option Z) (e : Engine) : Engine :=
  {| browser := browser e; page := page e; config := config e;
     isPaused := isPaused e; shouldStop := shouldStop e;
     currentPage := currentPage e; totalPages := t;
     startTime := startTime e; pausedTime := pausedTime e;
     lastPauseStart := lastPauseStart e; bookQueueId := bookQueueId e |}.

Definition set_pausedTime (t : Z) (e : Engine) : Engine :=
  {| browser := browser e; page := page e; config := config e;
     isPaused := isPaused e; shouldStop := shouldStop e;
     currentPage := currentPage e; totalPages := totalPages e;
     startTime := startTime e; pausedTime := t;
     lastPauseStart := lastPauseStart e; bookQueueId := bookQueueId e |}.

Definition set_lastPauseStart (t : Z) (e : Engine) : Engine :=
  {| browser := browser e; page := page e; config := config e;
     isPaused := isPaused e; shouldStop := shouldStop e;
     currentPage := currentPage e; totalPages := totalPages e;
     startTime := startTime e; pausedTime := pausedTime e;
     lastPauseStart := t; bookQueueId := bookQueueId e |}.

(** *** Asynchronous methods as computations over the engine

    A method body runs against the engine's fields, appends to the trace
    of emitted events and ends in one of three ways: it returns, it
    throws, or it is still waiting at an [await] when the environment's
    script ends. *)

Inductive Outcome (A : Type) :=
| Done (a : A)
| Raised (t : Thrown)
| Suspended.
Arguments Done {A} a.
Arguments Raised {A} t.
Arguments Suspended {A}.

Definition Act (A : Type) : Type := Engine -> Outcome A * Engine * list Event.

#[export] Instance Act_ret : MRet Act := fun A a e => (Done a, e, []).

#[export] Instance Act_bind : MBind Act := fun A B k m e =>
  match m e with
  | (Done a, e1, t1) =>
      match k a e1 with
      | (r, e2, t2) => (r, e2, t1 ++ t2)
      end
  | (Raised t, e1, t1) => (Raised t, e1, t1)
  | (Suspended, e1, t1) => (Suspended, e1, t1)
  end.

Definition throw {A} (t : Thrown) : Act A := fun e => (Raised t, e, []).
Definition suspend {A} : Act A := fun e => (Suspended, e, []).
Definition get : Act Engine := fun e => (Done e, e, []).
Definition modify (f : Engine -> Engine) : Act unit := fun e => (Done tt, f e, []).
Definition emit (ev : Event) : Act unit := fun e => (Done tt, e, [ev]).

(** [try { body } catch (error) { handler(error) }] *)
Definition tryCatch {A} (body : Act A) (handler : Thrown -> Act A) : Act A :=
  fun e =>
    match body e with
    | (Raised t, e1, t1) =>
        match handler t e1 with
        | (r, e2, t2) => (r, e2, t1 ++ t2)
        end
    | other => other
    end.

(** [try { body } finally { fin }]: [fin] runs when [body] returns or
    throws; a body still suspended has not reached it. *)
Definition finally {A} (body : Act A) (fin : Act unit) : Act A :=
  fun e =>
    match body e with
    | (Suspended, e1, t1) => (Suspended, e1, t1)
    | (r, e1, t1) =>
        match fin e1 with
        | (Done _, e2, t2) => (r, e2, t1 ++ t2)
        | (Raised t, e2, t2) => (Raised t, e2, t1 ++ t2)
        | (Suspended, e2, t2) => (Suspended, e2, t1 ++ t2)
        end
    end.

(** An awaited call into the browser: it resolves or rejects. *)
Definition await {A} (r : Thrown + A) : Act A :=
  match r with
  | inl t => throw t
  | inr a => mret a
  end.

Definition awaitOk (fault : option Thrown) : Act unit :=
  match fault with
  | Some t => throw t
  | None => mret tt
  end.

Definition trace {A} (m : Act A) (e : Engine) : list Event := snd (m e).
Definition final {A} (m : Act A) (e : Engine) : Engine := snd (fst (m e)).
Definition outcome {A} (m : Act A) (e : Engine) : Outcome A := fst (fst (m e)).

(** *** Emitters *)

Definition getCurrentBookQueueId (e : Engine) : option string := bookQueueId e.

Definition emitState (state : AutomationState) (bookTitle userRa : option string)
  : Act unit :=
  emit (EvStateChange state bookTitle userRa).

Definition emitLog (type : LogType.t) (message : Message) : Act unit :=
  emit (EvLog type message).

Definition emitError (message : string) : Act unit := emit (EvError message).

Definition getElapsedTime (e : Engine) (now : Z) : Q :=
  if JS.truthyNum (startTime e)
  then (inject_Z (now - startTime e - pausedTime e) / inject_Z 1000)%Q
  else 0%Q.

Definition Qgt0 (q : Q) : bool := negb (Qle_bool q 0).

Definition progressOf (e : Engine) (now : Z) : ProgressData :=
  let elapsedTime := getElapsedTime e now in
  let percentage :=
    match totalPages e with
    | Some total =>
        if JS.truthyNum total
        then (inject_Z (currentPage e) / inject_Z total * inject_Z 100)%Q
        else 0%Q
    | None => 0%Q
    end in
  let estimatedTimeRemaining :=
    match totalPages e with
    | Some total =>
        if JS.truthyNum total && (0 <? currentPage e) && Qgt0 percentage
        then
          let timePerPage := (elapsedTime / inject_Z (currentPage e))%Q in
          let remainingPages := total - currentPage e in
          Some (timePerPage * inject_Z remainingPages)%Q
        else None
    | None => None
    end in
  {| pd_currentPage := currentPage e;
     pd_totalPages := totalPages e;
     pd_percentage := percentage;
     pd_elapsedTime := elapsedTime;
     pd_estimatedTimeRemaining := estimatedTimeRemaining |}.

Definition emitProgress (now : Z) : Act unit :=
  e ← get; emit (EvProgress (progressOf e now)).

(** [x || undefined] on a nullable string *)
Definition orUndefined (o : option string) : option string :=
  match o with
  | Some s => if JS.truthyStr s then Some s else None
  | None => None
  end.

Definition completedOf (e : Engine) (now : Z) : CompletedData :=
  {| cd_bookQueueId := orUndefined (bookQueueId e);
     cd_pagesRead := currentPage e;
     cd_totalPages := match totalPages e with
                      | Some total => if JS.truthyNum total then total else currentPage e
                      | None => currentPage e
                      end;
     cd_timeSpent := getElapsedTime e now |}.

Definition emitCompleted (now : Z) : Act unit :=
  e ← get; emit (EvCompleted (completedOf e now)).

(** *** Identifier decomposition *)

(** The local [numbersOnly] of [parseRA], as a function of its argument. *)
Definition numbersOnly (raFull : string) : string :=
  JS.stripLower (JS.toLowerCase (JS.trim raFull)).

Definition parseRA (raFull : string) : RA :=
  let raClean := JS.toLowerCase (JS.trim raFull) in
  let ufMatch := JS.matchTrailingTwoLower raClean in
  let uf := match ufMatch with
            | Some m => JS.toUpperCase m
            | None => "SP"
            end in
  let numbersOnly := JS.stripLower raClean in
  let ra := JS.sliceInit numbersOnly in
  let digito := JS.sliceLast numbersOnly in
  {| ra := ra; digito := digito; uf := uf |}.

(** *** Operator commands *)

Definition pause (now : Z) : Act unit :=
  e ← get;
  if negb (isPaused e) then
    modify (set_isPaused true);;
    modify (set_lastPauseStart now);;
    emitState paused None None;;
    emitLog LogType.info [Txt "Automação pausada"]
  else mret tt.

Definition resume (now : Z) : Act unit :=
  e ← get;
  if isPaused e then
    modify (set_isPaused false);;
    modify (fun e => set_pausedTime (pausedTime e + (now - lastPauseStart e)) e);;
    emitState reading None None;;
    emitLog LogType.info [Txt "Automação retomada"]
  else mret tt.

Definition stop : Act unit :=
  modify (set_shouldStop true);;
  modify (set_isPaused false);;
  emitLog LogType.warning [Txt "Parando automação..."].

Definition handle (s : Signal) : Act unit :=
  match s with
  | (CmdPause, now) => pause now
  | (CmdResume, now) => resume now
  | (CmdStop, _) => stop
  end.

(** The command handlers that run during one awaited stretch. *)
Fixpoint deliver (signals : list Signal) : Act unit :=
  match signals with
  | [] => mret tt
  | s :: rest => handle s;; deliver rest
  end.

(** [browser.close()] errors are ignored. *)
Definition cleanup : Act unit :=
  e ← get;
  match browser e with
  | Some _ => modify (set_browser None);; modify (set_page None)
  | None => mret tt
  end.

(** *** Page probes *)

(** [text.replace(/\D/g, '')] *)
Definition digitsOf (s : string) : string :=
  JS.str (List.filter JS.isDigit (JS.chars s)).

(** [parseInt(digits, 10)] on a string of decimal digits *)
Definition parseInt10 (digits : string) : Z :=
  fold_left (fun acc c => acc * 10 + (Z.of_N (JS.code c) - 48)) (JS.chars digits) 0.

(** the last element of [text.split("/")] *)
Definition afterLastSlash (text : string) : string :=
  JS.str (rev (JS.takeWhile (fun c => negb (Ascii.eqb c "/"%char)) (rev (JS.chars text)))).

Definition titleSelectors : list string :=
  [ "[data-testid='book-title']"; ".book-title"; "h1"; ".reader-title" ].

Fixpoint firstTitle (d : Dom) (selectors : list string) : option string :=
  match selectors with
  | [] => None
  | selector :: rest =>
      match query d selector with
      | Some element =>
          let text := JS.trim (textContent element) in
          if JS.truthyStr text && (0 <? JS.length text)%nat
             && (JS.length text <? 200)%nat
          then Some text
          else firstTitle d rest
      | None => firstTitle d rest
      end
  end.

Definition getBookTitle (d : Dom) (e : Engine) : option string :=
  match page e with
  | None => None
  | Some _ => firstTitle d titleSelectors
  end.

Definition totalSelectors : list string :=
  [ "[data-testid='total-pages']"; "[data-testid='pages-total']";
    ".total-pages"; ".reader-total-pages"; ".pagination .total";
    ".page-count .total"; "#total-pages"; ".total" ].

Fixpoint totalBySelector (d : Dom) (selectors : list string) : option Z :=
  match selectors with
  | [] => None
  | selector :: rest =>
      match query d selector with
      | Some element =>
          let text := JS.trim (textContent element) in
          if JS.truthyStr text then
            let digits := digitsOf text in
            if JS.truthyStr digits then Some (parseInt10 digits)
            else totalBySelector d rest
          else totalBySelector d rest
      | None => totalBySelector d rest
      end
  end.

Fixpoint totalBySlash (elements : list Element) : option Z :=
  match elements with
  | [] => None
  | element :: rest =>
      let text := JS.trim (textContent element) in
      if JS.truthyStr text && JS.includes text "/" then
        let right := digitsOf (afterLastSlash text) in
        if JS.truthyStr right && (0 <? parseInt10 right)
        then Some (parseInt10 right)
        else totalBySlash rest
      else totalBySlash rest
  end.

Definition getTotalPages (d : Dom) (e : Engine) : option Z :=
  match page e with
  | None => None
  | Some _ =>
      match totalBySelector d totalSelectors with
      | Some n => Some n
      | None => totalBySlash (allElements d)
      end
  end.

(** *** The environment of one run

    The page interaction inside [login] and [accessLeiasp] (field
    discovery, typing, submit, failure markers, the hop to LeiaSP) is
    summarised by what the rest of the engine can see of it: the log
    lines it emits, whether it throws, and a newly opened tab. *)

Definition LogLine : Type := LogType.t * Message.

Record LoginEnv := {
  login_signals : list Signal;
  login_goto : option Thrown;
  login_form_logs : list LogLine;
  login_form : option Thrown;
  leiasp_logs : list LogLine;
  leiasp : option Thrown;
  leiasp_newPage : option nat
}.

Record OpenEnv := {
  open_signals : list Signal;
  open_goto : option Thrown;
  open_dom : Dom
}.

(** One pass through the body of the reading loop. *)
Record Pass := {
  pass_lookup_signals : list Signal; (* commands arriving while the control is
                                        looked up and clicked *)
  pass_page : Dom;            (* the document in which the control is looked up *)
  pass_fault : option Thrown; (* an awaited page call of the pass rejects *)
  pass_probe_signals : list Signal;  (* commands arriving while the total is
                                        looked for again *)
  pass_after : Dom;           (* the document after the click *)
  pass_clock1 : Z;
  pass_clock2 : Z;
  pass_clock3 : Z
}.

Inductive Input :=
| Arrives (s : Signal)   (* a command handler runs while the loop sleeps *)
| Wakes (p : Pass).      (* the loop task runs until its next sleep *)

Record ReadEnv := {
  read_signals : list Signal;
  read_dom : Dom;
  read_clock : Z;
  read_script : list Input
}.

Record RunEnv := {
  launch_signals : list Signal;
  launch : Thrown + nat;
  newPage : Thrown + nat;
  login_env : LoginEnv;
  open_env : OpenEnv;
  read_env : ReadEnv
}.

Fixpoint emitLogs (lines : list LogLine) : Act unit :=
  match lines with
  | [] => mret tt
  | (type, message) :: rest => emitLog type message;; emitLogs rest
  end.

(** *** Login and book opening *)

Definition accessLeiasp (env : LoginEnv) : Act unit :=
  e ← get;
  match page e with
  | None => mret tt
  | Some _ =>
      emitLog LogType.info [Txt "Procurando LeiasSP na página..."];;
      emitLogs (leiasp_logs env);;
      awaitOk (leiasp env);;
      match leiasp_newPage env with
      | Some newPage => modify (set_page (Some newPage))
      | None => mret tt
      end
  end.

Definition login (env : LoginEnv) : Act unit :=
  e ← get;
  match page e, config e with
  | Some _, Some cfg =>
      emitState logging_in None None;;
      emitLog LogType.info [Txt "Acessando página de login de alunos..."];;
      tryCatch
        (deliver (login_signals env);;
         awaitOk (login_goto env);;
         emitLog LogType.info [Txt "Página de login carregada"];;
         let r := parseRA (cfg_ra cfg) in
         emitLog LogType.info
           [Txt "RA: "; Txt (ra r); Txt ", Dígito: "; Txt (digito r);
            Txt ", UF: "; Txt (uf r)];;
         emitLog LogType.info [Txt "Preenchendo campo RA..."];;
         emitLogs (login_form_logs env);;
         awaitOk (login_form env);;
         emitLog LogType.success [Txt "Login na Sala do Futuro realizado com sucesso!"];;
         accessLeiasp env;;
         emitState logging_in None (Some (cfg_ra cfg)))
        (fun error =>
           let message := messageOf error "Erro no login" in
           throw (JsError (String.append "Falha no login: " message)))
  | _, _ => mret tt
  end.

(** [a || b] on strings *)
Definition orElse (a : option string) (b : string) : string :=
  match orUndefined a with
  | Some s => s
  | None => b
  end.

Definition openBook (env : OpenEnv) : Act unit :=
  e ← get;
  match page e, config e with
  | Some _, Some cfg =>
      emitState loading_book None None;;
      emitLog LogType.info [Txt "Abrindo livro: "; Txt (cfg_bookSlug cfg); Txt "..."];;
      tryCatch
        (deliver (open_signals env);;
         awaitOk (open_goto env);;
         e ← get;
         let bookTitle := getBookTitle (open_dom env) e in
         emitLog LogType.success
           [Txt "Livro carregado: "; Txt (orElse bookTitle (cfg_bookSlug cfg))];;
         emitState loading_book (orUndefined bookTitle) None;;
         modify (set_totalPages (getTotalPages (open_dom env) e));;
         e ← get;
         if JS.truthyOpt (totalPages e)
         then emitLog LogType.info
                [Txt "Total de páginas detectado: "; Int (default 0 (totalPages e))]
         else emitLog LogType.warning
                [Txt "Não foi possível detectar o total de páginas"])
        (fun error =>
           let message := messageOf error "Erro ao abrir livro" in
           throw (JsError (String.append "Falha ao abrir livro: " message)))
  | _, _ => mret tt
  end.

(** *** The reading loop *)

Definition altSelectors : list string :=
  [ ".next-page"; ".page-next"; "[aria-label='Next page']";
    "[aria-label='Próxima página']"; "button.next"; ".reader-next" ].

(** The [for] loop over [altSelectors]: the first selector that resolves
    is clicked, whatever its state; the result is [found]. *)
Fixpoint clickFirstAlt (d : Dom) (selectors : list string) : bool :=
  match selectors with
  | [] => false
  | selector :: rest =>
      match query d selector with
      | Some _ => true
      | None => clickFirstAlt d rest
      end
  end.

Inductive Next := Break | Continue.

Definition optZ_eqb (a b : option Z) : bool :=
  match a, b with
  | Some x, Some y => x =? y
  | None, None => true
  | _, _ => false
  end.

Definition endOfBook (now : Z) : Act unit :=
  emitLog LogType.success [Txt "Fim do livro alcançado!"];;
  emitCompleted now;;
  emitState completed None None.

(** After a click: count the page and report. *)
Definition countPage (p : Pass) : Act unit :=
  modify (fun e => set_currentPage (currentPage e + 1) e);;
  emitProgress (pass_clock1 p).

(** [if (!this.totalPages) { ... }]: look again for the total. *)
Definition reprobe (p : Pass) : Act unit :=
  e ← get;
  if negb (JS.truthyOpt (totalPages e)) then
    deliver (pass_probe_signals p);;
    e ← get;
    let newTotal := getTotalPages (pass_after p) e in
    if JS.truthyOpt newTotal && negb (optZ_eqb newTotal (totalPages e)) then
      modify (set_totalPages newTotal);;
      emitLog LogType.info
        [Txt "Total de páginas detectado: "; Int (default 0 newTotal)];;
      emitProgress (pass_clock2 p)
    else mret tt
  else mret tt.

(** [if (this.totalPages && this.currentPage >= this.totalPages) { ... }] *)
Definition checkDone (p : Pass) : Act Next :=
  e ← get;
  if JS.truthyOpt (totalPages e) && (default 0 (totalPages e) <=? currentPage e) then
    emitLog LogType.success [Txt "Todas as páginas foram lidas!"];;
    emitCompleted (pass_clock3 p);;
    emitState completed None None;;
    mret Break
  else mret Continue.

Definition afterClick (p : Pass) : Act Next :=
  countPage p;;
  reprobe p;;
  checkDone p.

(** The control is looked up and, if usable, clicked. *)
Definition advance (p : Pass) : Act Next :=
  match query (pass_page p) "[data-testid='next-page-button']" with
  | None =>
      let found := clickFirstAlt (pass_page p) altSelectors in
      if negb found
      then endOfBook (pass_clock1 p);; mret Break
      else afterClick p
  | Some nextButton =>
      let isDisabled := el_disabled nextButton in
      if isDisabled
      then endOfBook (pass_clock1 p);; mret Break
      else afterClick p
  end.

(** The [try] block of one iteration and its [catch]. *)
Definition turnPage (p : Pass) : Act Next :=
  tryCatch
    (deliver (pass_lookup_signals p);;
     awaitOk (pass_fault p);;
     advance p)
    (fun error =>
       let message := messageOf error "Erro ao virar página" in
       emitLog LogType.error [Txt "Erro: "; Txt message];;
       mret Continue).

(** [while (!this.shouldStop) { ... }], driven by the script: command
    handlers run while the loop sleeps between passes ([Arrives]) or while
    a pass waits for the page (the signals of the pass); a pass offered
    while the engine is paused is one 100 ms nap, in which the page is not
    consulted; the loop is still running when the script ends. *)
Fixpoint readLoop (script : list Input) : Act unit :=
  match script with
  | [] => suspend
  | Arrives s :: rest => handle s;; readLoop rest
  | Wakes p :: rest =>
      e ← get;
      if shouldStop e then mret tt
      else if isPaused e then readLoop rest
      else
        next ← turnPage p;
        match next with
        | Break => mret tt
        | Continue => readLoop rest
        end
  end.

(** The statements of [readPages] after the loop. *)
Definition afterLoop : Act unit :=
  e ← get;
  (if shouldStop e then
     emitLog LogType.warning [Txt "Automação interrompida pelo usuário"];;
     emitState idle None None
   else mret tt);;
  e ← get;
  emitLog LogType.info [Txt "Total de páginas viradas: "; Int (currentPage e)].

Definition readPages (env : ReadEnv) : Act unit :=
  e ← get;
  match page e, config e with
  | Some _, Some cfg =>
      emitState reading None None;;
      emitLog LogType.info [Txt "Iniciando leitura automática..."];;
      deliver (read_signals env);;
      e ← get;
      modify (set_totalPages (getTotalPages (read_dom env) e));;
      e ← get;
      (if JS.truthyOpt (totalPages e) then
         let total := default 0 (totalPages e) in
         emitLog LogType.success
           [Txt "📖 Total de páginas do livro: "; Int total; Txt " páginas"];;
         emitLog LogType.info
           [Txt "⏱️ Tempo estimado de leitura: ";
            Int (Qceiling (inject_Z total * cfg_interval cfg / inject_Z 60)%Q);
            Txt " minutos"]
       else
         emitLog LogType.warning
           [Txt "Não foi possível detectar o total de páginas. Continuando leitura..."]);;
      emitLog LogType.info
        [Txt "Intervalo entre páginas: "; Num (cfg_interval cfg); Txt " segundos (";
         Fixed1 (cfg_interval cfg / inject_Z 60)%Q; Txt " minutos)"];;
      emitProgress (read_clock env);;
      readLoop (read_script env);;
      afterLoop
  | _, _ => mret tt
  end.

(** *** [start] *)

(** The assignments at the head of [start]. *)
Definition reset (cfg : AutomationConfig) (now : Z) (e : Engine) : Engine :=
  {| browser := browser e; page := page e;
     config := Some cfg;
     isPaused := false;
     shouldStop := false;
     currentPage := 0;
     totalPages := None;
     startTime := now;
     pausedTime := 0;
     lastPauseStart := lastPauseStart e;
     bookQueueId := orUndefined (cfg_bookQueueId cfg) |}.

(** The [try] block of [start]. *)
Definition startTry (env : RunEnv) : Act unit :=
  emitState connecting None None;;
  emitLog LogType.info [Txt "Iniciando navegador..."];;
  deliver (launch_signals env);;
  b ← await (launch env);
  modify (set_browser (Some b));;
  p ← await (newPage env);
  modify (set_page (Some p));;
  emitLog LogType.success [Txt "Navegador iniciado com sucesso"];;
  login (login_env env);;
  e ← get;
  if shouldStop e then cleanup
  else
    openBook (open_env env);;
    e ← get;
    if shouldStop e then cleanup
    else readPages (read_env env).

(** The [catch] block of [start]. *)
Definition startCatch (error : Thrown) : Act unit :=
  let message := messageOf error "Erro desconhecido" in
  emitError message;;
  emitLog LogType.error [Txt "Erro: "; Txt message].

Definition start (cfg : AutomationConfig) (now : Z) (env : RunEnv) : Act unit :=
  modify (reset cfg now);;
  finally (tryCatch (startTry env) startCatch) cleanup.

End AutomationService.

(* ===================================================================== *)
(** ** [server/book-browser.ts]: class [BookBrowserService] *)
(* ===================================================================== *)

Module BookBrowserService.

Definition parseRA (raFull : string) : RA :=
  let raClean := JS.toLowerCase (JS.trim raFull) in
  let ufMatch := JS.matchTrailingTwoLower raClean in
  let uf := match ufMatch with
            | Some m => JS.toUpperCase m
            | None => "SP"
            end in
  let numbersOnly := JS.stripLower raClean in
  let ra := JS.sliceInit numbersOnly in
  let digito := JS.sliceLast numbersOnly in
  {| ra := ra; digito := digito; uf := uf |}.

Record AvailableBook := {
  id : Message;
  title : string;
  coverUrl : string;
  slug : string;
  category : string
}.

Record BookCategory := {
  name : string;
  books : list AvailableBook
}.

(** What [card.evaluate] returns for a card of the heading scan, and
    what [bookEl.evaluate] returns for an image of the flat scan. *)
Record CardData := {
  card_coverUrl : string;
  card_title : string;
  card_slug : string;
  card_href : string
}.

Record ImageData := {
  img_coverUrl : string;
  img_title : string;
  img_href : string
}.

(** A heading-like element: its trimmed text and the cards found by the
    query made while it is processed; [None] is a card whose evaluation
    throws; the number is the clock when the card is pushed. *)
Record Heading := {
  heading_text : string;
  heading_cards : list (option CardData * Z)
}.

Record ScrapeEnv := {
  categoryElements : list Heading;
  bookElements : list (option ImageData * Z)
}.

(** [.replace(/\s+/g, "-")]: [inRun] says that the characters just
    before were white space, for which the hyphen is already there. *)
Fixpoint dashSpaces (inRun : bool) (l : list ascii) : list ascii :=
  let dash (rest : list ascii) := if inRun then rest else "-"%char :: rest in
  match l with
  | [] => []
  | a :: r1 =>
      if JS.isSpace a then dash (dashSpaces true r1)
      else
        match r1 with
        | [] => a :: dashSpaces false r1
        | b :: r2 =>
            if JS.isSpace2 a b then dash (dashSpaces true r2)
            else
              match r2 with
              | [] => a :: dashSpaces false r1
              | c :: r3 =>
                  if JS.isSpace3 a b c then dash (dashSpaces true r3)
                  else a :: dashSpaces false r1
              end
        end
  end.

(** [[a-z0-9-]] *)
Definition slugChar (c : ascii) : bool :=
  JS.isLower c || JS.isDigit c || Ascii.eqb c "-"%char.

(** [title.toLowerCase().replace(/\s+/g, "-").replace(/[^a-z0-9-]/g, '')] *)
Definition slugify (title : string) : string :=
  JS.str (List.filter slugChar (dashSpaces false (JS.chars (JS.toLowerCase title)))).

Definition pathMarkers : list string := [ "/livro/"; "/book/"; "/reader/" ].

Definition segmentChar (c : ascii) : bool :=
  negb (Ascii.eqb c "/"%char || Ascii.eqb c "?"%char).

Fixpoint matchMarkers (markers : list string) (l : list ascii) : option string :=
  match markers with
  | [] => None
  | m :: rest =>
      let seg := JS.takeWhile segmentChar (skipn (String.length m) l) in
      if JS.prefixOf (JS.chars m) l && negb (Nat.eqb (List.length seg) 0)
      then Some (JS.str seg)
      else matchMarkers rest l
  end.

Fixpoint matchPathChars (l : list ascii) : option string :=
  match matchMarkers pathMarkers l with
  | Some seg => Some seg
  | None =>
      match l with
      | [] => None
      | _ :: r => matchPathChars r
      end
  end.

(** capture 1 of [href.match(/\/(?:livro|book|reader)\/([^/?]+)/)] *)
Definition matchBookPath (href : string) : option string :=
  matchPathChars (JS.chars href).

(** [a || b] on strings *)
Definition orStr (a b : string) : string := if JS.truthyStr a then a else b.

(** The [for (const card of bookCards)] loop of one heading. *)
Fixpoint collectCards (categoryName : string) (cards : list (option CardData * Z))
    (books : list AvailableBook) : list AvailableBook :=
  match cards with
  | [] => books
  | (None, _) :: rest => collectCards categoryName rest books
  | (Some bookData, now) :: rest =>
      if JS.truthyStr (card_title bookData)
         && (2 <? JS.length (card_title bookData))%nat
         && (JS.length (card_title bookData) <? 200)%nat
      then
        collectCards categoryName rest
          (books ++
           [{| id := [Txt "book-"; Int (Z.of_nat (List.length books)); Txt "-"; Int now];
               title := card_title bookData;
               coverUrl := card_coverUrl bookData;
               slug := orStr (card_slug bookData) (slugify (card_title bookData));
               category := categoryName |}])
      else collectCards categoryName rest books
  end.

Definition isCategoryName (categoryName : string) (processed : gset string) : bool :=
  negb
    (negb (JS.truthyStr categoryName)
     || (JS.length categoryName <? 5)%nat
     || (100 <? JS.length categoryName)%nat
     || bool_decide (categoryName ∈ processed)
     || (negb (JS.includes categoryName "Leitura")
         && negb (JS.includes categoryName "Ano")
         && negb (JS.includes categoryName "Bimestre")
         && negb (JS.includes categoryName "Sugerida"))).

(** The [for (const categoryEl of categoryElements)] loop. *)
Fixpoint scanHeadings (els : list Heading) (processedCategories : gset string)
    (categories : list BookCategory) : list BookCategory :=
  match els with
  | [] => categories
  | categoryEl :: rest =>
      let categoryName := heading_text categoryEl in
      if isCategoryName categoryName processedCategories then
        let books := collectCards categoryName (heading_cards categoryEl) [] in
        scanHeadings rest ({[ categoryName ]} ∪ processedCategories)
          (if (0 <? List.length books)%nat
           then categories ++ [{| name := categoryName; books := firstn 20 books |}]
           else categories)
      else scanHeadings rest processedCategories categories
  end.

(** The [for (const bookEl of bookElements)] loop of the flat scan. *)
Fixpoint collectImages (els : list (option ImageData * Z))
    (allBooks : list AvailableBook) : list AvailableBook :=
  match els with
  | [] => allBooks
  | (None, _) :: rest => collectImages rest allBooks
  | (Some bookData, now) :: rest =>
      if JS.truthyStr (img_title bookData) && JS.truthyStr (img_coverUrl bookData)
      then
        let slug :=
          if JS.truthyStr (img_href bookData)
          then match matchBookPath (img_href bookData) with
               | Some m => m
               | None => EmptyString
               end
          else EmptyString in
        collectImages rest
          (allBooks ++
           [{| id := [Txt "book-"; Int (Z.of_nat (List.length allBooks)); Txt "-"; Int now];
               title := img_title bookData;
               coverUrl := img_coverUrl bookData;
               slug := orStr slug (slugify (img_title bookData));
               category := "Livros Disponíveis" |}])
      else collectImages rest allBooks
  end.

Definition flatScan (env : ScrapeEnv) : list BookCategory :=
  let allBooks := collectImages (bookElements env) [] in
  if (0 <? List.length allBooks)%nat
  then [{| name := "Livros Disponíveis"; books := firstn 50 allBooks |}]
  else [].

Definition scrapeBooks (page : option nat) (env : ScrapeEnv) : list BookCategory :=
  match page with
  | None => []
  | Some _ =>
      let categories := scanHeadings (categoryElements env) ∅ [] in
      if Nat.eqb (List.length categories) 0
      then categories ++ flatScan env
      else categories
  end.


(** *** [fetchBooks] *)

(** The private fields of the class. *)
Record Service := {
  browser : option nat;
  page : option nat
}.

(** What the browser answers during one [fetchBooks]: each awaited step
    resolves or rejects. *)
Record FetchEnv := {
  fetch_launch : Thrown + nat;
  fetch_newPage : Thrown + nat;
  fetch_login : option Thrown;      (* [login] throws *)
  fetch_navigate : option Thrown;   (* [navigateToLeiasp] throws *)
  fetch_scrape : Thrown + ScrapeEnv (* a page call of [scrapeBooks] rejects,
                                       or the document it reads *)
}.

(** [browser.close()] errors are ignored. *)
Definition cleanup (s : Service) : Service :=
  match browser s with
  | Some _ => {| browser := None; page := None |}
  | None => s
  end.

(** The [try] block of [fetchBooks]. *)
Definition fetchTry (env : FetchEnv) (s : Service)
  : (Thrown + list BookCategory) * Service :=
  match fetch_launch env with
  | inl thrown => (inl thrown, s)
  | inr b =>
      let s1 := {| browser := Some b; page := page s |} in
      match fetch_newPage env with
      | inl thrown => (inl thrown, s1)
      | inr p =>
          let s2 := {| browser := browser s1; page := Some p |} in
          match fetch_login env with
          | Some thrown => (inl thrown, s2)
          | None =>
              match fetch_navigate env with
              | Some thrown => (inl thrown, s2)
              | None =>
                  match fetch_scrape env with
                  | inl thrown => (inl thrown, s2)
                  | inr document => (inr (scrapeBooks (page s2) document), s2)
                  end
              end
          end
      end
  end.

(** [try { ... } catch (error) { throw error } finally { cleanup() }] *)
Definition fetchBooks (env : FetchEnv) (s : Service)
  : (Thrown + list BookCategory) * Service :=
  let (result, s1) := fetchTry env s in (result, cleanup s1).


(** *** Shape of the result *)

(** A category built from a heading. *)
Definition wellFormed (c : BookCategory) : Prop :=
  (5 <= JS.length (name c) <= 100)%nat /\
  (JS.includes (name c) "Leitura" || JS.includes (name c) "Ano"
   || JS.includes (name c) "Bimestre" || JS.includes (name c) "Sugerida") = true /\
  books c <> [] /\
  Forall (fun b => category b = name c /\ (2 < JS.length (title b) < 200)%nat)
    (books c).

End BookBrowserService.

(* ===================================================================== *)
(** ** [server/storage.ts]: class [DatabaseStorage] *)
(* ===================================================================== *)

Module Storage.

(** A row of [books_queue]; the primary key [id] is the key of the map.
    The columns that no modelled operation reads or writes ([interval],
    [addedAt], [startedAt]) are left out. *)
Record BookQueue := {
  bookSlug : string;
  bookTitle : option string;
  position : Z;
  status : string;
  currentPage : Z;
  totalPages : option Z;
  completedAt : option Z
}.

(** A row of [reading_history], as inserted. *)
Record ReadingHistory := {
  h_bookSlug : string;
  h_bookTitle : option string;
  h_pagesRead : Z;
  h_totalPages : option Z;
  h_timeSpentSeconds : Z;
  h_wasCompleted : bool
}.

Record Db := {
  booksQueue : gmap string BookQueue;
  readingHistory : list ReadingHistory
}.

Definition getQueuedBook (id : string) (db : Db) : option BookQueue :=
  booksQueue db !! id.

Definition addToHistory (entry : ReadingHistory) (db : Db) : Db :=
  {| booksQueue := booksQueue db;
     readingHistory := readingHistory db ++ [entry] |}.

Definition setProgress (cur : Z) (total : option Z) (b : BookQueue) : BookQueue :=
  {| bookSlug := bookSlug b; bookTitle := bookTitle b; position := position b;
     status := status b;
     currentPage := cur;
     totalPages := match total with Some t => Some t | None => totalPages b end;
     completedAt := completedAt b |}.

(** How an awaited call into the store ends. *)
Inductive Answer := Returns | Throws.

(** The range of an [integer] column.  The database refuses a statement
    that holds a number outside it, whether or not a row matches: the
    statement changes nothing and the call throws. *)
Definition int32 (z : Z) : bool := (-2147483648 <=? z) && (z <=? 2147483647).

Definition int32Opt (o : option Z) : bool :=
  match o with
  | Some z => int32 z
  | None => true
  end.

Definition updateBookProgress (id : string) (cur : Z) (total : option Z) (db : Db)
    : Db * Answer :=
  if int32 cur && int32Opt total
  then ({| booksQueue := alter (setProgress cur total) id (booksQueue db);
           readingHistory := readingHistory db |}, Returns)
  else (db, Throws).

Definition setCompleted (now pagesRead total : Z) (b : BookQueue) : BookQueue :=
  {| bookSlug := bookSlug b; bookTitle := bookTitle b; position := position b;
     status := "completed";
     currentPage := pagesRead;
     totalPages := Some total;
     completedAt := Some now |}.

(** The update of the queue entry and the insert into the history are
    two statements: when the first is refused nothing is written; when
    only the second is (the time spent does not fit), the entry stays
    marked and no history row is written. *)
Definition markBookCompleted (id : string) (pagesRead total : Z) (timeSpent : Q)
    (now : Z) (db : Db) : Db * Answer :=
  match getQueuedBook id db with
  | None => (db, Returns)
  | Some book =>
      if int32 pagesRead && int32 total then
        let marked :=
          {| booksQueue := alter (setCompleted now pagesRead total) id (booksQueue db);
             readingHistory := readingHistory db |} in
        if int32 (Qfloor timeSpent) then
          (addToHistory
             {| h_bookSlug := bookSlug book;
                h_bookTitle := bookTitle book;
                h_pagesRead := pagesRead;
                h_totalPages := Some total;
                h_timeSpentSeconds := Qfloor timeSpent;
                h_wasCompleted := true |}
             marked, Returns)
        else (marked, Throws)
      else (db, Throws)
  end.


(** *** The queue *)

(** [InsertBookQueue]: the columns a caller may supply. *)
Record InsertBookQueue := {
  ins_bookSlug : string;
  ins_bookTitle : option string;
  ins_position : option Z;
  ins_status : option string;
  ins_currentPage : option Z;
  ins_totalPages : option Z
}.

(** [existingBooks.map(b => b.position)]; the order of the rows does not
    matter to the maximum taken of it. *)
Definition positions (db : Db) : list Z :=
  List.map (fun row => position (snd row)) (map_to_list (booksQueue db)).

(** [existingBooks.length > 0 ? Math.max(...positions) + 1 : 0] *)
Definition maxPosition (db : Db) : Z :=
  match positions db with
  | [] => 0
  | p :: ps => fold_left Z.max ps p + 1
  end.

(** The row the database creates for [book], column defaults filled in. *)
Definition created (book : InsertBookQueue) (db : Db) : BookQueue :=
  {| bookSlug := ins_bookSlug book;
     bookTitle := ins_bookTitle book;
     position := default (maxPosition db) (ins_position book);
     status := default "pending" (ins_status book);
     currentPage := default 0 (ins_currentPage book);
     totalPages := ins_totalPages book;
     completedAt := None |}.

(** The [integer] columns of a row hold numbers of their range. *)
Definition fits (row : BookQueue) : bool :=
  int32 (position row) && int32 (currentPage row) && int32Opt (totalPages row).

(** [id] is the key the database generates for the new row.  The result
    is [None] when the insert is refused and the call throws. *)
Definition addToQueue (id : string) (book : InsertBookQueue) (db : Db)
    : Db * option BookQueue :=
  let row := created book db in
  if fits row
  then ({| booksQueue := <[id := row]> (booksQueue db);
           readingHistory := readingHistory db |}, Some row)
  else (db, None).

Definition removeFromQueue (id : string) (db : Db) : Db :=
  {| booksQueue := delete id (booksQueue db);
     readingHistory := readingHistory db |}.

(** *** History statistics *)

Record HistoryStats := {
  stats_totalBooks : nat;
  stats_totalPages : Z;
  stats_totalTime : Z;
  stats_completedBooks : nat
}.

(** The body of [getHistoryStats] on the rows [history]. *)
Definition statsOf (history : list ReadingHistory) : HistoryStats :=
  {| stats_totalBooks := List.length history;
     stats_totalPages := fold_left (fun sum h => sum + h_pagesRead h) history 0;
     stats_totalTime := fold_left (fun sum h => sum + h_timeSpentSeconds h) history 0;
     stats_completedBooks := List.length (List.filter h_wasCompleted history) |}.

Definition getHistoryStats (db : Db) : HistoryStats := statsOf (readingHistory db).

(** *** Scheduled readings *)

(** A row of [scheduled_readings]; time stamps are milliseconds. *)
Record ScheduledReading := {
  sched_bookQueueId : option string;
  scheduledTime : Z;
  repeatType : string;
  isActive : bool;
  lastRun : option Z
}.

Definition isDue (now : Z) (s : ScheduledReading) : bool :=
  isActive s && (scheduledTime s <=? now).

(** The rows selected by [getDueScheduledReadings], by key. *)
Definition getDueScheduledReadings (now : Z) (tbl : gmap string ScheduledReading)
  : gmap string ScheduledReading :=
  filter (fun row => isDue now (snd row) = true) tbl.

(** The row after [markScheduleAsRun]; [addDays n t] is the time stamp of
    [d.setDate(d.getDate() + n)] for the date [d] of time stamp [t], in the
    calendar of the host. *)
Definition ranAt (addDays : Z -> Z -> Z) (now : Z) (schedule : ScheduledReading)
  : ScheduledReading :=
  if String.eqb (repeatType schedule) "once" then
    {| sched_bookQueueId := sched_bookQueueId schedule;
       scheduledTime := scheduledTime schedule;
       repeatType := repeatType schedule;
       isActive := false;
       lastRun := Some now |}
  else
    let nextRun :=
      if String.eqb (repeatType schedule) "daily" then addDays 1 (scheduledTime schedule)
      else if String.eqb (repeatType schedule) "weekly"
           then addDays 7 (scheduledTime schedule)
           else scheduledTime schedule in
    {| sched_bookQueueId := sched_bookQueueId schedule;
       scheduledTime := nextRun;
       repeatType := repeatType schedule;
       isActive := isActive schedule;
       lastRun := Some now |}.

Definition markScheduleAsRun (addDays : Z -> Z -> Z) (now : Z) (id : string)
    (tbl : gmap string ScheduledReading) : gmap string ScheduledReading :=
  match tbl !! id with
  | None => tbl
  | Some schedule => <[id := ranAt addDays now schedule]> tbl
  end.

End Storage.

(* ===================================================================== *)
(** ** [server/routes.ts]: the WebSocket bridge and the session registry *)
(* ===================================================================== *)

Module Routes.

Import AutomationService.

(** Outbound messages. *)
Inductive WsOut :=
| connected (sessionId : string)
| state_update (state : AutomationState) (bookTitle userRa : option string)
| progress_update (progress : ProgressData)
| log (type : LogType.t) (message : Message)
| error (message : string).

(** Calls into [storage] made by the event listeners. *)
Inductive StoreCall :=
| UpdateBookProgress (id : string) (currentPage : Z) (totalPages : option Z)
| MarkBookCompleted (id : string) (pagesRead totalPages : Z) (timeSpent : Q).

(** [x || undefined] on a nullable number *)
Definition numOrUndefined (o : option Z) : option Z :=
  if JS.truthyOpt o then o else None.

(** The five listeners registered on the engine [automation]. *)
Definition listeners (automation : Engine) (ev : Event) : list WsOut * list StoreCall :=
  match ev with
  | EvStateChange state bookTitle userRa =>
      ([state_update state bookTitle userRa], [])
  | EvProgress progress =>
      ([progress_update progress],
       match orUndefined (getCurrentBookQueueId automation) with
       | Some id => [UpdateBookProgress id (pd_currentPage progress)
                       (numOrUndefined (pd_totalPages progress))]
       | None => []
       end)
  | EvLog type message => ([log type message], [])
  | EvError message => ([error message], [])
  | EvCompleted data =>
      ([],
       match orUndefined (cd_bookQueueId data) with
       | Some id => [MarkBookCompleted id (cd_pagesRead data) (cd_totalPages data)
                       (cd_timeSpent data)]
       | None => []
       end)
  end.

(** All store calls caused by a trace of events of [automation]. *)
Definition storeCalls (automation : Engine) (events : list Event) : list StoreCall :=
  flat_map (fun ev => snd (listeners automation ev)) events.

Definition sentMessages (automation : Engine) (events : list Event) : list WsOut :=
  flat_map (fun ev => fst (listeners automation ev)) events.

Definition call (now : Z) (db : Storage.Db) (c : StoreCall)
    : Storage.Db * Storage.Answer :=
  match c with
  | UpdateBookProgress id cur total => Storage.updateBookProgress id cur total db
  | MarkBookCompleted id pagesRead total timeSpent =>
      Storage.markBookCompleted id pagesRead total timeSpent now db
  end.

(** The store after the call [c].  A call that throws rejects the promise
    of its listener, which nobody awaits; in [performAll] the calls of
    the events that follow are made all the same.  A statement that
    depends on them says that no call of the run throws ([inRange]). *)
Definition perform (now : Z) (db : Storage.Db) (c : StoreCall) : Storage.Db :=
  fst (call now db c).

Definition performAll (now : Z) (calls : list StoreCall) (db : Storage.Db) : Storage.Db :=
  fold_left (perform now) calls db.

(** The numbers of the call [c] fit the [integer] columns they go to. *)
Definition inRange (c : StoreCall) : bool :=
  match c with
  | UpdateBookProgress _ cur total => Storage.int32 cur && Storage.int32Opt total
  | MarkBookCompleted _ pagesRead total timeSpent =>
      Storage.int32 pagesRead && Storage.int32 total && Storage.int32 (Qfloor timeSpent)
  end.

Definition isMark (c : StoreCall) : bool :=
  match c with
  | MarkBookCompleted _ _ _ _ => true
  | UpdateBookProgress _ _ _ => false
  end.

(** The number of [markBookCompleted] calls among [calls]. *)
Definition marks (calls : list StoreCall) : nat :=
  List.length (List.filter isMark calls).

(** The queue entry a call is about. *)
Definition target (c : StoreCall) : string :=
  match c with
  | UpdateBookProgress id _ _ => id
  | MarkBookCompleted id _ _ _ => id
  end.

(** *** Inbound messages *)

Record WsMessage := {
  type : string;
  payload : option Payload
}.

(** What the [message] handler does: it fires [start] without awaiting
    it, runs a command on the engine, or answers with an error. *)
Inductive Reaction :=
| Starts (cfg : AutomationConfig)
| Runs (a : Act unit)
| Replies (m : WsOut)
| Nothing.

(** [data] is [None] when [JSON.parse] throws. *)
Definition onMessage (data : option WsMessage) (now : Z) : Reaction :=
  match data with
  | None => Replies (error "Erro ao processar mensagem")
  | Some message =>
      if String.eqb (type message) "start" then
        match safeParse (payload message) with
        | Some cfg => Starts cfg
        | None => Replies (error "Configuração inválida")
        end
      else if String.eqb (type message) "pause" then Runs (pause now)
      else if String.eqb (type message) "resume" then Runs (resume now)
      else if String.eqb (type message) "stop" then Runs stop
      else Nothing
  end.

(** *** The registry

    [sessions] maps a session id to an [AutomationService] object; the
    objects live in [heap], so that the registry, the listeners and a
    running [start] all see the same engine. *)
Record Server := {
  sessions : gmap string nat;
  heap : gmap nat Engine
}.

(** [wss.on("connection")]: a new engine at the unused address [ref]. *)
Definition onConnection (sessionId : string) (ref : nat) (srv : Server) : Server :=
  {| sessions := <[sessionId := ref]> (sessions srv);
     heap := <[ref := fresh]> (heap srv) |}.

(** [ws.on("close")]: [await session.stop()], then [sessions.delete]. *)
Definition onClose (sessionId : string) (srv : Server) : Server * list Event :=
  match sessions srv !! sessionId with
  | Some ref =>
      match heap srv !! ref with
      | Some session =>
          ({| sessions := delete sessionId (sessions srv);
              heap := <[ref := final stop session]> (heap srv) |},
           trace stop session)
      | None => (srv, [])
      end
  | None => (srv, [])
  end.

End Routes.

(* ===================================================================== *)
(** ** The client hook [useAutomation]: the session shown by the panel *)
(* ===================================================================== *)

Module UseAutomation.

Import AutomationService Routes.

(** The fields of [AutomationSession] that [handleMessage] sets.  A log
    entry is its type and message; its [id] and [timestamp] are not
    modelled.  The server sends no [startedAt]. *)
Record Session := {
  id : string;
  state : AutomationState;
  progress : ProgressData;
  logs : list (LogType.t * Message);
  bookTitle : option string;
  userRa : option string
}.

Definition initialSession : Session :=
  {| id := EmptyString;
     state := idle;
     progress := {| pd_currentPage := 0;
                    pd_totalPages := None;
                    pd_percentage := 0;
                    pd_elapsedTime := 0;
                    pd_estimatedTimeRemaining := None |};
     logs := [];
     bookTitle := None;
     userRa := None |}.

Definition addLog (type : LogType.t) (message : Message) (prev : Session) : Session :=
  {| id := id prev;
     state := state prev;
     progress := progress prev;
     logs := logs prev ++ [(type, message)];
     bookTitle := bookTitle prev;
     userRa := userRa prev |}.

(** [x || prev], on a nullable string *)
Definition orPrev (x prev : option string) : option string :=
  match orUndefined x with
  | Some s => Some s
  | None => prev
  end.

Definition handleMessage (message : WsOut) (prev : Session) : Session :=
  match message with
  | connected sessionId =>
      {| id := if JS.truthyStr sessionId then sessionId else id prev;
         state := state prev;
         progress := progress prev;
         logs := logs prev;
         bookTitle := bookTitle prev;
         userRa := userRa prev |}
  | state_update newState title ra =>
      {| id := id prev;
         state := newState;
         progress := progress prev;
         logs := logs prev;
         bookTitle := orPrev title (bookTitle prev);
         userRa := orPrev ra (userRa prev) |}
  | progress_update received =>
      {| id := id prev;
         state := state prev;
         progress := received;
         logs := logs prev;
         bookTitle := bookTitle prev;
         userRa := userRa prev |}
  | log type message => addLog type message prev
  | error message =>
      let entry := addLog LogType.error
                     [Txt (if JS.truthyStr message then message else "Erro desconhecido")]
                     prev in
      {| id := id entry;
         state := Schema.error;
         progress := progress entry;
         logs := logs entry;
         bookTitle := bookTitle entry;
         userRa := userRa entry |}
  end.

(** The session after the messages of the server, in the order sent. *)
Definition receive (messages : list WsOut) (session : Session) : Session :=
  fold_left (fun prev message => handleMessage message prev) messages session.

End UseAutomation.

(* ===================================================================== *)
(** ** [client/src/components/progress-panel.tsx] *)
(* ===================================================================== *)

Module ProgressPanel.

(** [Math.min(100, q)] *)
Definition min100 (q : Q) : Q := if Qle_bool q (100 # 1) then q else (100 # 1)%Q.

(** The [percentage] shown by the panel. *)
Definition percentage (progress : ProgressData) : Q :=
  match pd_totalPages progress with
  | Some total =>
      if JS.truthyNum total
      then min100 (inject_Z (pd_currentPage progress) / inject_Z total * inject_Z 100)%Q
      else pd_percentage progress
  | None => pd_percentage progress
  end.

(** The integer part of a number, rounding towards zero. *)
Definition trunc (q : Q) : Z := Z.quot (Qnum q) (Z.pos (Qden q)).

(** [a % b] on numbers: the remainder has the sign of [a]. *)
Definition rem (a b : Q) : Q := (a - b * inject_Z (trunc (a / b)))%Q.

Definition formatTime (seconds : Q) : Message :=
  if negb (Qle_bool (60 # 1) seconds) then [Int (Qfloor seconds); Txt "s"]
  else
    let minutes := Qfloor (seconds / (60 # 1))%Q in
    let remainingSeconds := Qfloor (rem seconds (60 # 1)) in
    if minutes <? 60 then [Int minutes; Txt "m "; Int remainingSeconds; Txt "s"]
    else
      let hours := Qfloor (inject_Z minutes / (60 # 1))%Q in
      let remainingMinutes := Z.rem minutes 60 in
      [Int hours; Txt "h "; Int remainingMinutes; Txt "m"].

End ProgressPanel.

(* ===================================================================== *)
(** ** Definitions that follow the words of the specification *)
(* ===================================================================== *)

Module Spec.

(** [digits-only(raw)]: the decimal digits of [raw], in order. *)
Definition digitsOnly (raw : string) : string :=
  JS.str (List.filter JS.isDigit (JS.chars raw)).

(** [percentage = currentPage/totalPages*100] when the total is known,
    else the last externally supplied value. *)
Definition percentage (supplied : Q) (currentPage : Z) (totalPages : option Z) : Q :=
  match totalPages with
  | Some total => (inject_Z currentPage / inject_Z total * inject_Z 100)%Q
  | None => supplied
  end.

(** [estimatedRemainingSeconds = (elapsed/currentPage) * (totalPages-currentPage)]
    once [currentPage > 0] and the total is known, else unknown. *)
Definition estimatedRemainingSeconds (elapsed : Q) (currentPage : Z)
    (totalPages : option Z) : option Q :=
  match totalPages with
  | Some total =>
      if 0 <? currentPage
      then Some (elapsed / inject_Z currentPage * inject_Z (total - currentPage))%Q
      else None
  | None => None
  end.

(** [intervalSeconds] clamped to [[60,300]]. *)
Definition clamp (q : Q) : Q :=
  if Qle_bool q (60 # 1) then (60 # 1)%Q
  else if Qle_bool (300 # 1) q then (300 # 1)%Q
  else q.

End Spec.

(* ===================================================================== *)
(** ** Sample inputs *)
(* ===================================================================== *)

Module Samples.

Import AutomationService.

Definition cfg : AutomationConfig :=
  {| cfg_ra := "00001152877136sp"; cfg_password := "segredo";
     cfg_bookSlug := "dom-casmurro"; cfg_interval := (60 # 1)%Q;
     cfg_bookQueueId := Some "q1" |}.

(** An engine in the reading state, started at clock 1000. *)
Definition running : Engine :=
  {| browser := Some 7%nat; page := Some 8%nat; config := Some cfg;
     isPaused := false; shouldStop := false;
     currentPage := 0; totalPages := None;
     startTime := 1000; pausedTime := 0; lastPauseStart := 0;
     bookQueueId := Some "q1" |}.

(** Thirty pages into a book of 120. *)
Definition page30of120 : Engine :=
  set_totalPages (Some 120) (set_currentPage 30 running).

(** Five pages into a book whose total was never detected. *)
Definition page5unknown : Engine := set_currentPage 5 running.

(** A document without the primary next-page button in which the
    first alternative selector resolves to a disabled control. *)
Definition lastPageAlt : Dom :=
  {| query := fun selector =>
       if String.eqb selector ".next-page"
       then Some {| textContent := ">"; el_disabled := true |}
       else None;
     allElements := [] |}.

Definition lastPageAltPass : Pass :=
  {| pass_lookup_signals := []; pass_page := lastPageAlt; pass_fault := None;
     pass_probe_signals := []; pass_after := lastPageAlt;
     pass_clock1 := 61000; pass_clock2 := 61500; pass_clock3 := 62000 |}.

Definition noLoginTrouble : LoginEnv :=
  {| login_signals := []; login_goto := None; login_form_logs := [];
     login_form := None; leiasp_logs := []; leiasp := None;
     leiasp_newPage := None |}.

Definition emptyDom : Dom := {| query := fun _ => None; allElements := [] |}.

(** A run whose browser starts and whose login page cannot be reached. *)
Definition loginUnreachable : RunEnv :=
  {| launch_signals := [];
     launch := inr 7%nat;
     newPage := inr 8%nat;
     login_env :=
       {| login_signals := []; login_goto := Some (JsError "net::ERR_TIMED_OUT");
          login_form_logs := []; login_form := None; leiasp_logs := [];
          leiasp := None; leiasp_newPage := None |};
     open_env := {| open_signals := []; open_goto := None; open_dom := emptyDom |};
     read_env := {| read_signals := []; read_dom := emptyDom; read_clock := 0;
                    read_script := [] |} |}.

Definition ready : OpenEnv :=
  {| open_signals := []; open_goto := None; open_dom := emptyDom |}.

(** A pass in which the primary next-page button is found enabled. *)
Definition turnablePage : Dom :=
  {| query := fun selector =>
       if String.eqb selector "[data-testid='next-page-button']"
       then Some {| textContent := ">"; el_disabled := false |}
       else None;
     allElements := [] |}.

(** A pass in which the primary next-page button is found disabled. *)
Definition lastPage : Dom :=
  {| query := fun selector =>
       if String.eqb selector "[data-testid='next-page-button']"
       then Some {| textContent := ">"; el_disabled := true |}
       else None;
     allElements := [] |}.

Definition passOn (d : Dom) (now : Z) : Pass :=
  {| pass_lookup_signals := []; pass_page := d; pass_fault := None;
     pass_probe_signals := []; pass_after := d;
     pass_clock1 := now; pass_clock2 := now; pass_clock3 := now |}.

Definition runWith (script : list Input) : RunEnv :=
  {| launch_signals := []; launch := inr 7%nat; newPage := inr 8%nat;
     login_env := noLoginTrouble; open_env := ready;
     read_env := {| read_signals := []; read_dom := emptyDom; read_clock := 3000;
                    read_script := script |} |}.

(** Two pages are turned, then the operator stops the run. *)
Definition stoppedRun : RunEnv :=
  runWith [Wakes (passOn turnablePage 4000); Wakes (passOn turnablePage 64000);
           Arrives (CmdStop, 70000); Wakes (passOn turnablePage 124000)].

(** Two pages are turned, then the button is found disabled. *)
Definition completedRun : RunEnv :=
  runWith [Wakes (passOn turnablePage 4000); Wakes (passOn turnablePage 64000);
           Wakes (passOn lastPage 124000)].

(** Two pages are turned; the operator stops the run while the third pass
    is looking up the button, which it finds disabled. *)
Definition stoppedAtLastPage : RunEnv :=
  runWith [Wakes (passOn turnablePage 4000); Wakes (passOn turnablePage 64000);
           Wakes {| pass_lookup_signals := [(CmdStop, 123900)];
                    pass_page := lastPage; pass_fault := None;
                    pass_probe_signals := []; pass_after := lastPage;
                    pass_clock1 := 124000; pass_clock2 := 124000;
                    pass_clock3 := 124000 |}].

(** The reader page of a book whose page count stands next to its ISBN. *)
Definition isbnPage : Dom :=
  {| query := fun selector =>
       if String.eqb selector ".total"
       then Some {| textContent := "120 (ISBN 978-85-359-1484-9)"; el_disabled := false |}
       else None;
     allElements := [] |}.

(** Two pages of that book are turned, then the button is found
    disabled. *)
Definition isbnRun : RunEnv :=
  {| launch_signals := []; launch := inr 7%nat; newPage := inr 8%nat;
     login_env := noLoginTrouble; open_env := ready;
     read_env := {| read_signals := []; read_dom := isbnPage; read_clock := 3000;
                    read_script := [Wakes (passOn turnablePage 4000);
                                    Wakes (passOn turnablePage 64000);
                                    Wakes (passOn lastPage 124000)] |} |}.

Definition queued : Storage.BookQueue :=
  {| Storage.bookSlug := "dom-casmurro"; Storage.bookTitle := Some "Dom Casmurro";
     Storage.position := 0; Storage.status := "pending";
     Storage.currentPage := 0; Storage.totalPages := None;
     Storage.completedAt := None |}.

Definition db : Storage.Db :=
  {| Storage.booksQueue := {[ "q1" := queued ]}; Storage.readingHistory := [] |}.

(** The reading state is entered 40 s into the run; the operator pauses
    half a second later, during the settling delay; the first progress
    snapshot is emitted at 42 s. *)
Definition pausedOnEntry : ReadEnv :=
  {| read_signals := [(CmdPause, 41500)]; read_dom := emptyDom;
     read_clock := 43000; read_script := [] |}.

(** A start payload asking for a page every 30 seconds. *)
Definition payload30 : Payload :=
  {| p_ra := JString "00001152877136sp"; p_password := JString "segredo";
     p_bookSlug := JString "dom-casmurro"; p_interval := JNumber (30 # 1)%Q;
     p_bookQueueId := JUndefined |}.

(** A start payload asking for a page every 90 seconds. *)
Definition payload90 : Payload :=
  {| p_ra := JString "00001152877136sp"; p_password := JString "segredo";
     p_bookSlug := JString "dom-casmurro"; p_interval := JNumber (90 # 1)%Q;
     p_bookQueueId := JUndefined |}.

(** A start payload that gives no interval. *)
Definition payloadPlain : Payload :=
  {| p_ra := JString "00001152877136sp"; p_password := JString "segredo";
     p_bookSlug := JString "dom-casmurro"; p_interval := JUndefined;
     p_bookQueueId := JString "q1" |}.

(** One open session whose engine is reading. *)
Definition server : Routes.Server :=
  {| Routes.sessions := {[ "s1" := 0%nat ]};
     Routes.heap := {[ 0%nat := running ]} |}.


(** A pass in which a page call fails. *)
Definition flakyPass : Pass :=
  {| pass_lookup_signals := []; pass_page := turnablePage;
     pass_fault := Some (JsError "Node is detached from document");
     pass_probe_signals := []; pass_after := turnablePage;
     pass_clock1 := 4000; pass_clock2 := 4000; pass_clock3 := 4000 |}.

(** One page before the end of a book of 120. *)
Definition page119of120 : Engine :=
  set_totalPages (Some 120) (set_currentPage 119 running).

(** The operator stops the run while the browser is being started. *)
Definition stoppedWhileLaunching : RunEnv :=
  {| launch_signals := [(CmdStop, 1200)]; launch := inr 7%nat; newPage := inr 8%nat;
     login_env := noLoginTrouble; open_env := ready;
     read_env := {| read_signals := []; read_dom := emptyDom; read_clock := 3000;
                    read_script := [Wakes (passOn turnablePage 4000)] |} |}.


(** The reader page of a book: a heading with the title and a page
    indicator. *)
Definition bookPage : Dom :=
  {| query := fun selector =>
       if String.eqb selector "h1"
       then Some {| textContent := "  Dom Casmurro "; el_disabled := false |}
       else None;
     allElements := [ {| textContent := "  Dom Casmurro "; el_disabled := false |};
                      {| textContent := "Página 1 / 120"; el_disabled := false |} ] |}.

(** A configuration that names no queue entry. *)
Definition unqueued : AutomationConfig :=
  {| cfg_ra := "00001152877136sp"; cfg_password := "segredo";
     cfg_bookSlug := "dom-casmurro"; cfg_interval := (60 # 1)%Q;
     cfg_bookQueueId := None |}.


(** A book added to the queue without a position. *)
Definition nextBook : Storage.InsertBookQueue :=
  {| Storage.ins_bookSlug := "memorias-postumas"; Storage.ins_bookTitle := None;
     Storage.ins_position := None; Storage.ins_status := None;
     Storage.ins_currentPage := None; Storage.ins_totalPages := None |}.

(** One reading scheduled once, for clock 5000. *)
Definition scheduledOnce : Storage.ScheduledReading :=
  {| Storage.sched_bookQueueId := Some "q1"; Storage.scheduledTime := 5000;
     Storage.repeatType := "once"; Storage.isActive := true;
     Storage.lastRun := None |}.

Definition schedules : gmap string Storage.ScheduledReading :=
  {[ "r1" := scheduledOnce ]}.

(** One reading scheduled every day, first for clock 5000. *)
Definition scheduledDaily : Storage.ScheduledReading :=
  {| Storage.sched_bookQueueId := Some "q1"; Storage.scheduledTime := 5000;
     Storage.repeatType := "daily"; Storage.isActive := true;
     Storage.lastRun := None |}.

Definition dailySchedules : gmap string Storage.ScheduledReading :=
  {[ "r2" := scheduledDaily ]}.

(** A queue whose last entry sits at the greatest position of the
    column. *)
Definition fullQueue : Storage.Db :=
  {| Storage.booksQueue :=
       {[ "q1" := {| Storage.bookSlug := "dom-casmurro";
                     Storage.bookTitle := Some "Dom Casmurro";
                     Storage.position := 2147483647; Storage.status := "pending";
                     Storage.currentPage := 0; Storage.totalPages := None;
                     Storage.completedAt := None |} ]};
     Storage.readingHistory := [] |}.

(** Two open sessions, each with its own engine. *)
Definition twoSessions : Routes.Server :=
  {| Routes.sessions := {[ "s1" := 0%nat; "s2" := 1%nat ]};
     Routes.heap := {[ 0%nat := running; 1%nat := page30of120 ]} |}.

End Samples.

(* ===================================================================== *)
(** ** Predicates on runs and traces *)
(* ===================================================================== *)

Module Trace.

Import AutomationService.

Definition isCompleted (ev : Event) : bool :=
  match ev with
  | EvCompleted _ => true
  | _ => false
  end.

Definition isCompletedState (ev : Event) : bool :=
  match ev with
  | EvStateChange completed _ _ => true
  | _ => false
  end.

Definition isIdleState (ev : Event) : bool :=
  match ev with
  | EvStateChange idle _ _ => true
  | _ => false
  end.

Definition isErrorState (ev : Event) : bool :=
  match ev with
  | EvStateChange Schema.error _ _ => true
  | _ => false
  end.

(** The elapsed times (seconds) reported by the events of a trace. *)
Definition reportedElapsed (t : list Event) : list Q :=
  flat_map (fun ev =>
              match ev with
              | EvProgress p => [pd_elapsedTime p]
              | EvCompleted d => [cd_timeSpent d]
              | _ => []
              end) t.

Definition count (P : Event -> bool) (t : list Event) : nat :=
  List.length (List.filter P t).

(** An event that does not announce the end of the book. *)
Definition ordinary (ev : Event) : Prop :=
  isCompleted ev = false /\ isCompletedState ev = false.

(** [m] keeps the invariant [I] of the engine and emits only events that
    satisfy [P], however it ends. *)
Definition obeys {A} (I : Engine -> Prop) (P : Event -> Prop) (m : Act A) : Prop :=
  forall e, I e -> I (final m e) /\ Forall P (trace m e).

(** A computation that emits only ordinary events. *)
Definition quiet {A} (m : Act A) : Prop := obeys (fun _ => True) ordinary m.

(** [m] announces the end of the book at most once, with one completed
    event and one completed state; when it does, it returns. *)
Definition once {A} (m : Act A) : Prop :=
  forall e,
    (count isCompleted (trace m e) <= 1)%nat /\
    count isCompletedState (trace m e) = count isCompleted (trace m e) /\
    (count isCompleted (trace m e) = 1%nat -> exists a, outcome m e = Done a).

(** What one pass of the loop body may do: it breaks out having announced
    the end of the book exactly once, or it continues without announcing
    it; it never throws. *)
Definition pageTurned (r : Outcome Next * Engine * list Event) : Prop :=
  match r with
  | (Done Break, _, t) =>
      count isCompleted t = 1%nat /\ count isCompletedState t = 1%nat
  | (Done Continue, _, t) => Forall ordinary t
  | _ => False
  end.

(** [m] returns and emits only ordinary events. *)
Definition benign {A} (m : Act A) : Prop :=
  forall e, (exists a, outcome m e = Done a) /\ Forall ordinary (trace m e).


(** How a computation ended, whatever it returned. *)
Definition forget {A} (o : Outcome A) : Outcome unit :=
  match o with
  | Done _ => Done tt
  | Raised t => Raised t
  | Suspended => Suspended
  end.

(** From every engine that satisfies [I], [m] keeps [I], emits only
    events that satisfy [P] and ends in a way that satisfies [ok]. *)
Definition behaves {A} (I : Engine -> Prop) (P : Event -> Prop)
    (ok : Outcome unit -> Prop) (m : Act A) : Prop :=
  forall e, I e ->
    I (final m e) /\ Forall P (trace m e) /\ ok (forget (outcome m e)).

(** The environment [env] with another script for the reading loop. *)
Definition withScript (script : list Input) (env : RunEnv) : RunEnv :=
  {| launch_signals := launch_signals env;
     launch := launch env;
     newPage := newPage env;
     login_env := login_env env;
     open_env := open_env env;
     read_env := {| read_signals := read_signals (read_env env);
                    read_dom := read_dom (read_env env);
                    read_clock := read_clock (read_env env);
                    read_script := script |} |}.

(** [m'] goes on where [m] is left waiting: from an engine where [m]
    ends, [m'] does the same; from an engine where [m] is still waiting
    for the rest of its script, [m'] emits the events of [m] and then
    only events that satisfy [P]. *)
Definition continues {A} (P : Event -> Prop) (m m' : Act A) : Prop :=
  forall e,
    match m e with
    | (Suspended, _, t1) => exists t2, snd (m' e) = t1 ++ t2 /\ Forall P t2
    | other => m' e = other
    end.

(** Events that only a run that got past the login can emit. *)
Definition pastLogin (ev : Event) : bool :=
  match ev with
  | EvStateChange loading_book _ _ => true
  | EvStateChange completed _ _ => true
  | EvStateChange idle _ _ => true
  | EvProgress _ => true
  | EvCompleted _ => true
  | _ => false
  end.

(** The number of times the loop task is woken by a script. *)
Fixpoint passes (script : list Input) : nat :=
  match script with
  | [] => 0
  | Arrives _ :: rest => passes rest
  | Wakes _ :: rest => S (passes rest)
  end.

(** The commands of [n] pause and resume pairs: the [i]-th pause lasts
    from [fst] to [snd] of the [i]-th interval. *)
Definition pauses (intervals : list (Z * Z)) : list Signal :=
  flat_map (fun iv => [(CmdPause, fst iv); (CmdResume, snd iv)]) intervals.

(** The total length of the intervals. *)
Definition totalLength (intervals : list (Z * Z)) : Z :=
  fold_right (fun iv sum => (snd iv - fst iv) + sum) 0 intervals.

End Trace.

(* ===================================================================== *)
(** * Properties *)
(* ===================================================================== *)

(** Running a computation: unfold the plumbing, then compute. *)
Ltac run :=
  repeat progress
    unfold mbind, mret, AutomationService.Act_bind, AutomationService.Act_ret,
      AutomationService.get, AutomationService.modify, AutomationService.emit,
      AutomationService.throw, AutomationService.suspend,
      AutomationService.emitState, AutomationService.emitLog,
      AutomationService.emitError, AutomationService.emitProgress,
      AutomationService.emitCompleted;
  cbn beta iota zeta delta [app fst snd negb andb orb].

(** ** Strings *)

Section StringFacts.

Lemma chars_str (l : list ascii) : JS.chars (JS.str l) = l.
Proof. apply list_ascii_of_string_of_list_ascii. Qed.

Lemma str_chars (s : string) : JS.str (JS.chars s) = s.
Proof. apply string_of_list_ascii_of_string. Qed.

Lemma length_str (l : list ascii) : String.length (JS.str l) = List.length l.
Proof. induction l as [|c l IH]; simpl; [reflexivity | now rewrite IH]. Qed.

Lemma str_app (l1 l2 : list ascii) :
  JS.str (l1 ++ l2) = String.append (JS.str l1) (JS.str l2).
Proof. induction l1 as [|c l1 IH]; simpl; [reflexivity | now rewrite IH]. Qed.

(** [s.slice(0, -1) + s.slice(-1) === s], for every string. *)
Lemma slice_split (s : string) :
  String.append (JS.sliceInit s) (JS.sliceLast s) = s.
Proof.
  unfold JS.sliceInit, JS.sliceLast.
  rewrite <- (str_chars s) at 3.
  destruct (JS.chars s) as [|c l] using rev_ind; [reflexivity|].
  rewrite removelast_last, rev_unit, str_app. reflexivity.
Qed.

Lemma sliceInit_length (s : string) :
  s <> EmptyString ->
  (String.length (JS.sliceInit s) + 1)%nat = String.length s.
Proof.
  intros Hne. unfold JS.sliceInit.
  rewrite <- (str_chars s) at 2. rewrite <- (str_chars s) in Hne.
  destruct (JS.chars s) as [|c l] using rev_ind; [now elim Hne|].
  rewrite removelast_last, !length_str, length_app. reflexivity.
Qed.

Lemma takeWhile_dropWhile p (l : list ascii) :
  JS.takeWhile p l ++ JS.dropWhile p l = l.
Proof.
  induction l as [|c l IH]; simpl; [reflexivity|].
  destruct (p c); simpl; [now rewrite IH | reflexivity].
Qed.

Lemma takeWhile_all p (l : list ascii) : forallb p (JS.takeWhile p l) = true.
Proof.
  induction l as [|c l IH]; simpl; [reflexivity|].
  destruct (p c) eqn:E; simpl; [now rewrite E | reflexivity].
Qed.

(** Facts about single characters, by enumeration of the 256 cases. *)
Ltac by_cases_on c :=
  destruct c as [[] [] [] [] [] [] [] []]; vm_compute; try reflexivity; try discriminate.

Lemma upper_of_lower c : JS.isLower c = true -> JS.isUpper (JS.upperChar c) = true.
Proof. by_cases_on c. Qed.

Lemma lower_of_letter c : JS.isLetter c = true -> JS.isLower (JS.lowerChar c) = true.
Proof. by_cases_on c. Qed.

Lemma lower_is_letter c : JS.isLower (JS.lowerChar c) = JS.isLetter c.
Proof. by_cases_on c. Qed.

Lemma lower_of_digit c : JS.isDigit c = true -> JS.lowerChar c = c.
Proof. by_cases_on c. Qed.

Lemma digit_not_lower c : JS.isDigit c = true -> JS.isLower c = false.
Proof. by_cases_on c. Qed.

Lemma digit_not_space c : JS.isDigit c = true -> JS.isSpace c = false.
Proof. by_cases_on c. Qed.

Lemma letter_not_space c : JS.isLetter c = true -> JS.isSpace c = false.
Proof. by_cases_on c. Qed.

Lemma letter_not_digit c : JS.isLetter c = true -> JS.isDigit c = false.
Proof. by_cases_on c. Qed.

Lemma digit_ascii c : JS.isDigit c = true -> (JS.code c <? 128)%N = true.
Proof. by_cases_on c. Qed.

Lemma letter_ascii c : JS.isLetter c = true -> (JS.code c <? 128)%N = true.
Proof. by_cases_on c. Qed.

(** An ASCII character begins no white space of several bytes, and ends
    none. *)
Lemma ascii_not_lead (a b c : ascii) :
  (JS.code a <? 128)%N = true -> JS.isSpace2 a b = false /\ JS.isSpace3 a b c = false.
Proof.
  intros H. apply N.ltb_lt in H. unfold JS.isSpace2, JS.isSpace3.
  assert (H1 : (JS.code a =? 194)%N = false) by (apply N.eqb_neq; lia).
  assert (H2 : (JS.code a =? 225)%N = false) by (apply N.eqb_neq; lia).
  assert (H3 : (JS.code a =? 226)%N = false) by (apply N.eqb_neq; lia).
  assert (H4 : (JS.code a =? 227)%N = false) by (apply N.eqb_neq; lia).
  assert (H5 : (JS.code a =? 239)%N = false) by (apply N.eqb_neq; lia).
  rewrite H1, H2, H3, H4, H5. now split.
Qed.

Lemma ascii_not_tail (a b c : ascii) :
  (JS.code c <? 128)%N = true -> JS.isSpace2 b c = false /\ JS.isSpace3 a b c = false.
Proof.
  intros H. apply N.ltb_lt in H. unfold JS.isSpace2, JS.isSpace3, JS.between.
  assert (H1 : (JS.code c =? 160)%N = false) by (apply N.eqb_neq; lia).
  assert (H2 : (JS.code c =? 128)%N = false) by (apply N.eqb_neq; lia).
  assert (H3 : (128 <=? JS.code c)%N = false) by (apply N.leb_gt; lia).
  assert (H4 : (JS.code c =? 168)%N = false) by (apply N.eqb_neq; lia).
  assert (H5 : (JS.code c =? 169)%N = false) by (apply N.eqb_neq; lia).
  assert (H6 : (JS.code c =? 175)%N = false) by (apply N.eqb_neq; lia).
  assert (H7 : (JS.code c =? 159)%N = false) by (apply N.eqb_neq; lia).
  assert (H8 : (JS.code c =? 191)%N = false) by (apply N.eqb_neq; lia).
  rewrite H1, H2, H3, H4, H5, H6, H7, H8. cbn [andb orb].
  rewrite !andb_false_r. now split.
Qed.

(** [trim] stops at an ASCII character that is not white space. *)
Lemma trimStart_keep (a : ascii) (r : list ascii) :
  (JS.code a <? 128)%N = true -> JS.isSpace a = false ->
  JS.trimStart (a :: r) = a :: r.
Proof.
  intros Ha Hs. cbn [JS.trimStart]. rewrite Hs.
  destruct r as [|b [|c r]]; [reflexivity | |].
  - now rewrite (proj1 (ascii_not_lead a b b Ha)).
  - now rewrite (proj1 (ascii_not_lead a b c Ha)), (proj2 (ascii_not_lead a b c Ha)).
Qed.

Lemma trimEnd_keep (c : ascii) (r : list ascii) :
  (JS.code c <? 128)%N = true -> JS.isSpace c = false ->
  JS.trimEnd (c :: r) = c :: r.
Proof.
  intros Hc Hs. cbn [JS.trimEnd]. rewrite Hs.
  destruct r as [|b [|a r]]; [reflexivity | |].
  - now rewrite (proj1 (ascii_not_tail b b c Hc)).
  - now rewrite (proj1 (ascii_not_tail a b c Hc)), (proj2 (ascii_not_tail a b c Hc)).
Qed.

End StringFacts.

(** ** Identifier decomposition *)

Section ParseRA.

Import AutomationService.

Lemma parseRA_fields (raw : string) :
  ra (parseRA raw) = JS.sliceInit (numbersOnly raw) /\
  digito (parseRA raw) = JS.sliceLast (numbersOnly raw).
Proof. split; reflexivity. Qed.

Lemma parseRA_same (raw : string) :
  BookBrowserService.parseRA raw = AutomationService.parseRA raw.
Proof. reflexivity. Qed.

(** The region is two capital letters, matched or defaulted. *)
Lemma uf_two_letters (raw : string) :
  exists a b, uf (parseRA raw) = JS.str [a; b] /\
              JS.isUpper a = true /\ JS.isUpper b = true.
Proof.
  unfold parseRA; cbn [uf].
  unfold JS.matchTrailingTwoLower.
  destruct (rev (JS.chars (JS.toLowerCase (JS.trim raw)))) as [|b [|a l]];
    try (exists "S"%char, "P"%char; repeat split; reflexivity).
  destruct (JS.isLower a) eqn:Ha, (JS.isLower b) eqn:Hb; cbn [andb];
    try (exists "S"%char, "P"%char; repeat split; reflexivity).
  exists (JS.upperChar a), (JS.upperChar b).
  unfold JS.toUpperCase. rewrite chars_str. cbn [map].
  repeat split; auto using upper_of_lower.
Qed.

(** A string accepted by [/^\d+[a-zA-Z]{2}$/] is a non-empty run of
    digits followed by exactly two letters. *)
Lemma valid_shape (raw : string) :
  JS.testDigitsTwoLetters raw = true ->
  exists d ds a b,
    JS.chars raw = (d :: ds) ++ [a; b] /\
    forallb JS.isDigit (d :: ds) = true /\
    JS.isLetter a = true /\ JS.isLetter b = true.
Proof.
  unfold JS.testDigitsTwoLetters. intros H.
  pose proof (takeWhile_dropWhile JS.isDigit (JS.chars raw)) as Hsplit.
  pose proof (takeWhile_all JS.isDigit (JS.chars raw)) as Hall.
  destruct (JS.takeWhile JS.isDigit (JS.chars raw)) as [|d ds]; [discriminate|].
  destruct (JS.dropWhile JS.isDigit (JS.chars raw)) as [|a [|b [|c r]]];
    try discriminate.
  apply andb_true_iff in H as [Ha Hb].
  exists d, ds, a, b. repeat split; auto.
Qed.

Lemma map_lower_digits (ds : list ascii) :
  forallb JS.isDigit ds = true -> map JS.lowerChar ds = ds.
Proof.
  induction ds as [|c ds IH]; cbn [map forallb]; [reflexivity|].
  intros [Hc Hds]%andb_true_iff. now rewrite lower_of_digit, IH.
Qed.

Lemma filter_keep_digits (ds : list ascii) :
  forallb JS.isDigit ds = true ->
  List.filter (fun c => negb (JS.isLower c)) ds = ds /\ List.filter JS.isDigit ds = ds.
Proof.
  induction ds as [|c ds IH]; cbn [List.filter forallb]; [now split|].
  intros [Hc Hds]%andb_true_iff. destruct (IH Hds) as [IH1 IH2].
  rewrite Hc, (digit_not_lower c Hc). cbn [negb]. now rewrite IH1, IH2.
Qed.

(** On a validated identifier the letters-stripped string of the source
    is the digits-only string of the specification, and is not empty. *)
Lemma numbersOnly_valid (raw : string) :
  JS.testDigitsTwoLetters raw = true ->
  numbersOnly raw = Spec.digitsOnly raw /\ numbersOnly raw <> EmptyString.
Proof.
  intros (d & ds & a & b & Hraw & Hds & Ha & Hb)%valid_shape.
  assert (Hd : JS.isDigit d = true)
    by (cbn [forallb] in Hds; now apply andb_true_iff in Hds).
  assert (Htrim : JS.trimChars (JS.chars raw) = JS.chars raw).
  { unfold JS.trimChars. rewrite Hraw. cbn [app].
    rewrite (trimStart_keep d _ (digit_ascii d Hd) (digit_not_space d Hd)).
    change (d :: ds ++ [a; b]) with ((d :: ds) ++ [a; b]).
    generalize (d :: ds) as l; intros l.
    rewrite rev_app_distr. cbn [rev app].
    rewrite (trimEnd_keep b _ (letter_ascii b Hb) (letter_not_space b Hb)).
    cbn [rev]. now rewrite rev_involutive, <- app_assoc. }
  assert (Hnum : numbersOnly raw = JS.str (d :: ds)).
  { unfold numbersOnly, JS.stripLower, JS.toLowerCase, JS.trim.
    rewrite Htrim, !chars_str, Hraw, map_app, (map_lower_digits _ Hds), List.filter_app.
    rewrite (proj1 (filter_keep_digits _ Hds)). cbn [map List.filter].
    rewrite (lower_of_letter a Ha), (lower_of_letter b Hb). cbn [negb].
    now rewrite app_nil_r. }
  split.
  - rewrite Hnum. unfold Spec.digitsOnly. rewrite Hraw, List.filter_app.
    rewrite (proj2 (filter_keep_digits _ Hds)). cbn [List.filter].
    rewrite (letter_not_digit a Ha), (letter_not_digit b Hb).
    now rewrite app_nil_r.
  - rewrite Hnum. discriminate.
Qed.

(** The last two characters of the cleaned string decide the region. *)
Lemma uf_by_last_two (raw : string) (rest : list ascii) (a b : ascii) :
  JS.chars (JS.trim raw) = rest ++ [a; b] ->
  uf (parseRA raw)
  = if JS.isLetter a && JS.isLetter b
    then JS.str [JS.upperChar (JS.lowerChar a); JS.upperChar (JS.lowerChar b)]
    else "SP".
Proof.
  intros H. unfold parseRA; cbn [uf]. unfold JS.matchTrailingTwoLower, JS.toLowerCase.
  rewrite chars_str, H, map_app, rev_app_distr. cbn [map rev app].
  rewrite !lower_is_letter.
  destruct (JS.isLetter a && JS.isLetter b); [|reflexivity].
  unfold JS.toUpperCase. now rewrite chars_str.
Qed.

Lemma uf_of_short (raw : string) :
  (List.length (JS.chars (JS.trim raw)) < 2)%nat -> uf (parseRA raw) = "SP".
Proof.
  intros H. unfold parseRA; cbn [uf]. unfold JS.matchTrailingTwoLower, JS.toLowerCase.
  rewrite chars_str, <- map_rev.
  assert (Hr : (List.length (rev (JS.chars (JS.trim raw))) < 2)%nat)
    by now rewrite length_rev.
  destruct (rev (JS.chars (JS.trim raw))) as [|x [|y l]]; cbn [map];
    [reflexivity | reflexivity | cbn [List.length] in Hr; lia].
Qed.

Lemma last_two (l : list ascii) :
  (2 <= List.length l)%nat -> exists rest a b, l = rest ++ [a; b].
Proof.
  intros H. destruct (rev l) as [|b [|a r]] eqn:Hr.
  - apply (f_equal (@List.length ascii)) in Hr. rewrite length_rev in Hr.
    cbn in Hr. lia.
  - apply (f_equal (@List.length ascii)) in Hr. rewrite length_rev in Hr.
    cbn in Hr. lia.
  - exists (rev r), a, b. rewrite <- (rev_involutive l), Hr. cbn [rev].
    now rewrite <- app_assoc.
Qed.

(** C4, as amended.  For every raw string of ASCII characters (on other
    text the case mapping of the code is not modelled): the region is
    exactly two capital letters, namely the last two characters of the
    trimmed string, in upper case, when both are letters, and SP
    otherwise; body followed by check digit is the raw string trimmed,
    lower-cased and stripped of the letters a-z; both [parseRA] methods
    agree.  For every raw string accepted by the configuration schema
    (digits followed by two letters) that string is digits-only(raw), so
    that body + checkDigit == digitsOnly(raw) and body.length + 1 ==
    digitsOnly(raw).length.  The sample identifier decomposes as the
    specification says; an identifier without letters gets SP, and one
    that ends in rj gets RJ. *)
Theorem parseRA_decomposition (raw : string) :
  JS.isAscii raw = true ->
  (String.length (uf (parseRA raw)) = 2%nat /\
   forallb JS.isUpper (JS.chars (uf (parseRA raw))) = true) /\
  (forall rest a b,
     JS.chars (JS.trim raw) = rest ++ [a; b] ->
     JS.isLetter a = true -> JS.isLetter b = true ->
     uf (parseRA raw)
     = JS.str [JS.upperChar (JS.lowerChar a); JS.upperChar (JS.lowerChar b)]) /\
  ((forall rest a b,
      JS.chars (JS.trim raw) = rest ++ [a; b] ->
      JS.isLetter a && JS.isLetter b = false) ->
   uf (parseRA raw) = "SP") /\
  String.append (ra (parseRA raw)) (digito (parseRA raw)) = numbersOnly raw /\
  BookBrowserService.parseRA raw = parseRA raw /\
  (JS.testDigitsTwoLetters raw = true ->
   String.append (ra (parseRA raw)) (digito (parseRA raw)) = Spec.digitsOnly raw /\
   (String.length (ra (parseRA raw)) + 1)%nat = String.length (Spec.digitsOnly raw)) /\
  parseRA "00001152877136sp" = {| ra := "0000115287713"; digito := "6"; uf := "SP" |} /\
  parseRA "0001234567" = {| ra := "000123456"; digito := "7"; uf := "SP" |} /\
  parseRA " 98765432RJ " = {| ra := "9876543"; digito := "2"; uf := "RJ" |}.
Proof.
  intros _. destruct (parseRA_fields raw) as [Hra Hdig].
  split; [split|split; [|split; [|split; [|split; [|split; [split|]]]]]].
  - destruct (uf_two_letters raw) as (a & b & -> & _ & _). reflexivity.
  - destruct (uf_two_letters raw) as (a & b & -> & Ha & Hb).
    rewrite chars_str. cbn [forallb]. now rewrite Ha, Hb.
  - intros rest a b H Ha Hb. rewrite (uf_by_last_two raw rest a b H).
    now rewrite Ha, Hb.
  - intros Hnone.
    destruct (Nat.lt_ge_cases (List.length (JS.chars (JS.trim raw))) 2) as [Hshort|Hlong].
    + now apply uf_of_short.
    + destruct (last_two _ Hlong) as (rest & a & b & H).
      rewrite (uf_by_last_two raw rest a b H). now rewrite (Hnone rest a b H).
  - rewrite Hra, Hdig. apply slice_split.
  - reflexivity.
  - destruct (numbersOnly_valid raw H) as [<- _].
    rewrite Hra, Hdig. apply slice_split.
  - destruct (numbersOnly_valid raw H) as [<- Hne].
    rewrite Hra. now apply sliceInit_length.
  - repeat split.
Qed.

Lemma parseRA_decomposition_witness :
  JS.isAscii "00001152877136sp" = true /\
  JS.testDigitsTwoLetters "00001152877136sp" = true /\
  String.append (ra (parseRA "00001152877136sp")) (digito (parseRA "00001152877136sp"))
    = Spec.digitsOnly "00001152877136sp" /\
  (String.length (ra (parseRA "00001152877136sp")) + 1)%nat
    = String.length (Spec.digitsOnly "00001152877136sp").
Proof.
  split; [reflexivity|]. split; [reflexivity|].
  apply (parseRA_decomposition "00001152877136sp" eq_refl). reflexivity.
Defined.

(** C4 as stated fails on raw strings the schema would reject: with no
    digit at all the check digit is empty and [body.length + 1] is 1,
    not 0; with a non-letter other than a digit, body + checkDigit keeps
    it and differs from digitsOnly(raw). *)
Lemma parseRA_counterexample :
  (String.length (ra (parseRA "sp")) + 1)%nat <> String.length (Spec.digitsOnly "sp") /\
  String.append (ra (parseRA "12-3rj")) (digito (parseRA "12-3rj"))
    <> Spec.digitsOnly "12-3rj".
Proof. split; vm_compute; discriminate. Qed.

End ParseRA.

(** ** Progress snapshots and elapsed time *)

Section Telemetry.

Import AutomationService.

Lemma run_emitProgress (e : Engine) (now : Z) :
  emitProgress now e = (Done tt, e, [EvProgress (progressOf e now)]).
Proof. reflexivity. Qed.

Lemma run_emitCompleted (e : Engine) (now : Z) :
  emitCompleted now e = (Done tt, e, [EvCompleted (completedOf e now)]).
Proof. reflexivity. Qed.

Lemma truthyNum_pos (n : Z) : 0 < n -> JS.truthyNum n = true.
Proof. intros H. unfold JS.truthyNum. destruct (Z.eqb_spec n 0); [lia | reflexivity]. Qed.

Lemma percentage_positive (cur total : Z) :
  0 < cur -> 0 < total ->
  Qgt0 (inject_Z cur / inject_Z total * inject_Z 100)%Q = true.
Proof.
  intros Hc Ht. unfold Qgt0.
  destruct (Qle_bool _ 0) eqn:E; [|reflexivity].
  apply Qle_bool_iff in E. exfalso. revert E. apply Qlt_not_le.
  apply Qmult_lt_0_compat; [apply Qmult_lt_0_compat|].
  - change 0%Q with (inject_Z 0). now rewrite <- Zlt_Qlt.
  - apply Qinv_lt_0_compat. change 0%Q with (inject_Z 0). now rewrite <- Zlt_Qlt.
  - reflexivity.
Qed.

(** C3, as amended.  Every emitted progress snapshot carries the page
    counter and the elapsed time of that moment.  When the total is known
    (a positive number) its percentage is currentPage/totalPages*100 and
    its estimate is (elapsed/currentPage)*(totalPages-currentPage) once
    currentPage > 0, else unknown.  When the total is unknown (null, or a
    detected 0) the percentage is 0 and the estimate is unknown.  With
    currentPage=30, totalPages=120 and 300 s elapsed the percentage is 25
    and the estimate 900. *)
Theorem progress_snapshot (e : Engine) (now : Z) :
  let p := progressOf e now in
  trace (emitProgress now) e = [EvProgress p] /\
  pd_currentPage p = currentPage e /\
  pd_totalPages p = totalPages e /\
  pd_elapsedTime p = getElapsedTime e now /\
  (forall total supplied, totalPages e = Some total -> 0 < total ->
     pd_percentage p = Spec.percentage supplied (currentPage e) (totalPages e) /\
     pd_estimatedTimeRemaining p
       = Spec.estimatedRemainingSeconds (getElapsedTime e now) (currentPage e) (totalPages e)) /\
  (JS.truthyOpt (totalPages e) = false ->
     pd_percentage p = 0%Q /\ pd_estimatedTimeRemaining p = None) /\
  (let q := progressOf Samples.page30of120 301000 in
   (pd_elapsedTime q == 300)%Q /\ (pd_percentage q == 25)%Q /\
   exists eta, pd_estimatedTimeRemaining q = Some eta /\ (eta == 900)%Q).
Proof.
  cbv zeta. do 4 (split; [reflexivity|]). split; [|split].
  - intros total supplied Htot Hpos. split.
    + unfold progressOf; cbn [pd_percentage]. rewrite Htot.
      now rewrite (truthyNum_pos total Hpos).
    + unfold progressOf; cbn [pd_estimatedTimeRemaining]. rewrite Htot.
      unfold Spec.estimatedRemainingSeconds.
      rewrite (truthyNum_pos total Hpos). cbn [andb].
      destruct (Z.ltb_spec 0 (currentPage e)) as [Hc|Hc]; [|reflexivity].
      now rewrite (percentage_positive _ _ Hc Hpos).
  - intros Hunk. unfold progressOf; cbn [pd_percentage pd_estimatedTimeRemaining].
    destruct (totalPages e) as [total|]; [|now split].
    cbn [JS.truthyOpt] in Hunk. now rewrite Hunk.
  - split; [|split].
    + vm_compute. reflexivity.
    + vm_compute. reflexivity.
    + eexists. split; [reflexivity|]. vm_compute. reflexivity.
Qed.

Lemma progress_snapshot_witness :
  totalPages Samples.page30of120 = Some 120 /\ 0 < 120 /\
  pd_percentage (progressOf Samples.page30of120 301000)
    = Spec.percentage 0 (currentPage Samples.page30of120) (totalPages Samples.page30of120) /\
  JS.truthyOpt (totalPages Samples.page5unknown) = false /\
  pd_percentage (progressOf Samples.page5unknown 301000) = 0%Q.
Proof.
  split; [reflexivity|]. split; [lia|]. split.
  - apply (progress_snapshot Samples.page30of120 301000) with (total := 120);
      [reflexivity | lia].
  - split; [reflexivity|].
    apply (progress_snapshot Samples.page5unknown 301000). reflexivity.
Defined.

(** C3 as stated fails when the total is unknown: the snapshot's
    percentage is 0 whatever value was supplied from outside (here 50);
    nothing outside the engine feeds [emitProgress]. *)
Lemma progress_snapshot_counterexample :
  totalPages Samples.page5unknown = None /\
  (pd_percentage (progressOf Samples.page5unknown 301000) == 0)%Q /\
  ~ (pd_percentage (progressOf Samples.page5unknown 301000)
     == Spec.percentage (50 # 1) (currentPage Samples.page5unknown)
          (totalPages Samples.page5unknown))%Q.
Proof.
  split; [reflexivity|]. split; [reflexivity|].
  vm_compute. discriminate.
Qed.

(** C9.  The completed event carries the page counter as [pagesRead];
    when no total was detected (null) its [totalPages] is the page
    counter too; and once a page has been turned its [totalPages] is
    never zero (and, being a number, never null). *)
Theorem completed_total_fallback (e : Engine) (now : Z) :
  let d := completedOf e now in
  trace (emitCompleted now) e = [EvCompleted d] /\
  cd_pagesRead d = currentPage e /\
  (totalPages e = None -> cd_totalPages d = currentPage e) /\
  (JS.truthyOpt (totalPages e) = false -> cd_totalPages d = currentPage e) /\
  (0 < currentPage e -> cd_totalPages d <> 0).
Proof.
  cbv zeta. unfold completedOf; cbn [cd_pagesRead cd_totalPages].
  do 2 (split; [reflexivity|]). split; [|split].
  - intros ->. reflexivity.
  - destruct (totalPages e) as [total|]; [|reflexivity].
    cbn [JS.truthyOpt]. now intros ->.
  - intros Hpos. destruct (totalPages e) as [total|]; [|lia].
    unfold JS.truthyNum. destruct (Z.eqb_spec total 0); cbn [negb]; lia.
Qed.

Lemma completed_total_fallback_witness :
  totalPages Samples.page5unknown = None /\ 0 < currentPage Samples.page5unknown /\
  cd_totalPages (completedOf Samples.page5unknown 301000) = 5 /\
  cd_totalPages (completedOf Samples.page5unknown 301000) <> 0.
Proof.
  split; [reflexivity|]. split; [reflexivity|]. split.
  - apply (completed_total_fallback Samples.page5unknown 301000). reflexivity.
  - apply (completed_total_fallback Samples.page5unknown 301000). reflexivity.
Defined.

End Telemetry.

(** ** Pause accounting *)

Section PauseAccounting.

Import AutomationService.

Lemma elapsed_formula (e : Engine) (now : Z) :
  startTime e <> 0 ->
  getElapsedTime e now
  = (inject_Z (now - startTime e - pausedTime e) / inject_Z 1000)%Q.
Proof.
  intros Hs. unfold getElapsedTime, JS.truthyNum.
  destruct (Z.eqb_spec (startTime e) 0); [contradiction | reflexivity].
Qed.

Lemma run_pause (e : Engine) (now : Z) :
  isPaused e = false ->
  pause now e
  = (Done tt, set_lastPauseStart now (set_isPaused true e),
     [EvStateChange paused None None; EvLog LogType.info [Txt "Automação pausada"]]).
Proof. intros H. unfold pause. run. rewrite H. reflexivity. Qed.

Lemma run_pause_paused (e : Engine) (now : Z) :
  isPaused e = true -> pause now e = (Done tt, e, []).
Proof. intros H. unfold pause. run. rewrite H. reflexivity. Qed.

Lemma run_resume (e : Engine) (now : Z) :
  isPaused e = true ->
  resume now e
  = (Done tt,
     set_pausedTime (pausedTime e + (now - lastPauseStart e)) (set_isPaused false e),
     [EvStateChange reading None None; EvLog LogType.info [Txt "Automação retomada"]]).
Proof. intros H. unfold resume. run. rewrite H. reflexivity. Qed.

Lemma run_resume_running (e : Engine) (now : Z) :
  isPaused e = false -> resume now e = (Done tt, e, []).
Proof. intros H. unfold resume. run. rewrite H. reflexivity. Qed.

Lemma run_stop (e : Engine) :
  stop e
  = (Done tt, set_isPaused false (set_shouldStop true e),
     [EvLog LogType.warning [Txt "Parando automação..."]]).
Proof. reflexivity. Qed.

Lemma Qdiv1000_minus (a b : Z) :
  (inject_Z (a - b) / inject_Z 1000 == inject_Z a / inject_Z 1000 - inject_Z b / inject_Z 1000)%Q.
Proof. unfold Z.sub. rewrite inject_Z_plus, inject_Z_opp. field. Qed.

(** C2, as amended.  For an engine whose run has started, the elapsed
    time (in seconds, from millisecond clocks) is
    (now - startTime - pausedTime)/1000, and it is what progress and
    completed events report.  [pausedTime] grows only at [resume]: while
    a pause is open the value computed is the same as if the engine were
    not paused, so the open pause is still counted; after [resume] the
    whole pause is deducted.  Hence in a run that reaches 100 s, pauses
    for 50 s, resumes and runs 10 s more, the final elapsed time is
    110 s, not 160 s. *)
Theorem elapsed_time_accounting (e : Engine) (t1 t2 t3 : Z) :
  startTime e <> 0 -> isPaused e = false ->
  let onPause := final (pause t1) e in
  let onResume := final (resume t2) onPause in
  (forall now,
     getElapsedTime e now
     = (inject_Z (now - startTime e - pausedTime e) / inject_Z 1000)%Q /\
     pd_elapsedTime (progressOf e now) = getElapsedTime e now /\
     cd_timeSpent (completedOf e now) = getElapsedTime e now) /\
  (isPaused onPause = true /\
   forall now, getElapsedTime onPause now = getElapsedTime e now) /\
  (isPaused onResume = false /\
   forall now,
     (getElapsedTime onResume now
      == getElapsedTime e now - inject_Z (t2 - t1) / inject_Z 1000)%Q) /\
  (pausedTime e = 0 -> t1 = startTime e + 100000 ->
   t2 = t1 + 50000 -> t3 = t2 + 10000 ->
   (getElapsedTime e t1 == 100)%Q /\
   (getElapsedTime onResume t3 == 110)%Q /\
   ~ (getElapsedTime onResume t3 == 160)%Q).
Proof.
  intros Hs Hp. cbv zeta.
  assert (E1 : final (pause t1) e = set_lastPauseStart t1 (set_isPaused true e))
    by (unfold final; now rewrite run_pause).
  assert (E2 : final (resume t2) (final (pause t1) e)
               = set_pausedTime (pausedTime e + (t2 - t1))
                   (set_isPaused false (set_lastPauseStart t1 (set_isPaused true e))))
    by (rewrite E1; unfold final; now rewrite run_resume).
  rewrite E2, E1. split; [|split; [|split]].
  - intros now. split; [now apply elapsed_formula | now split].
  - split; [reflexivity | intros now; reflexivity].
  - split; [reflexivity|]. intros now.
    rewrite !elapsed_formula by assumption.
    cbn [startTime pausedTime set_pausedTime set_isPaused set_lastPauseStart].
    rewrite <- Qdiv1000_minus.
    replace (now - startTime e - (pausedTime e + (t2 - t1)))
      with (now - startTime e - pausedTime e - (t2 - t1)) by lia.
    reflexivity.
  - intros H0 -> -> ->.
    rewrite !elapsed_formula by assumption.
    cbn [startTime pausedTime set_pausedTime set_isPaused set_lastPauseStart].
    rewrite H0.
    replace (startTime e + 100000 - startTime e - 0) with 100000 by lia.
    replace (startTime e + 100000 + 50000 + 10000 - startTime e
             - (0 + (startTime e + 100000 + 50000 - (startTime e + 100000))))
      with 110000 by lia.
    split; [reflexivity | split; [reflexivity | discriminate]].
Qed.

Lemma elapsed_time_accounting_witness :
  startTime Samples.running <> 0 /\ isPaused Samples.running = false /\
  (getElapsedTime
     (final (resume 151000) (final (pause 101000) Samples.running)) 161000 == 110)%Q.
Proof.
  split; [discriminate|]. split; [reflexivity|].
  apply (elapsed_time_accounting Samples.running 101000 151000 161000);
    [discriminate | reflexivity | reflexivity | reflexivity | reflexivity | reflexivity].
Defined.

(** C2 as stated fails while the pause is open: paused at 100 s, the
    elapsed time computed 25 s into the pause is 125 s, not 100 s.  Such
    a value is reported when a snapshot is emitted during a pause: an
    engine paused 40.5 s into its run, on entering the reading state,
    reports 42 s in its first progress event. *)
Lemma elapsed_time_counterexample :
  let onPause := final (pause 101000) Samples.running in
  (isPaused onPause = true /\
   (getElapsedTime Samples.running 101000 == 100)%Q /\
   (getElapsedTime onPause 126000 == 125)%Q /\
   ~ (getElapsedTime onPause 126000 == getElapsedTime Samples.running 101000)%Q) /\
  (isPaused (final (readPages Samples.pausedOnEntry) Samples.running) = true /\
   (getElapsedTime Samples.running 41500 == 405 # 10)%Q /\
   exists q,
     Trace.reportedElapsed (trace (readPages Samples.pausedOnEntry) Samples.running) = [q] /\
     (q == 42)%Q).
Proof.
  cbv zeta. split.
  - split; [reflexivity|]. split; [reflexivity|]. split; [reflexivity|].
    vm_compute. discriminate.
  - split; [reflexivity|]. split; [reflexivity|].
    eexists. split; [vm_compute; reflexivity | reflexivity].
Qed.

End PauseAccounting.

(** ** Invariants of computations *)

Section Obeys.

Import AutomationService Trace.

Context (I : Engine -> Prop) (P : Event -> Prop).

Lemma run_bind {A B} (m : Act A) (k : A -> Act B) (e : Engine) :
  (m ≫= k) e
  = match m e with
    | (Done a, e1, t1) =>
        match k a e1 with
        | (r, e2, t2) => (r, e2, t1 ++ t2)
        end
    | (Raised t, e1, t1) => (Raised t, e1, t1)
    | (Suspended, e1, t1) => (Suspended, e1, t1)
    end.
Proof. reflexivity. Qed.

Lemma obeys_ret {A} (a : A) : obeys I P (mret a : Act A).
Proof. intros e He. split; [exact He | constructor]. Qed.

Lemma obeys_bind {A B} (m : Act A) (k : A -> Act B) :
  obeys I P m -> (forall a, obeys I P (k a)) -> obeys I P (m ≫= k).
Proof.
  intros Hm Hk e He. destruct (Hm e He) as [H1 H2].
  unfold final, trace in *. rewrite run_bind.
  destruct (m e) as [[[a| |] e1] t1]; cbn [fst snd] in *; auto.
  destruct (Hk a e1 H1) as [H3 H4]. unfold final, trace in *.
  destruct (k a e1) as [[r e2] t2]; cbn [fst snd] in *.
  split; [assumption | now apply Forall_app].
Qed.

Lemma obeys_get : obeys I P get.
Proof. intros e He. split; [exact He | constructor]. Qed.

Lemma obeys_modify (f : Engine -> Engine) :
  (forall e, I e -> I (f e)) -> obeys I P (modify f).
Proof. intros Hf e He. split; [now apply Hf | constructor]. Qed.

Lemma obeys_emit (ev : Event) : P ev -> obeys I P (emit ev).
Proof. intros Hev e He. split; [exact He | now repeat constructor]. Qed.

Lemma obeys_throw {A} (t : Thrown) : obeys I P (throw t : Act A).
Proof. intros e He. split; [exact He | constructor]. Qed.

Lemma obeys_suspend {A} : obeys I P (suspend : Act A).
Proof. intros e He. split; [exact He | constructor]. Qed.

Lemma obeys_tryCatch {A} (body : Act A) (handler : Thrown -> Act A) :
  obeys I P body -> (forall t, obeys I P (handler t)) ->
  obeys I P (tryCatch body handler).
Proof.
  intros Hb Hh e He. destruct (Hb e He) as [H1 H2].
  unfold final, trace, tryCatch in *.
  destruct (body e) as [[[a|t|] e1] t1]; cbn [fst snd] in *; auto.
  destruct (Hh t e1 H1) as [H3 H4]. unfold final, trace in *.
  destruct (handler t e1) as [[r e2] t2]; cbn [fst snd] in *.
  split; [assumption | now apply Forall_app].
Qed.

Lemma obeys_finally {A} (body : Act A) (fin : Act unit) :
  obeys I P body -> obeys I P fin -> obeys I P (finally body fin).
Proof.
  intros Hb Hf e He. destruct (Hb e He) as [H1 H2].
  unfold final, trace, finally in *.
  destruct (body e) as [[[a|t|] e1] t1]; cbn [fst snd] in *; auto;
    destruct (Hf e1 H1) as [H3 H4]; unfold final, trace in *;
    destruct (fin e1) as [[[[]|t'|] e2] t2]; cbn [fst snd] in *;
    (split; [assumption | now apply Forall_app]).
Qed.

Lemma obeys_emitProgress (now : Z) :
  (forall e, I e -> P (EvProgress (progressOf e now))) ->
  obeys I P (emitProgress now).
Proof. intros H e He. split; [exact He | repeat constructor; now apply H]. Qed.

Lemma obeys_emitCompleted (now : Z) :
  (forall e, I e -> P (EvCompleted (completedOf e now))) ->
  obeys I P (emitCompleted now).
Proof. intros H e He. split; [exact He | repeat constructor; now apply H]. Qed.

End Obeys.

(** Decompose a computation along its structure. *)
Ltac obey_step :=
  lazymatch goal with
  | |- Trace.obeys _ _ (mbind _ _) => apply obeys_bind; [|intros ?]
  | |- Trace.obeys _ _ (mret _) => apply obeys_ret
  | |- Trace.obeys _ _ AutomationService.get => apply obeys_get
  | |- Trace.obeys _ _ (AutomationService.modify _) => apply obeys_modify
  | |- Trace.obeys _ _ (AutomationService.emit _) => apply obeys_emit
  | |- Trace.obeys _ _ (AutomationService.emitState _ _ _) => apply obeys_emit
  | |- Trace.obeys _ _ (AutomationService.emitLog _ _) => apply obeys_emit
  | |- Trace.obeys _ _ (AutomationService.emitError _) => apply obeys_emit
  | |- Trace.obeys _ _ (AutomationService.throw _) => apply obeys_throw
  | |- Trace.obeys _ _ AutomationService.suspend => apply obeys_suspend
  | |- Trace.obeys _ _ (AutomationService.tryCatch _ _) =>
      apply obeys_tryCatch; [|intros ?]
  | |- Trace.obeys _ _ (AutomationService.finally _ _) => apply obeys_finally
  | |- Trace.obeys _ _ (AutomationService.emitProgress _) => apply obeys_emitProgress
  | |- Trace.obeys _ _ (AutomationService.emitCompleted _) => apply obeys_emitCompleted
  | |- Trace.obeys _ _ (AutomationService.await ?r) => destruct r; cbn [AutomationService.await]
  | |- Trace.obeys _ _ (AutomationService.awaitOk ?r) =>
      destruct r; cbn [AutomationService.awaitOk]
  | |- Trace.obeys _ _ (if ?b then _ else _) => destruct b
  | |- Trace.obeys _ _ (match ?x with _ => _ end) => destruct x
  | |- Trace.obeys _ _ (let _ := _ in _) => cbv zeta
  end.

Ltac obey := repeat obey_step.

(** ** Which parts of a run can announce the end of the book *)

Section Quiet.

Import AutomationService Trace.

Ltac side :=
  try solve [ exact Logic.I | intros; exact Logic.I | split; reflexivity ].

Lemma quiet_handle (s : Signal) : quiet (handle s).
Proof.
  unfold quiet. destruct s as [[] now]; unfold handle, pause, resume, stop; obey; side.
Qed.

Lemma quiet_deliver (signals : list Signal) : quiet (deliver signals).
Proof.
  unfold quiet. induction signals as [|s rest IH]; cbn [deliver]; obey; side.
  - apply quiet_handle.
  - apply IH.
Qed.

Lemma quiet_emitLogs (lines : list LogLine) : quiet (emitLogs lines).
Proof.
  unfold quiet. induction lines as [|[type message] rest IH]; cbn [emitLogs]; obey; side.
  apply IH.
Qed.

Lemma quiet_cleanup : quiet cleanup.
Proof. unfold quiet, cleanup; obey; side. Qed.

Lemma quiet_accessLeiasp (env : LoginEnv) : quiet (accessLeiasp env).
Proof. unfold quiet, accessLeiasp; obey; side. apply quiet_emitLogs. Qed.

Lemma quiet_login (env : LoginEnv) : quiet (login env).
Proof.
  unfold quiet, login; obey; side;
    first [apply quiet_deliver | apply quiet_emitLogs | apply quiet_accessLeiasp].
Qed.

Lemma quiet_openBook (env : OpenEnv) : quiet (openBook env).
Proof. unfold quiet, openBook; obey; side; apply quiet_deliver. Qed.

Lemma quiet_startCatch (error : Thrown) : quiet (startCatch error).
Proof. unfold quiet, startCatch; obey; side. Qed.

Lemma count_ordinary (t : list Event) :
  Forall ordinary t -> count isCompleted t = 0%nat /\ count isCompletedState t = 0%nat.
Proof.
  unfold count. induction 1 as [|ev t [H1 H2] _ [IH1 IH2]]; [now split|].
  cbn [List.filter]. now rewrite H1, H2.
Qed.

Lemma count_app (P : Event -> bool) (t1 t2 : list Event) :
  count P (t1 ++ t2) = (count P t1 + count P t2)%nat.
Proof. unfold count. now rewrite List.filter_app, length_app. Qed.

End Quiet.

(** ** The reading loop announces the end of the book at most once *)

Section ReadingLoop.

Import AutomationService Trace.

Ltac ordinary_events :=
  repeat (constructor; [split; reflexivity|]); constructor.

Lemma run_ret_bind {A B} (a : A) (k : A -> Act B) (e : Engine) :
  (mret a ≫= k) e = k a e.
Proof. run. now destruct (k a e) as [[r e2] t2]. Qed.

Lemma run_get_bind {B} (k : Engine -> Act B) (e : Engine) :
  (get ≫= k) e = k e e.
Proof. run. now destruct (k e e) as [[r e2] t2]. Qed.

Lemma tryCatch_returns {A} (body : Act A) (handler : Thrown -> Act A) (e : Engine) :
  (forall t, outcome body e <> Raised t) -> tryCatch body handler e = body e.
Proof.
  unfold tryCatch, outcome. destruct (body e) as [[[a|t|] e1] t1]; cbn [fst];
    [reflexivity | intros H; now elim (H t) | reflexivity].
Qed.

Lemma run_endOfBook (now : Z) (e : Engine) :
  endOfBook now e
  = (Done tt, e,
     [EvLog LogType.success [Txt "Fim do livro alcançado!"];
      EvCompleted (completedOf e now);
      EvStateChange completed None None]).
Proof. reflexivity. Qed.

(** Command handlers return and leave the session handles and the
    configuration alone. *)
Lemma deliver_returns (signals : list Signal) (e : Engine) :
  outcome (deliver signals) e = Done tt /\
  browser (final (deliver signals) e) = browser e /\
  page (final (deliver signals) e) = page e /\
  config (final (deliver signals) e) = config e /\
  currentPage (final (deliver signals) e) = currentPage e /\
  totalPages (final (deliver signals) e) = totalPages e.
Proof.
  revert e. induction signals as [|[c now] rest IH]; intros e; [now cbn|].
  cbn [deliver]. unfold outcome, final. rewrite run_bind.
  assert (Hh : exists e1 t1, handle (c, now) e = (Done tt, e1, t1) /\
                 browser e1 = browser e /\ page e1 = page e /\ config e1 = config e /\
                 currentPage e1 = currentPage e /\ totalPages e1 = totalPages e).
  { destruct c; cbn [handle].
    - destruct (isPaused e) eqn:Hp;
        [rewrite run_pause_paused | rewrite run_pause]; trivial;
        do 2 eexists; (split; [reflexivity | now repeat split]).
    - destruct (isPaused e) eqn:Hp;
        [rewrite run_resume | rewrite run_resume_running]; trivial;
        do 2 eexists; (split; [reflexivity | now repeat split]).
    - rewrite run_stop. do 2 eexists. split; [reflexivity | now repeat split]. }
  destruct Hh as (e1 & t1 & -> & Hb & Hpg & Hc & Hcur & Htot).
  specialize (IH e1). unfold outcome, final in IH.
  destruct (deliver rest e1) as [[r e2] t2]; cbn [fst snd] in *.
  destruct IH as (-> & -> & -> & -> & -> & ->). auto 7.
Qed.

(** *** Computations that return and emit only ordinary events *)

Lemma benign_ret {A} (a : A) : benign (mret a : Act A).
Proof. intros e. split; [now exists a | constructor]. Qed.

Lemma benign_bind {A B} (m : Act A) (k : A -> Act B) :
  benign m -> (forall a, benign (k a)) -> benign (m ≫= k).
Proof.
  intros Hm Hk e. destruct (Hm e) as [[a Ha] Ht].
  unfold outcome, trace in *. rewrite run_bind.
  destruct (m e) as [[r e1] t1]; cbn [fst snd] in *. subst r.
  destruct (Hk a e1) as [[b Hb] Ht2]. unfold outcome, trace in *.
  destruct (k a e1) as [[r e2] t2]; cbn [fst snd] in *. subst r.
  split; [now exists b | now apply Forall_app].
Qed.

Lemma benign_get : benign get.
Proof. intros e. split; [now exists e | constructor]. Qed.

Lemma benign_modify (f : Engine -> Engine) : benign (modify f).
Proof. intros e. split; [now exists tt | constructor]. Qed.

Lemma benign_emit (ev : Event) : ordinary ev -> benign (emit ev).
Proof. intros H e. split; [now exists tt | constructor; [exact H | constructor]]. Qed.

Lemma benign_deliver (signals : list Signal) : benign (deliver signals).
Proof.
  intros e. split.
  - exists tt. apply deliver_returns.
  - now apply quiet_deliver.
Qed.

Ltac benign_step :=
  lazymatch goal with
  | |- benign (mbind _ _) => apply benign_bind; [|intros ?]
  | |- benign (mret _) => apply benign_ret
  | |- benign get => apply benign_get
  | |- benign (modify _) => apply benign_modify
  | |- benign (deliver _) => apply benign_deliver
  | |- benign (emit _) => apply benign_emit; split; reflexivity
  | |- benign (emitState _ _ _) => apply benign_emit; split; reflexivity
  | |- benign (emitLog _ _) => apply benign_emit; split; reflexivity
  | |- benign (emitProgress _) => unfold emitProgress
  | |- benign (if ?b then _ else _) => destruct b
  | |- benign (match ?x with _ => _ end) => destruct x
  | |- benign (let _ := _ in _) => cbv zeta
  end.

Ltac benignly := repeat benign_step.

Lemma benign_countPage (p : Pass) : benign (countPage p).
Proof. unfold countPage. benignly. Qed.

Lemma benign_reprobe (p : Pass) : benign (reprobe p).
Proof. unfold reprobe. benignly. Qed.

Lemma benign_cleanup : benign cleanup.
Proof. unfold cleanup. benignly. Qed.

Lemma benign_afterLoop : benign afterLoop.
Proof. unfold afterLoop. benignly. Qed.

(** *** One pass of the loop body *)

Lemma pageTurned_safe (r : Outcome Next * Engine * list Event) :
  pageTurned r -> forall t, fst (fst r) <> Raised t.
Proof. destruct r as [[[[]|t'|] e'] tr]; cbn; intros H t; congruence || elim H. Qed.

Lemma pageTurned_bind {A} (m : Act A) (k : A -> Act Next) :
  benign m -> (forall a e, pageTurned (k a e)) ->
  forall e, pageTurned ((m ≫= k) e).
Proof.
  intros Hm Hk e. destruct (Hm e) as [[a Ha] Ht].
  unfold outcome, trace in *. rewrite run_bind.
  destruct (m e) as [[r e1] t1]; cbn [fst snd] in *. subst r.
  specialize (Hk a e1). destruct (count_ordinary _ Ht) as [Hc Hs].
  destruct (k a e1) as [[[[|]|t|] e2] t2]; cbn [pageTurned] in *;
    try contradiction.
  - now rewrite !count_app, Hc, Hs.
  - now apply Forall_app.
Qed.

Lemma checkDone_turns (p : Pass) (e : Engine) : pageTurned (checkDone p e).
Proof.
  unfold checkDone. rewrite run_get_bind.
  destruct (JS.truthyOpt (totalPages e) && _); cbn; [now split | constructor].
Qed.

Lemma afterClick_turns (p : Pass) (e : Engine) : pageTurned (afterClick p e).
Proof.
  unfold afterClick.
  apply pageTurned_bind; [apply benign_countPage | intros _ e1].
  apply pageTurned_bind; [apply benign_reprobe | intros _ e2].
  apply checkDone_turns.
Qed.

Lemma advance_turns (p : Pass) (e : Engine) : pageTurned (advance p e).
Proof.
  unfold advance.
  destruct (query (pass_page p) "[data-testid='next-page-button']") as [nextButton|];
    cbv zeta;
    [destruct (el_disabled nextButton)
    |destruct (clickFirstAlt (pass_page p) altSelectors); cbn [negb]];
    try apply afterClick_turns;
    cbn; now split.
Qed.

Lemma tryBody_turns (p : Pass) (e : Engine) :
  pageTurned
    ((deliver (pass_lookup_signals p) ≫= fun _ => mret tt ≫= fun _ => advance p) e).
Proof.
  apply pageTurned_bind; [apply benign_deliver | intros _ e1].
  rewrite run_ret_bind. apply advance_turns.
Qed.

(** Every pass of the loop body ends in one of the two ways. *)
Lemma turnPage_turns (p : Pass) (e : Engine) : pageTurned (turnPage p e).
Proof.
  unfold turnPage. destruct (pass_fault p) as [t|]; cbn [awaitOk].
  - unfold tryCatch. rewrite run_bind.
    destruct (benign_deliver (pass_lookup_signals p) e) as [[[] Hd] Ht].
    unfold outcome, trace in *.
    destruct (deliver (pass_lookup_signals p) e) as [[r e1] t1]; cbn [fst snd] in *.
    subst r. run. rewrite app_nil_r.
    apply Forall_app. split; [exact Ht | ordinary_events].
  - rewrite tryCatch_returns; [apply tryBody_turns|].
    apply pageTurned_safe, tryBody_turns.
Qed.

(** *** Composition *)

Lemma once_quiet {A} (m : Act A) : quiet m -> once m.
Proof.
  intros Hq e. destruct (Hq e Logic.I) as [_ Ht].
  destruct (count_ordinary _ Ht) as [-> ->]. repeat split; [lia | discriminate].
Qed.

Lemma once_quiet_bind {A B} (m : Act A) (k : A -> Act B) :
  quiet m -> (forall a, once (k a)) -> once (m ≫= k).
Proof.
  intros Hq Hk e. destruct (Hq e Logic.I) as [_ Ht].
  destruct (count_ordinary _ Ht) as [Hc Hs].
  unfold trace, outcome, final in *. rewrite run_bind.
  destruct (m e) as [[[a|t|] e1] t1]; cbn [fst snd] in *;
    try (rewrite Hc, Hs; repeat split; [lia | discriminate]).
  specialize (Hk a e1). unfold trace, outcome, final in Hk.
  destruct (k a e1) as [[r e2] t2]; cbn [fst snd] in *.
  rewrite !count_app, Hc, Hs. exact Hk.
Qed.

Lemma once_bind_benign {A B} (m : Act A) (k : A -> Act B) :
  once m -> (forall a, benign (k a)) -> once (m ≫= k).
Proof.
  intros Hm Hk e. specialize (Hm e).
  unfold trace, outcome, final in *. rewrite run_bind.
  destruct (m e) as [[[a|t|] e1] t1]; cbn [fst snd] in *;
    try (destruct Hm as (H1 & H2 & H3);
         split; [exact H1 | split; [exact H2|]];
         intros H; destruct (H3 H) as [a Ha]; discriminate).
  destruct (Hk a e1) as [[b Hb] Hord]. unfold trace, outcome in *.
  destruct (k a e1) as [[r e2] t2]; cbn [fst snd] in *. subst r.
  destruct (count_ordinary _ Hord) as [Hc Hs].
  rewrite !count_app, Hc, Hs, !Nat.add_0_r.
  destruct Hm as (H1 & H2 & H3). repeat split; auto. now exists b.
Qed.

Lemma once_tryCatch {A} (body : Act A) (handler : Thrown -> Act A) :
  once body -> (forall t, quiet (handler t)) -> once (tryCatch body handler).
Proof.
  intros Hb Hh e. specialize (Hb e).
  unfold trace, outcome, final, tryCatch in *.
  destruct (body e) as [[[a|t|] e1] t1]; cbn [fst snd] in *; auto.
  destruct Hb as (H1 & H2 & H3).
  assert (Hz : count isCompleted t1 = 0%nat).
  { destruct (count isCompleted t1) as [|[|n]]; [reflexivity| |lia].
    destruct (H3 eq_refl) as [a Ha]. discriminate. }
  destruct (Hh t e1 Logic.I) as [_ Ht]. unfold trace in Ht.
  destruct (count_ordinary _ Ht) as [Hc Hs].
  destruct (handler t e1) as [[r e2] t2]; cbn [fst snd] in *.
  rewrite !count_app, Hc, Hs, H2, Hz. repeat split; [lia | discriminate].
Qed.

Lemma once_finally {A} (body : Act A) (fin : Act unit) :
  once body -> benign fin -> once (finally body fin).
Proof.
  intros Hb Hf e. specialize (Hb e).
  unfold trace, outcome, final, finally in *.
  destruct (body e) as [[[a|t|] e1] t1]; cbn [fst snd] in *; auto;
    destruct (Hf e1) as [[[] Hd] Hord]; unfold trace, outcome in *;
    destruct (fin e1) as [[r e2] t2]; cbn [fst snd] in *; subst r;
    destruct (count_ordinary _ Hord) as [Hc Hs];
    cbn [fst snd];
    rewrite !count_app, Hc, Hs, !Nat.add_0_r;
    destruct Hb as (H1 & H2 & H3);
    (split; [exact H1 | split; [exact H2|]]);
    intros H; destruct (H3 H) as [a' Ha]; try discriminate.
  now exists a.
Qed.

Ltac quiet_side :=
  lazymatch goal with
  | |- obeys _ _ (deliver _) => apply quiet_deliver
  | |- obeys _ _ (handle _) => apply quiet_handle
  | |- obeys _ _ (login _) => apply quiet_login
  | |- obeys _ _ (openBook _) => apply quiet_openBook
  | |- obeys _ _ cleanup => apply quiet_cleanup
  | |- obeys _ _ _ => fail
  | |- ordinary _ => split; reflexivity
  | |- _ => intros; first [exact Logic.I | split; reflexivity]
  end.

Ltac quietly := unfold quiet; obey; quiet_side.

Ltac once_step :=
  lazymatch goal with
  | |- once (mbind _ _) => apply once_quiet_bind; [solve [quietly] | intros ?]
  end.

Lemma once_readLoop (script : list Input) : once (readLoop script).
Proof.
  induction script as [|[s|p] rest IH]; cbn [readLoop].
  - apply once_quiet. quietly.
  - apply once_quiet_bind; [apply quiet_handle | intros _; exact IH].
  - intros e. unfold trace, outcome, final. rewrite run_get_bind.
    destruct (shouldStop e).
    { cbn. repeat split; [lia | discriminate]. }
    destruct (isPaused e); [apply IH|].
    rewrite run_bind. pose proof (turnPage_turns p e) as Hturn.
    destruct (turnPage p e) as [[[[|]|t|] e1] t1]; cbn [pageTurned] in Hturn;
      try contradiction.
    + destruct Hturn as (Hc & Hs). cbn -[count].
      rewrite app_nil_r, Hc, Hs.
      repeat split; [lia | now exists tt].
    + destruct (count_ordinary _ Hturn) as [Hc Hs].
      specialize (IH e1). unfold trace, outcome, final in IH.
      destruct (readLoop rest e1) as [[r e2] t2]; cbn [fst snd] in *.
      rewrite !count_app, Hc, Hs. exact IH.
Qed.

Lemma once_readPages (env : ReadEnv) : once (readPages env).
Proof.
  unfold readPages.
  apply once_quiet_bind; [quietly | intros e0].
  destruct (page e0); [destruct (config e0)|]; try solve [apply once_quiet; quietly].
  repeat once_step.
  apply once_bind_benign; [apply once_readLoop | intros _; apply benign_afterLoop].
Qed.

Lemma once_startTry (env : RunEnv) : once (startTry env).
Proof.
  unfold startTry.
  repeat once_step.
  destruct (shouldStop _); [apply once_quiet; solve [quietly]|].
  repeat once_step.
  destruct (shouldStop _); [apply once_quiet; solve [quietly] | apply once_readPages].
Qed.

(** A run announces the end of the book at most once, and then returns. *)
Lemma once_start (cfg : AutomationConfig) (now : Z) (env : RunEnv) :
  once (start cfg now env).
Proof.
  unfold start. apply once_quiet_bind; [quietly | intros _].
  apply once_finally; [|apply benign_cleanup].
  apply once_tryCatch; [apply once_startTry | apply quiet_startCatch].
Qed.

End ReadingLoop.

(** ** End-of-book detection *)

Section EndOfBook.

Import AutomationService Trace.

Lemma clickFirstAlt_found (d : Dom) (selectors : list string) (sel : string) (el : Element) :
  In sel selectors -> query d sel = Some el -> clickFirstAlt d selectors = true.
Proof.
  induction selectors as [|s rest IH]; cbn [In clickFirstAlt]; [tauto|].
  intros [->|Hin] Hq; [now rewrite Hq|].
  destruct (query d s); [reflexivity | now apply IH].
Qed.

Lemma clickFirstAlt_missing (d : Dom) (selectors : list string) :
  (forall sel, In sel selectors -> query d sel = None) ->
  clickFirstAlt d selectors = false.
Proof.
  induction selectors as [|s rest IH]; cbn [In clickFirstAlt]; [reflexivity|].
  intros H. rewrite (H s (or_introl eq_refl)). apply IH. auto.
Qed.

(** The control found by the primary selector is disabled: end of book. *)
Lemma end_of_book_when_disabled (e : Engine) (p : Pass) (nextButton : Element) :
  query (pass_page p) "[data-testid='next-page-button']" = Some nextButton ->
  el_disabled nextButton = true ->
  advance p e
  = (Done Break, e,
     [EvLog LogType.success [Txt "Fim do livro alcançado!"];
      EvCompleted (completedOf e (pass_clock1 p));
      EvStateChange completed None None]).
Proof. intros Hq Hd. unfold advance. rewrite Hq, Hd. reflexivity. Qed.

(** No selector resolves, primary or alternative: end of book. *)
Lemma end_of_book_when_missing (e : Engine) (p : Pass) :
  query (pass_page p) "[data-testid='next-page-button']" = None ->
  (forall sel, In sel altSelectors -> query (pass_page p) sel = None) ->
  advance p e
  = (Done Break, e,
     [EvLog LogType.success [Txt "Fim do livro alcançado!"];
      EvCompleted (completedOf e (pass_clock1 p));
      EvStateChange completed None None]).
Proof.
  intros Hq Halt. unfold advance.
  rewrite Hq, (clickFirstAlt_missing _ _ Halt). reflexivity.
Qed.

(** A pass in which no page call fails: the commands that arrive during
    the lookup are handled, then the control is dealt with. *)
Lemma run_turnPage (p : Pass) (e : Engine) :
  pass_fault p = None ->
  turnPage p e
  = match advance p (final (deliver (pass_lookup_signals p)) e) with
    | (r, e2, t2) => (r, e2, trace (deliver (pass_lookup_signals p)) e ++ t2)
    end.
Proof.
  intros Hf. unfold turnPage. rewrite Hf. cbn [awaitOk].
  rewrite tryCatch_returns; [|apply pageTurned_safe, tryBody_turns].
  rewrite run_bind.
  pose proof (deliver_returns (pass_lookup_signals p) e) as (Hd & _).
  unfold outcome, final, trace in *.
  destruct (deliver (pass_lookup_signals p) e) as [[r e1] t1]; cbn [fst snd] in *.
  subst r. now rewrite run_ret_bind.
Qed.

(** In both situations the loop, running in the reading state, leaves
    with exactly one completed event, whose [pagesRead] is the page
    counter of that moment, followed by the completed state. *)
Lemma loop_ends_at_end_of_book (e : Engine) (p : Pass) (rest : list Input) :
  shouldStop e = false -> isPaused e = false ->
  pass_fault p = None ->
  (exists nextButton,
      query (pass_page p) "[data-testid='next-page-button']" = Some nextButton /\
      el_disabled nextButton = true) \/
  (query (pass_page p) "[data-testid='next-page-button']" = None /\
   forall sel, In sel altSelectors -> query (pass_page p) sel = None) ->
  exists d,
    readLoop (Wakes p :: rest) e
    = (Done tt, final (deliver (pass_lookup_signals p)) e,
       trace (deliver (pass_lookup_signals p)) e
       ++ [EvLog LogType.success [Txt "Fim do livro alcançado!"];
           EvCompleted d;
           EvStateChange completed None None]) /\
    cd_pagesRead d = currentPage e /\
    count isCompleted (trace (readLoop (Wakes p :: rest)) e) = 1%nat.
Proof.
  intros Hs Hp Hf Hcase.
  exists (completedOf (final (deliver (pass_lookup_signals p)) e) (pass_clock1 p)).
  assert (E : readLoop (Wakes p :: rest) e
              = (Done tt, final (deliver (pass_lookup_signals p)) e,
                 trace (deliver (pass_lookup_signals p)) e
                 ++ [EvLog LogType.success [Txt "Fim do livro alcançado!"];
                     EvCompleted (completedOf (final (deliver (pass_lookup_signals p)) e)
                                    (pass_clock1 p));
                     EvStateChange completed None None])).
  { cbn [readLoop]. rewrite run_get_bind, Hs, Hp, run_bind, (run_turnPage p e Hf).
    destruct Hcase as [(b & Hq & Hd) | (Hq & Halt)].
    - rewrite (end_of_book_when_disabled _ p b Hq Hd). cbn. now rewrite app_nil_r.
    - rewrite (end_of_book_when_missing _ p Hq Halt). cbn. now rewrite app_nil_r. }
  split; [exact E | split].
  - cbn [completedOf cd_pagesRead]. apply deliver_returns.
  - unfold trace at 1. rewrite E. cbn [snd]. rewrite count_app.
    destruct (count_ordinary _ (proj2 (quiet_deliver (pass_lookup_signals p) e Logic.I)))
      as [-> _].
    reflexivity.
Qed.

(** C1, where the code departs from it.  When the primary selector does
    not resolve and an alternative selector resolves to a control that is
    disabled, the pass does not treat this as the end of the book: the
    control is clicked, the page counter grows, a progress event is
    emitted and (the total being unknown) the loop continues, with no
    completed event. *)
Theorem alt_control_disabled_is_clicked (e : Engine) (p : Pass)
    (sel : string) (el : Element) :
  pass_lookup_signals p = [] -> pass_probe_signals p = [] ->
  pass_fault p = None ->
  query (pass_page p) "[data-testid='next-page-button']" = None ->
  In sel altSelectors -> query (pass_page p) sel = Some el ->
  el_disabled el = true ->
  JS.truthyOpt (totalPages e) = false ->
  getTotalPages (pass_after p) e = None ->
  turnPage p e
  = (Done Continue, set_currentPage (currentPage e + 1) e,
     [EvProgress (progressOf (set_currentPage (currentPage e + 1) e) (pass_clock1 p))]) /\
  count isCompleted (trace (turnPage p) e) = 0%nat.
Proof.
  intros Hl Hpr Hf Hq Hin Hsel Hdis Htot Hnew.
  assert (E : turnPage p e
              = (Done Continue, set_currentPage (currentPage e + 1) e,
                 [EvProgress (progressOf (set_currentPage (currentPage e + 1) e)
                                (pass_clock1 p))])).
  { rewrite (run_turnPage p e Hf), Hl. cbn [deliver].
    change (final (mret tt) e) with e. change (trace (mret tt) e) with (@nil Event).
    unfold advance. rewrite Hq, (clickFirstAlt_found _ _ _ _ Hin Hsel).
    cbn [negb]. unfold afterClick, countPage, reprobe, checkDone. rewrite Hpr.
    cbn [deliver]. run.
    change (totalPages (set_currentPage (currentPage e + 1) e)) with (totalPages e).
    rewrite Htot. cbn beta iota zeta delta [negb].
    change (getTotalPages (pass_after p) (set_currentPage (currentPage e + 1) e))
      with (getTotalPages (pass_after p) e).
    rewrite Hnew. cbn. rewrite Htot. reflexivity. }
  split; [exact E|]. unfold trace. now rewrite E.
Qed.

Lemma alt_control_disabled_is_clicked_witness :
  query Samples.lastPageAlt "[data-testid='next-page-button']" = None /\
  (exists el, query Samples.lastPageAlt ".next-page" = Some el /\ el_disabled el = true) /\
  turnPage Samples.lastPageAltPass Samples.running
  = (Done Continue, set_currentPage 1 Samples.running,
     [EvProgress (progressOf (set_currentPage 1 Samples.running) 61000)]).
Proof.
  split; [reflexivity|]. split; [eexists; split; reflexivity|].
  apply (alt_control_disabled_is_clicked Samples.running Samples.lastPageAltPass
           ".next-page" {| textContent := ">"; el_disabled := true |});
    first [reflexivity | now left].
Defined.

End EndOfBook.

(** ** Fatal errors and teardown *)

Section FatalErrors.

Import AutomationService Trace.

Lemma run_cleanup (e : Engine) :
  cleanup e
  = (Done tt,
     match browser e with
     | Some _ => set_page None (set_browser None e)
     | None => e
     end, []).
Proof. unfold cleanup. rewrite run_get_bind. now destruct (browser e). Qed.

Lemma cleanup_closes (e : Engine) : browser (final cleanup e) = None.
Proof.
  unfold final. rewrite run_cleanup. cbn [fst snd].
  destruct (browser e) eqn:E; [reflexivity | exact E].
Qed.

(** [start], by the way its [try] block ends. *)
Lemma run_start (cfg : AutomationConfig) (now : Z) (env : RunEnv) (e : Engine) :
  start cfg now env e
  = match startTry env (reset cfg now e) with
    | (Done _, e1, t1) => (Done tt, final cleanup e1, t1)
    | (Raised thrown, e1, t1) =>
        (Done tt, final cleanup e1,
         t1 ++ [EvError (messageOf thrown "Erro desconhecido");
                EvLog LogType.error
                  [Txt "Erro: "; Txt (messageOf thrown "Erro desconhecido")]])
    | (Suspended, e1, t1) => (Suspended, e1, t1)
    end.
Proof.
  unfold start. rewrite run_bind. cbn [modify].
  unfold finally, tryCatch, final.
  destruct (startTry env (reset cfg now e)) as [[[[]|thrown|] e1] t1];
    unfold startCatch; run; rewrite ?run_cleanup; cbn [fst snd];
    rewrite ?app_nil_r; reflexivity.
Qed.

Lemma outcome_bind_done {A B} (m : Act A) (k : A -> Act B) (e e1 : Engine)
    (a : A) (t1 : list Event) :
  m e = (Done a, e1, t1) -> outcome (m ≫= k) e = outcome (k a) e1.
Proof.
  intros H. unfold outcome. rewrite run_bind, H. now destruct (k a e1) as [[r e2] t2].
Qed.

Lemma outcome_bind_deliver {B} (signals : list Signal) (k : unit -> Act B) (e : Engine) :
  outcome (deliver signals ≫= k) e = outcome (k tt) (final (deliver signals) e).
Proof.
  pose proof (deliver_returns signals e) as (Hd & _).
  unfold outcome, final in *. rewrite run_bind.
  destruct (deliver signals e) as [[r e1] t1]; cbn [fst snd] in *. subst r.
  now destruct (k tt e1) as [[r e2] t2].
Qed.

(** The browser cannot be started. *)
Lemma launch_failure (env : RunEnv) (e : Engine) (thrown : Thrown) :
  launch env = inl thrown -> outcome (startTry env) e = Raised thrown.
Proof.
  intros H. unfold startTry.
  rewrite (outcome_bind_done _ _ e e tt _ eq_refl).
  rewrite (outcome_bind_done _ _ e e tt _ eq_refl).
  rewrite outcome_bind_deliver, H. reflexivity.
Qed.

(** The browser starts but no tab can be opened. *)
Lemma newPage_failure (env : RunEnv) (e : Engine) (b : nat) (thrown : Thrown) :
  launch env = inr b -> newPage env = inl thrown ->
  outcome (startTry env) e = Raised thrown.
Proof.
  intros Hl Hn. unfold startTry.
  rewrite (outcome_bind_done _ _ e e tt _ eq_refl).
  rewrite (outcome_bind_done _ _ e e tt _ eq_refl).
  rewrite outcome_bind_deliver, Hl, Hn. reflexivity.
Qed.

(** The login page cannot be loaded. *)
Lemma login_failure (env : LoginEnv) (e : Engine) (pg : nat)
    (cfg : AutomationConfig) (thrown : Thrown) :
  page e = Some pg -> config e = Some cfg -> login_goto env = Some thrown ->
  outcome (login env) e
  = Raised (JsError (String.append "Falha no login: " (messageOf thrown "Erro no login"))).
Proof.
  intros Hp Hc Hg. unfold login, outcome. rewrite run_get_bind, Hp, Hc.
  rewrite run_bind. cbn [emitState emit]. rewrite run_bind. cbn [emitLog emit].
  unfold tryCatch. rewrite run_bind.
  pose proof (deliver_returns (login_signals env) e) as (Hd & _).
  unfold outcome in Hd.
  destruct (deliver (login_signals env) e) as [[r e1] t1]; cbn [fst] in Hd. subst r.
  rewrite run_bind, Hg. reflexivity.
Qed.

Lemma login_goto_failure (env : RunEnv) (e : Engine) (b p : nat)
    (cfg : AutomationConfig) (thrown : Thrown) :
  config e = Some cfg ->
  launch env = inr b -> newPage env = inr p ->
  login_goto (login_env env) = Some thrown ->
  outcome (startTry env) e
  = Raised (JsError (String.append "Falha no login: " (messageOf thrown "Erro no login"))).
Proof.
  intros Hc Hl Hn Hg. unfold startTry.
  rewrite (outcome_bind_done _ _ e e tt _ eq_refl).
  rewrite (outcome_bind_done _ _ e e tt _ eq_refl).
  rewrite outcome_bind_deliver, Hl, Hn.
  pose proof (deliver_returns (launch_signals env) e) as (_ & _ & _ & Hcfg & _).
  set (e1 := final (deliver (launch_signals env)) e) in *.
  cbn [await].
  rewrite (outcome_bind_done _ _ e1 e1 b [] eq_refl).
  rewrite (outcome_bind_done _ _ e1 (set_browser (Some b) e1) tt [] eq_refl).
  rewrite (outcome_bind_done _ _ _ (set_browser (Some b) e1) p [] eq_refl).
  rewrite (outcome_bind_done _ _ _ (set_page (Some p) (set_browser (Some b) e1)) tt []
             eq_refl).
  rewrite (outcome_bind_done _ _ _ (set_page (Some p) (set_browser (Some b) e1)) tt _
             eq_refl).
  assert (Hlogin : outcome (login (login_env env))
                     (set_page (Some p) (set_browser (Some b) e1))
                   = Raised (JsError (String.append "Falha no login: "
                                        (messageOf thrown "Erro no login")))).
  { apply login_failure with (pg := p) (cfg := cfg); [reflexivity | | exact Hg].
    cbn [config set_page set_browser]. now rewrite Hcfg. }
  unfold outcome in *. rewrite run_bind.
  destruct (login (login_env env) _) as [[r e2] t2]; cbn [fst] in Hlogin.
  now subst r.
Qed.

(** The engine never emits a state change to [error]: the error surfaces
    as the [error] event. *)
Lemma no_error_state (cfg : AutomationConfig) (now : Z) (env : RunEnv) (e : Engine) :
  count isErrorState (trace (start cfg now env) e) = 0%nat.
Proof.
  assert (H : obeys (fun _ => True) (fun ev => isErrorState ev = false)
                (start cfg now env)).
  { assert (Hh : forall s, obeys (fun _ => True) (fun ev => isErrorState ev = false)
                   (handle s)).
    { intros [[] t]; unfold handle, pause, resume, stop; obey;
        first [reflexivity | intros; exact Logic.I]. }
    assert (Hd : forall l, obeys (fun _ => True) (fun ev => isErrorState ev = false)
                   (deliver l)).
    { induction l as [|s l IH]; cbn [deliver]; obey; auto; reflexivity. }
    assert (Hl : forall l, obeys (fun _ => True) (fun ev => isErrorState ev = false)
                   (emitLogs l)).
    { induction l as [|[ty m] l IH]; cbn [emitLogs]; obey; auto; reflexivity. }
    assert (Hr : forall l, obeys (fun _ => True) (fun ev => isErrorState ev = false)
                   (readLoop l)).
    { induction l as [|[s|p] l IH]; cbn [readLoop]; obey; auto;
        unfold turnPage, advance, endOfBook, afterClick, countPage, reprobe, checkDone;
        obey;
        lazymatch goal with
        | |- obeys _ _ (deliver _) => apply Hd
        | |- _ => first [reflexivity | intros; exact Logic.I | intros; reflexivity]
        end. }
    unfold start, startTry, startCatch, login, accessLeiasp, openBook, readPages,
      afterLoop, cleanup; obey; auto;
      first [reflexivity | intros; exact Logic.I | intros; reflexivity]. }
  destruct (H e Logic.I) as [_ Hall]. unfold count.
  induction Hall as [|ev t Hev _ IH]; [reflexivity|].
  cbn [List.filter]. now rewrite Hev.
Qed.

(** C5, as amended.  A run never throws out of [start], and once it has
    returned the browser session is closed, whatever the outcome.  When
    the body of the run throws, the engine emits an [error] event with
    the exception's message, then a log entry of type error with the
    same message, returns, and the session is closed; the bridge sends
    them as an error message and a log message, and a client that
    receives them shows the error state.  The engine itself never emits
    a state change to [error].  A browser that does not start, a tab
    that does not open and a login page that does not load (all before
    the reading state) are such exceptions. *)
Theorem fatal_error_reported_and_session_closed
    (cfg : AutomationConfig) (now : Z) (env : RunEnv) (e : Engine) :
  (forall thrown, outcome (start cfg now env) e <> Raised thrown) /\
  (outcome (start cfg now env) e = Done tt ->
   browser (final (start cfg now env) e) = None) /\
  (forall thrown,
     outcome (startTry env) (reset cfg now e) = Raised thrown ->
     outcome (start cfg now env) e = Done tt /\
     trace (start cfg now env) e
     = trace (startTry env) (reset cfg now e)
       ++ [EvError (messageOf thrown "Erro desconhecido");
           EvLog LogType.error
             [Txt "Erro: "; Txt (messageOf thrown "Erro desconhecido")]] /\
     browser (final (start cfg now env) e) = None) /\
  (forall thrown,
     launch env = inl thrown ->
     outcome (startTry env) (reset cfg now e) = Raised thrown) /\
  (forall b thrown,
     launch env = inr b -> newPage env = inl thrown ->
     outcome (startTry env) (reset cfg now e) = Raised thrown) /\
  (forall b p thrown,
     launch env = inr b -> newPage env = inr p ->
     login_goto (login_env env) = Some thrown ->
     outcome (startTry env) (reset cfg now e)
     = Raised (JsError (String.append "Falha no login: "
                          (messageOf thrown "Erro no login")))) /\
  (forall thrown automation session,
     outcome (startTry env) (reset cfg now e) = Raised thrown ->
     Routes.sentMessages automation (trace (start cfg now env) e)
     = Routes.sentMessages automation (trace (startTry env) (reset cfg now e))
       ++ [Routes.error (messageOf thrown "Erro desconhecido");
           Routes.log LogType.error
             [Txt "Erro: "; Txt (messageOf thrown "Erro desconhecido")]] /\
     UseAutomation.state
       (UseAutomation.receive
          (Routes.sentMessages automation (trace (start cfg now env) e)) session)
     = Schema.error) /\
  count isErrorState (trace (start cfg now env) e) = 0%nat.
Proof.
  pose proof (no_error_state cfg now env e) as Hnone.
  unfold outcome, final, trace in *. rewrite run_start in *.
  split; [|split; [|split; [|split; [|split; [|split; [|split]]]]]].
  - intros thrown.
    destruct (startTry env (reset cfg now e)) as [[[[]|t|] e1] t1]; discriminate.
  - destruct (startTry env (reset cfg now e)) as [[[[]|t|] e1] t1]; cbn [fst snd];
      try discriminate; intros _; apply cleanup_closes.
  - intros thrown.
    destruct (startTry env (reset cfg now e)) as [[[[]|t|] e1] t1]; cbn [fst snd];
      try discriminate.
    intros [= ->]. repeat split. apply cleanup_closes.
  - intros thrown H. now apply launch_failure.
  - intros b thrown Hl Hn. now apply newPage_failure with (b := b).
  - intros b p thrown Hl Hn Hg.
    now apply login_goto_failure with (b := b) (p := p) (cfg := cfg).
  - intros thrown automation session.
    destruct (startTry env (reset cfg now e)) as [[[[]|t|] e1] t1]; cbn [fst snd];
      try discriminate.
    intros [= ->].
    assert (Hsent : Routes.sentMessages automation
                      (t1 ++ [EvError (messageOf thrown "Erro desconhecido");
                              EvLog LogType.error
                                [Txt "Erro: "; Txt (messageOf thrown "Erro desconhecido")]])
                    = Routes.sentMessages automation t1
                      ++ [Routes.error (messageOf thrown "Erro desconhecido");
                          Routes.log LogType.error
                            [Txt "Erro: "; Txt (messageOf thrown "Erro desconhecido")]]).
    { unfold Routes.sentMessages. rewrite flat_map_app. reflexivity. }
    split; [exact Hsent|].
    rewrite Hsent. unfold UseAutomation.receive. rewrite fold_left_app. reflexivity.
  - exact Hnone.
Qed.

Lemma fatal_error_reported_and_session_closed_witness :
  outcome (startTry Samples.loginUnreachable) (reset Samples.cfg 1000 fresh)
  = Raised (JsError "Falha no login: net::ERR_TIMED_OUT") /\
  outcome (start Samples.cfg 1000 Samples.loginUnreachable) fresh = Done tt /\
  trace (start Samples.cfg 1000 Samples.loginUnreachable) fresh
  = trace (startTry Samples.loginUnreachable) (reset Samples.cfg 1000 fresh)
    ++ [EvError "Falha no login: net::ERR_TIMED_OUT";
        EvLog LogType.error [Txt "Erro: "; Txt "Falha no login: net::ERR_TIMED_OUT"]] /\
  browser (final (start Samples.cfg 1000 Samples.loginUnreachable) fresh) = None.
Proof.
  split; [reflexivity|].
  apply (proj1 (proj2 (proj2
           (fatal_error_reported_and_session_closed Samples.cfg 1000
              Samples.loginUnreachable fresh)))
           (JsError "Falha no login: net::ERR_TIMED_OUT")).
  reflexivity.
Defined.

(** C5 as stated fails where it says that the engine emits an error
    state event: in the run whose login page does not load the engine
    emits the [error] event and the error log entry, and no state change
    to [error]; the states it emits are connecting and logging_in.  A
    client that has received the messages of that run shows the error
    state all the same. *)
Lemma fatal_error_counterexample :
  outcome (startTry Samples.loginUnreachable) (reset Samples.cfg 1000 fresh)
  = Raised (JsError "Falha no login: net::ERR_TIMED_OUT") /\
  count isErrorState (trace (start Samples.cfg 1000 Samples.loginUnreachable) fresh)
  = 0%nat /\
  List.map (fun ev => match ev with EvStateChange st _ _ => [st] | _ => [] end)
    (List.filter (fun ev => match ev with EvStateChange _ _ _ => true | _ => false end)
       (trace (start Samples.cfg 1000 Samples.loginUnreachable) fresh))
  = [[connecting]; [logging_in]] /\
  UseAutomation.state
    (UseAutomation.receive
       (Routes.sentMessages fresh
          (trace (start Samples.cfg 1000 Samples.loginUnreachable) fresh))
       UseAutomation.initialSession)
  = Schema.error.
Proof. repeat split. Qed.

End FatalErrors.

(** ** A script that goes on after a wait *)

Section Continues.

Import AutomationService Trace.

Variable P : Event -> Prop.

Lemma continues_refl {A} (m : Act A) : continues P m m.
Proof.
  intros e. destruct (m e) as [[[a|t|] e1] t1] eqn:E; try reflexivity.
  exists []. rewrite app_nil_r. split; [reflexivity | constructor].
Qed.

Lemma continues_bind_r {A B} (m : Act A) (k k' : A -> Act B) :
  (forall a, continues P (k a) (k' a)) -> continues P (m ≫= k) (m ≫= k').
Proof.
  intros H e. rewrite !run_bind.
  destruct (m e) as [[[a|t|] e1] t1]; [|reflexivity|].
  - specialize (H a e1).
    destruct (k a e1) as [[[b|t|] e2] t2]; try (rewrite H; reflexivity).
    destruct H as (t3 & Ht & HP).
    destruct (k' a e1) as [[r e3] t4]; cbn [snd] in *. subst t4.
    exists t3. now rewrite app_assoc.
  - exists []. rewrite app_nil_r. split; [reflexivity | constructor].
Qed.

Lemma continues_bind_l {A B} (m m' : Act A) (k : A -> Act B) :
  continues P m m' -> (forall a, obeys (fun _ => True) P (k a)) ->
  continues P (m ≫= k) (m' ≫= k).
Proof.
  intros H Hk e. specialize (H e). rewrite !run_bind.
  destruct (m e) as [[[a|t|] e1] t1].
  - rewrite H. destruct (k a e1) as [[[b|t|] e2] t2]; try reflexivity.
    exists []. rewrite app_nil_r. split; [reflexivity | constructor].
  - now rewrite H.
  - destruct H as (t2 & Ht & HP).
    destruct (m' e) as [[[a|t|] e1'] t1']; cbn [snd] in *; subst t1';
      try (exists t2; now split).
    destruct (Hk a e1' Logic.I) as [_ Hall]. unfold trace in Hall.
    destruct (k a e1') as [[r e2] t3]; cbn [snd] in *.
    exists (t2 ++ t3). rewrite app_assoc. split; [reflexivity|].
    apply Forall_app. now split.
Qed.

Lemma continues_tryCatch {A} (m m' : Act A) (h : Thrown -> Act A) :
  continues P m m' -> (forall t, obeys (fun _ => True) P (h t)) ->
  continues P (tryCatch m h) (tryCatch m' h).
Proof.
  intros H Hh e. specialize (H e). unfold tryCatch.
  destruct (m e) as [[[a|t|] e1] t1].
  - now rewrite H.
  - rewrite H. destruct (h t e1) as [[[b|t'|] e2] t2]; try reflexivity.
    exists []. rewrite app_nil_r. split; [reflexivity | constructor].
  - destruct H as (t2 & Ht & HP).
    destruct (m' e) as [[[a|t|] e1'] t1']; cbn [snd] in *; subst t1';
      try (exists t2; now split).
    destruct (Hh t e1' Logic.I) as [_ Hall]. unfold trace in Hall.
    destruct (h t e1') as [[r e2] t3]; cbn [snd] in *.
    exists (t2 ++ t3). rewrite app_assoc. split; [reflexivity|].
    apply Forall_app. now split.
Qed.

Lemma continues_finally {A} (m m' : Act A) (fin : Act unit) :
  continues P m m' -> obeys (fun _ => True) P fin ->
  continues P (finally m fin) (finally m' fin).
Proof.
  intros H Hf e. specialize (H e). unfold finally.
  destruct (m e) as [[[a|t|] e1] t1].
  - rewrite H. destruct (fin e1) as [[[b|t'|] e2] t2]; try reflexivity.
    exists []. rewrite app_nil_r. split; [reflexivity | constructor].
  - rewrite H. destruct (fin e1) as [[[b|t'|] e2] t2]; try reflexivity.
    exists []. rewrite app_nil_r. split; [reflexivity | constructor].
  - destruct H as (t2 & Ht & HP).
    destruct (m' e) as [[[a|t|] e1'] t1']; cbn [snd] in *; subst t1';
      try (exists t2; now split);
      destruct (Hf e1' Logic.I) as [_ Hall]; unfold trace in Hall;
      destruct (fin e1') as [[[b|t'|] e2] t3]; cbn [snd] in *;
      exists (t2 ++ t3); rewrite app_assoc; (split; [reflexivity|]);
      apply Forall_app; now split.
Qed.

End Continues.

(** ** History and queue status *)

Section History.

Import AutomationService Trace.

(** The queue-entry id of the engine does not change during a run, and
    every completed event carries it. *)
Lemma run_keeps_queue_id (q : option string) (P : Event -> Prop) (env : RunEnv) :
  (forall ev, isCompleted ev = false -> P ev) ->
  (forall e now, bookQueueId e = q -> P (EvCompleted (completedOf e now))) ->
  obeys (fun e => bookQueueId e = q) P
    (finally (tryCatch (startTry env) startCatch) cleanup).
Proof.
  intros HP HC.
  pose (I := fun e : Engine => bookQueueId e = q).
  assert (Hh : forall s, obeys I P (handle s)).
  { intros [[] t]; unfold handle, pause, resume, stop; obey;
      first [apply HP; reflexivity | intros ? H; exact H]. }
  assert (Hd : forall l, obeys I P (deliver l)).
  { induction l as [|s l IH]; cbn [deliver]; obey; auto. }
  assert (Hl : forall l, obeys I P (emitLogs l)).
  { induction l as [|[ty m] l IH]; cbn [emitLogs]; obey; auto. }
  assert (Hr : forall l, obeys I P (readLoop l)).
  { induction l as [|[s|p] l IH]; cbn [readLoop]; obey; auto;
      unfold turnPage, advance, endOfBook, afterClick, countPage, reprobe, checkDone;
      obey;
      lazymatch goal with
      | |- obeys _ _ (deliver _) => apply Hd
      | |- _ => first [ apply HP; reflexivity
                      | intros ? H; exact H
                      | intros; apply HP; reflexivity
                      | intros; now apply HC ]
      end. }
  unfold startTry, startCatch, login, accessLeiasp, openBook, readPages,
    afterLoop, cleanup; obey; auto;
    first [ apply HP; reflexivity
          | intros ? H; exact H
          | intros; apply HP; reflexivity
          | intros; now apply HC ].
Qed.

Lemma completed_carry_id (cfg : AutomationConfig) (now : Z) (env : RunEnv)
    (e : Engine) (id : string) :
  cfg_bookQueueId cfg = Some id -> JS.truthyStr id = true ->
  Forall (fun ev => forall d, ev = EvCompleted d -> cd_bookQueueId d = Some id)
    (trace (start cfg now env) e).
Proof.
  intros Hid Htruthy.
  assert (Hq : bookQueueId (reset cfg now e) = Some id).
  { cbn [reset bookQueueId]. rewrite Hid. cbn [orUndefined]. now rewrite Htruthy. }
  destruct (run_keeps_queue_id (Some id)
              (fun ev => forall d, ev = EvCompleted d -> cd_bookQueueId d = Some id) env)
    with (e := reset cfg now e) as [_ Hall]; auto.
  - intros [] Hev d Heq; try discriminate Heq; discriminate Hev.
  - intros e0 t0 He0 d [= <-]. cbn [completedOf cd_bookQueueId].
    rewrite He0. cbn [orUndefined]. now rewrite Htruthy.
  - unfold trace, start in *. rewrite run_bind. cbn [modify].
    now destruct (finally _ cleanup (reset cfg now e)) as [[r e2] t2].
Qed.

(** One [markBookCompleted] call per completed event, all calls about
    the queue entry of the run. *)
Lemma calls_of_trace (automation : Engine) (id : string) (t : list Event) :
  bookQueueId automation = Some id -> JS.truthyStr id = true ->
  Forall (fun ev => forall d, ev = EvCompleted d -> cd_bookQueueId d = Some id) t ->
  Routes.marks (Routes.storeCalls automation t) = count isCompleted t /\
  Forall (fun c => Routes.target c = id) (Routes.storeCalls automation t).
Proof.
  intros Hq Htruthy Hall. unfold Routes.marks, Routes.storeCalls, count.
  induction Hall as [|ev t Hev _ [IH1 IH2]]; [split; [reflexivity | constructor]|].
  cbn [flat_map]. rewrite List.filter_app, length_app, IH1.
  destruct ev as [st bt ur|pr|ty m|m|d]; cbn -[Routes.isMark];
    try (split; [reflexivity | exact IH2]).
  - unfold getCurrentBookQueueId. rewrite Hq. cbn [orUndefined]. rewrite Htruthy.
    split; [reflexivity | now constructor].
  - rewrite (Hev d eq_refl). cbn [orUndefined]. rewrite Htruthy.
    split; [reflexivity | now constructor].
Qed.

(** What one store call about a queued entry does to the store. *)
Lemma perform_effect (clock : Z) (id : string) (c : Routes.StoreCall)
    (db : Storage.Db) (book : Storage.BookQueue) :
  Routes.target c = id ->
  Storage.booksQueue db !! id = Some book ->
  exists book1 extra,
    Storage.booksQueue (Routes.perform clock db c) !! id = Some book1 /\
    Storage.readingHistory (Routes.perform clock db c)
    = Storage.readingHistory db ++ extra /\
    (Routes.isMark c = false -> extra = [] /\ Storage.status book1 = Storage.status book) /\
    (Routes.isMark c = true ->
     (List.length extra <= 1)%nat /\
     (Routes.inRange c = true ->
      List.length extra = 1%nat /\ Storage.status book1 = "completed")).
Proof.
  intros Hc Hbook.
  destruct c as [i cur total|i pagesRead total timeSpent];
    cbn [Routes.target] in Hc; subst i;
    unfold Routes.perform; cbn [Routes.call Routes.isMark Routes.inRange].
  - unfold Storage.updateBookProgress.
    destruct (Storage.int32 cur && Storage.int32Opt total);
      cbn [fst Storage.booksQueue Storage.readingHistory].
    + exists (Storage.setProgress cur total book), [].
      rewrite lookup_alter_eq, Hbook, app_nil_r.
      repeat split; discriminate.
    + exists book, []. rewrite app_nil_r. repeat split; try assumption; discriminate.
  - unfold Storage.markBookCompleted, Storage.getQueuedBook. rewrite Hbook.
    destruct (Storage.int32 pagesRead && Storage.int32 total); cbv zeta;
      [destruct (Storage.int32 (Qfloor timeSpent))|];
      cbn [fst Storage.addToHistory Storage.booksQueue Storage.readingHistory andb].
    + eexists (Storage.setCompleted clock pagesRead total book), [_].
      rewrite lookup_alter_eq, Hbook.
      repeat split; try discriminate. cbn. lia.
    + exists (Storage.setCompleted clock pagesRead total book), [].
      rewrite lookup_alter_eq, Hbook, app_nil_r.
      repeat split; try discriminate. cbn. lia.
    + exists book, []. rewrite app_nil_r.
      repeat split; try assumption; try discriminate. cbn. lia.
Qed.

(** What the store calls of one run do to the store. *)
Lemma performAll_effect (clock : Z) (id : string) (calls : list Routes.StoreCall) :
  Forall (fun c => Routes.target c = id) calls ->
  forall (db : Storage.Db) (book : Storage.BookQueue),
    Storage.booksQueue db !! id = Some book ->
    exists entries,
      Storage.readingHistory (Routes.performAll clock calls db)
      = Storage.readingHistory db ++ entries /\
      (List.length entries <= Routes.marks calls)%nat /\
      (Routes.marks calls = 0%nat ->
       Storage.status <$> Storage.booksQueue (Routes.performAll clock calls db) !! id
       = Some (Storage.status book)) /\
      (forallb Routes.inRange calls = true ->
       List.length entries = Routes.marks calls /\
       Storage.status <$> Storage.booksQueue (Routes.performAll clock calls db) !! id
       = Some (if Nat.eqb (Routes.marks calls) 0
               then Storage.status book else "completed")).
Proof.
  unfold Routes.performAll, Routes.marks.
  induction 1 as [|c calls Hc _ IH]; intros db book Hbook.
  - exists []. cbn. rewrite app_nil_r, Hbook. auto.
  - cbn [fold_left forallb List.filter].
    destruct (perform_effect clock id c db book Hc Hbook)
      as (book1 & extra & Hb1 & Hh1 & Hupd & Hmark).
    destruct (IH _ book1 Hb1) as (entries & E1 & E2 & E3 & E4).
    exists (extra ++ entries). rewrite E1, Hh1, <- app_assoc, length_app.
    split; [reflexivity|].
    destruct (Routes.isMark c) eqn:Hm; cbn [List.length].
    + destruct (Hmark eq_refl) as (Hle & Hin).
      split; [lia|]. split; [discriminate|].
      intros Hall. apply andb_prop in Hall as [Hc1 Hall].
      destruct (Hin Hc1) as (Hone & Hst). destruct (E4 Hall) as (E5 & E6).
      split; [lia|]. rewrite E6, Hst. cbn [Nat.eqb]. now destruct (Nat.eqb _ 0).
    + destruct (Hupd eq_refl) as (-> & Hst). cbn [List.length].
      split; [lia|]. split.
      * intros Hz. rewrite (E3 Hz). now rewrite Hst.
      * intros Hall. apply andb_prop in Hall as [_ Hall].
        destruct (E4 Hall) as (E5 & E6). split; [exact E5|]. now rewrite E6, Hst.
Qed.

(** A loop that has returned without announcing the end of the book was
    left because the stop flag was set. *)
Lemma loop_left_by_stop (script : list Input) (e : Engine) :
  outcome (readLoop script) e = Done tt ->
  count isCompleted (trace (readLoop script) e) = 0%nat ->
  shouldStop (final (readLoop script) e) = true.
Proof.
  revert e. induction script as [|[s|p] rest IH]; intros e; cbn [readLoop].
  - discriminate.
  - unfold outcome, trace, final. rewrite run_bind.
    destruct (benign_deliver [s] e) as [[[] Hd] _].
    unfold outcome in Hd. cbn [deliver] in Hd. rewrite run_bind in Hd.
    destruct (handle s e) as [[[[]|t|] e1] t1]; cbn [fst snd] in *; try discriminate.
    specialize (IH e1). unfold outcome, trace, final in IH.
    destruct (readLoop rest e1) as [[r e2] t2]; cbn [fst snd] in *.
    rewrite count_app. intros Hr Hc. apply IH; [exact Hr | lia].
  - unfold outcome, trace, final. rewrite run_get_bind.
    destruct (shouldStop e) eqn:Hstop; [intros _ _; exact Hstop|].
    destruct (isPaused e); [apply IH|].
    rewrite run_bind. pose proof (turnPage_turns p e) as Hturn.
    destruct (turnPage p e) as [[[[|]|t|] e1] t1]; cbn [pageTurned] in Hturn;
      try contradiction.
    + destruct Hturn as (Hc & _). cbn -[count]. rewrite app_nil_r, Hc. discriminate.
    + specialize (IH e1). unfold outcome, trace, final in IH.
      destruct (readLoop rest e1) as [[r e2] t2]; cbn [fst snd] in *.
      rewrite count_app. intros Hr Hc. apply IH; [exact Hr | lia].
Qed.

(** A stop that arrives in the middle of the pass that finds the end of
    the book does not suppress the completed event: the run is recorded
    once and then reported idle. *)
Example stop_during_last_pass :
  let t := trace (start Samples.cfg 1000 Samples.stoppedAtLastPage) fresh in
  count isCompleted t = 1%nat /\ count isIdleState t = 1%nat /\
  Routes.marks (Routes.storeCalls (reset Samples.cfg 1000 fresh) t) = 1%nat.
Proof. cbv zeta. repeat split; reflexivity. Qed.

(** A script that goes on with a stop command after a point at which
    the loop was still running announces no end of the book. *)
Lemma stopped_handle (s : Signal) :
  obeys (fun e => shouldStop e = true) ordinary (handle s).
Proof.
  destruct s as [[] t]; unfold handle, pause, resume, stop; obey;
    first [split; reflexivity | intros ? H; exact H | intros; reflexivity].
Qed.

Lemma stopped_readLoop (script : list Input) :
  obeys (fun e => shouldStop e = true) ordinary (readLoop script).
Proof.
  induction script as [|[s|p] rest IH]; cbn [readLoop].
  - apply obeys_suspend.
  - apply obeys_bind; [apply stopped_handle | intros _; exact IH].
  - intros e He. unfold final, trace. rewrite run_get_bind, He.
    split; [exact He | constructor].
Qed.

Lemma continues_readLoop (pre post : list Input) (clock : Z) :
  continues ordinary (readLoop pre) (readLoop (pre ++ Arrives (CmdStop, clock) :: post)).
Proof.
  induction pre as [|[s|p] rest IH]; cbn [app readLoop].
  - intros e. cbn [suspend]. eexists. split; [reflexivity|].
    rewrite run_bind. cbn [handle]. rewrite run_stop.
    destruct (stopped_readLoop post (set_isPaused false (set_shouldStop true e)) eq_refl)
      as [_ Hall].
    unfold trace in Hall.
    destruct (readLoop post _) as [[r e2] t2]; cbn [snd app] in *.
    constructor; [split; reflexivity | exact Hall].
  - apply continues_bind_r. intros _. exact IH.
  - apply continues_bind_r. intros e0.
    destruct (shouldStop e0); [apply continues_refl|].
    destruct (isPaused e0); [exact IH|].
    apply continues_bind_r. intros []; [apply continues_refl | exact IH].
Qed.

Ltac continue_step :=
  lazymatch goal with
  | |- continues _ ?m ?m => apply continues_refl
  | |- continues _ (readLoop _ ≫= _) (readLoop _ ≫= _) =>
      apply continues_bind_l;
      [apply continues_readLoop
      |intros _ e0 _; split; [exact Logic.I | apply benign_afterLoop]]
  | |- continues _ (if ?b then _ else _) (if ?b then _ else _) => destruct b
  | |- continues _ (match ?x with _ => _ end) (match ?x with _ => _ end) => destruct x
  | |- continues _ (_ ≫= _) (_ ≫= _) => apply continues_bind_r; intros ?
  end.

Lemma continues_start (cfg : AutomationConfig) (now : Z) (env : RunEnv)
    (pre post : list Input) (clock : Z) :
  continues ordinary (start cfg now (withScript pre env))
    (start cfg now (withScript (pre ++ Arrives (CmdStop, clock) :: post) env)).
Proof.
  unfold start. apply continues_bind_r; intros _.
  apply continues_finally; [|apply quiet_cleanup].
  apply continues_tryCatch; [|intros t; apply quiet_startCatch].
  unfold startTry, readPages.
  cbn [withScript launch_signals launch newPage login_env open_env read_env
       read_signals read_dom read_clock read_script].
  repeat continue_step.
Qed.

Lemma withScript_same (env : RunEnv) : withScript (read_script (read_env env)) env = env.
Proof. now destruct env as [? ? ? ? ? []]. Qed.

(** A stop command that arrives while the loop sleeps between two passes
    ends the run without a completed event or state. *)
Lemma forced_stop_is_not_completed (cfg : AutomationConfig) (now : Z) (env : RunEnv)
    (e : Engine) (pre post : list Input) (clock : Z) :
  read_script (read_env env) = pre ++ Arrives (CmdStop, clock) :: post ->
  outcome (start cfg now (withScript pre env)) e = Suspended ->
  count isCompleted (trace (start cfg now env) e) = 0%nat /\
  count isCompletedState (trace (start cfg now env) e) = 0%nat.
Proof.
  intros Hscript Hs.
  rewrite <- (withScript_same env), Hscript.
  pose proof (continues_start cfg now env pre post clock e) as Hc.
  destruct (once_start cfg now (withScript pre env) e) as (Hle & Hsame & Hdone).
  unfold outcome, trace in *.
  destruct (start cfg now (withScript pre env) e) as [[r e1] t1]; cbn [fst snd] in *.
  subst r. destruct Hc as (t2 & -> & Hall).
  destruct (count_ordinary _ Hall) as [H1 H2].
  rewrite !count_app, H1, H2, Hsame.
  assert (count isCompleted t1 = 0%nat).
  { destruct (count isCompleted t1) as [|[|n]]; [reflexivity | | lia].
    destruct (Hdone eq_refl) as [a Ha]. discriminate Ha. }
  lia.
Qed.

(** C6, as amended.  For every run with a known queue-entry id whose
    entry is in the store: the bridge marks the entry at most once, and
    no call but a mark writes history or status.  When the numbers of the
    run fit the 32-bit columns of the store, each mark appends exactly
    one history entry, and a run that ends completed marks the entry
    exactly once: exactly one history entry is recorded and the entry's
    status becomes completed.  A run that emits no completed event marks
    nothing: no history entry is recorded and the status is left as it
    was.  Such is every run in which the operator's stop arrives while
    the loop, still running, sleeps between two passes. *)
Theorem history_recorded_once_for_completed_run
    (cfg : AutomationConfig) (now : Z) (env : RunEnv) (e : Engine)
    (id : string) (db : Storage.Db) (book : Storage.BookQueue) (clock : Z) :
  cfg_bookQueueId cfg = Some id -> JS.truthyStr id = true ->
  Storage.booksQueue db !! id = Some book ->
  let t := trace (start cfg now env) e in
  let calls := Routes.storeCalls (reset cfg now e) t in
  let db' := Routes.performAll clock calls db in
  (Routes.marks calls <= 1)%nat /\
  (List.length (Storage.readingHistory db')
   <= List.length (Storage.readingHistory db) + Routes.marks calls)%nat /\
  (forallb Routes.inRange calls = true ->
   List.length (Storage.readingHistory db')
   = (List.length (Storage.readingHistory db) + Routes.marks calls)%nat) /\
  (forallb Routes.inRange calls = true ->
   count isCompletedState t = 1%nat ->
   Routes.marks calls = 1%nat /\
   List.length (Storage.readingHistory db')
   = S (List.length (Storage.readingHistory db)) /\
   Storage.status <$> Storage.booksQueue db' !! id = Some "completed") /\
  (count isCompletedState t = 0%nat ->
   Routes.marks calls = 0%nat /\
   Storage.readingHistory db' = Storage.readingHistory db /\
   Storage.status <$> Storage.booksQueue db' !! id = Some (Storage.status book)) /\
  (forall pre stopAt post,
     read_script (read_env env) = pre ++ Arrives (CmdStop, stopAt) :: post ->
     outcome (start cfg now (withScript pre env)) e = Suspended ->
     count isCompleted t = 0%nat /\
     count isCompletedState t = 0%nat /\
     Routes.marks calls = 0%nat /\
     Storage.readingHistory db' = Storage.readingHistory db /\
     Storage.status <$> Storage.booksQueue db' !! id = Some (Storage.status book)).
Proof.
  intros Hid Htruthy Hbook. cbv zeta.
  pose proof (completed_carry_id cfg now env e id Hid Htruthy) as Hall.
  assert (Hq : bookQueueId (reset cfg now e) = Some id).
  { cbn [reset bookQueueId]. rewrite Hid. cbn [orUndefined]. now rewrite Htruthy. }
  destruct (calls_of_trace (reset cfg now e) id _ Hq Htruthy Hall) as [Hmarks Htarget].
  destruct (performAll_effect clock id _ Htarget db book Hbook)
    as (entries & Hhist & Hlen & Hzero & Hfit).
  destruct (once_start cfg now env e) as (Hle & Hsame & _).
  rewrite Hmarks in Hlen, Hzero, Hfit |- *.
  rewrite Hhist, length_app.
  assert (Hnone : count isCompleted (trace (start cfg now env) e) = 0%nat ->
                  Storage.readingHistory db ++ entries = Storage.readingHistory db /\
                  Storage.status <$>
                    Storage.booksQueue
                      (Routes.performAll clock
                         (Routes.storeCalls (reset cfg now e)
                            (trace (start cfg now env) e)) db) !! id
                  = Some (Storage.status book)).
  { intros Hz. rewrite Hz in Hlen. split; [|exact (Hzero Hz)].
    destruct entries; [apply app_nil_r | cbn in Hlen; lia]. }
  split; [exact Hle|]. split; [lia|]. split; [|split; [|split]].
  - intros Hin. destruct (Hfit Hin) as [-> _]. reflexivity.
  - intros Hin Hs. destruct (Hfit Hin) as [Hl Hst].
    rewrite Hsame in Hs. rewrite Hs in *. cbn [Nat.eqb] in Hst.
    repeat split; [lia | exact Hst].
  - intros Hs. rewrite Hsame in Hs. split; [exact Hs | exact (Hnone Hs)].
  - intros pre stopAt post Hscript Hsusp.
    destruct (forced_stop_is_not_completed cfg now env e pre post stopAt Hscript Hsusp)
      as [Hc Hcs].
    split; [exact Hc|]. split; [exact Hcs|]. split; [exact Hc | exact (Hnone Hc)].
Qed.

Lemma history_recorded_once_for_completed_run_witness :
  cfg_bookQueueId Samples.cfg = Some "q1" /\
  Storage.booksQueue Samples.db !! "q1" = Some Samples.queued /\
  forallb Routes.inRange
    (Routes.storeCalls (reset Samples.cfg 1000 fresh)
       (trace (start Samples.cfg 1000 Samples.completedRun) fresh)) = true /\
  count isCompletedState (trace (start Samples.cfg 1000 Samples.completedRun) fresh) = 1%nat /\
  read_script (read_env Samples.stoppedRun)
  = [Wakes (Samples.passOn Samples.turnablePage 4000);
     Wakes (Samples.passOn Samples.turnablePage 64000)]
    ++ Arrives (CmdStop, 70000) :: [Wakes (Samples.passOn Samples.turnablePage 124000)] /\
  outcome
    (start Samples.cfg 1000
       (withScript [Wakes (Samples.passOn Samples.turnablePage 4000);
                    Wakes (Samples.passOn Samples.turnablePage 64000)]
          Samples.stoppedRun)) fresh = Suspended /\
  Storage.status <$>
    Storage.booksQueue
      (Routes.performAll 125000
         (Routes.storeCalls (reset Samples.cfg 1000 fresh)
            (trace (start Samples.cfg 1000 Samples.completedRun) fresh))
         Samples.db) !! "q1"
  = Some "completed" /\
  Storage.readingHistory
    (Routes.performAll 125000
       (Routes.storeCalls (reset Samples.cfg 1000 fresh)
          (trace (start Samples.cfg 1000 Samples.stoppedRun) fresh))
       Samples.db)
  = Storage.readingHistory Samples.db.
Proof.
  split; [reflexivity|]. split; [reflexivity|]. split; [reflexivity|].
  split; [reflexivity|]. split; [reflexivity|]. split; [reflexivity|].
  split.
  - apply (history_recorded_once_for_completed_run Samples.cfg 1000 Samples.completedRun
             fresh "q1" Samples.db Samples.queued 125000);
      reflexivity.
  - apply (history_recorded_once_for_completed_run Samples.cfg 1000 Samples.stoppedRun
             fresh "q1" Samples.db Samples.queued 125000 eq_refl eq_refl eq_refl)
      with (pre := [Wakes (Samples.passOn Samples.turnablePage 4000);
                    Wakes (Samples.passOn Samples.turnablePage 64000)])
           (stopAt := 70000)
           (post := [Wakes (Samples.passOn Samples.turnablePage 124000)]);
      reflexivity.
Defined.

(** C6 as stated fails in two ways.  A run stopped by the operator is
    not recorded: the run of the sample queue entry turns two pages and
    is stopped; it ends in the idle state with no history entry and the
    entry still pending.  A completed run is not recorded either when
    its numbers do not fit the store: on a page that shows the count next
    to the ISBN the total is read as 1209788535914849; the run ends
    completed, its one mark is refused, and the store is left as it
    was. *)
Lemma history_counterexample :
  let t := trace (start Samples.cfg 1000 Samples.stoppedRun) fresh in
  let db' :=
    Routes.performAll 125000 (Routes.storeCalls (reset Samples.cfg 1000 fresh) t)
      Samples.db in
  let t2 := trace (start Samples.cfg 1000 Samples.isbnRun) fresh in
  let calls2 := Routes.storeCalls (reset Samples.cfg 1000 fresh) t2 in
  (outcome (start Samples.cfg 1000 Samples.stoppedRun) fresh = Done tt /\
   shouldStop (final (start Samples.cfg 1000 Samples.stoppedRun) fresh) = true /\
   count isIdleState t = 1%nat /\
   Storage.readingHistory db' = [] /\
   List.length (Storage.readingHistory db') <> 1%nat /\
   Storage.status <$> Storage.booksQueue db' !! "q1" = Some "pending") /\
  (outcome (start Samples.cfg 1000 Samples.isbnRun) fresh = Done tt /\
   count isCompletedState t2 = 1%nat /\
   List.filter Routes.isMark calls2
   = [Routes.MarkBookCompleted "q1" 2 1209788535914849 (123000 # 1000)%Q] /\
   Storage.markBookCompleted "q1" 2 1209788535914849 (123000 # 1000)%Q 125000 Samples.db
   = (Samples.db, Storage.Throws) /\
   Routes.performAll 125000 calls2 Samples.db = Samples.db).
Proof.
  cbv zeta. repeat split; try reflexivity. vm_compute. discriminate.
Qed.

End History.

(** ** Validation of the start command *)

Section Validation.

Import AutomationService.

Lemma stringMin1_some (v : JsValue) (s : string) :
  stringMin1 v = Some s -> v = JString s /\ s <> EmptyString.
Proof.
  destruct v as [| | |q|s']; cbn [stringMin1]; try discriminate.
  destruct s'; cbn; [discriminate|]. intros [= <-]. split; [reflexivity | discriminate].
Qed.

Lemma raField_some (v : JsValue) (s : string) :
  raField v = Some s ->
  v = JString s /\ s <> EmptyString /\ JS.testDigitsTwoLetters s = true.
Proof.
  unfold raField. destruct (stringMin1 v) as [s'|] eqn:E; [|discriminate].
  destruct (JS.testDigitsTwoLetters s') eqn:T; [|discriminate].
  intros [= <-]. destruct (stringMin1_some _ _ E). auto.
Qed.

Lemma intervalField_some (v : JsValue) (iv : Q) :
  intervalField v = Some iv ->
  ((60 # 1) <= iv)%Q /\ (iv <= (300 # 1))%Q /\
  (v = JUndefined /\ iv = (60 # 1)%Q \/ v = JNumber iv).
Proof.
  destruct v as [| | |q|s]; cbn [intervalField]; try discriminate.
  - intros [= <-]. repeat split; try discriminate. now left.
  - destruct (Qle_bool (60 # 1) q) eqn:E1; [|discriminate].
    destruct (Qle_bool q (300 # 1)) eqn:E2; [|discriminate].
    intros [= <-]. apply Qle_bool_iff in E1, E2. auto.
Qed.

Lemma intervalField_outside (q : Q) :
  ~ (((60 # 1) <= q)%Q /\ (q <= (300 # 1))%Q) -> intervalField (JNumber q) = None.
Proof.
  intros H. cbn [intervalField].
  destruct (Qle_bool (60 # 1) q) eqn:E1; [|reflexivity].
  destruct (Qle_bool q (300 # 1)) eqn:E2; [|reflexivity].
  apply Qle_bool_iff in E1, E2. tauto.
Qed.

Lemma stringMin1_given (s : string) :
  s <> EmptyString -> stringMin1 (JString s) = Some s.
Proof. destruct s; [congruence | reflexivity]. Qed.

Lemma raField_given (s : string) :
  JS.testDigitsTwoLetters s = true -> raField (JString s) = Some s.
Proof.
  intros H. unfold raField. rewrite stringMin1_given; [now rewrite H|].
  intros ->. discriminate H.
Qed.

Lemma intervalField_inside (q : Q) :
  ((60 # 1) <= q)%Q -> (q <= (300 # 1))%Q -> intervalField (JNumber q) = Some q.
Proof.
  intros H1 H2. cbn [intervalField].
  apply Qle_bool_iff in H1, H2. now rewrite H1, H2.
Qed.

(** C7, as amended.  A start command is accepted only if its identifier
    is digits followed by two letters, its secret (and book reference) is
    non-empty and its interval, when given, lies in [60,300]; the
    accepted interval is the one given, and 60 when none is given.
    Conversely a command with such an identifier, a non-empty secret and
    book reference, and a queue id that is a string or absent, is
    accepted: without an interval the run starts with 60, with an
    interval in [60,300] it starts with that interval.  An interval
    outside [60,300] is not clamped: the command is rejected with the
    error message for an invalid configuration and no run starts. *)
Theorem start_command_validation (p : Payload) (now : Z) :
  (forall cfg,
     safeParse (Some p) = Some cfg ->
     (((60 # 1) <= cfg_interval cfg)%Q /\ (cfg_interval cfg <= (300 # 1))%Q) /\
     (p_interval p = JNumber (cfg_interval cfg) \/
      p_interval p = JUndefined /\ cfg_interval cfg = (60 # 1)%Q) /\
     (p_ra p = JString (cfg_ra cfg) /\ JS.testDigitsTwoLetters (cfg_ra cfg) = true) /\
     (p_password p = JString (cfg_password cfg) /\ cfg_password cfg <> EmptyString) /\
     cfg_bookSlug cfg <> EmptyString /\
     Routes.onMessage (Some {| Routes.type := "start"; Routes.payload := Some p |}) now
     = Routes.Starts cfg) /\
  (forall ra password slug qid iv,
     p_ra p = JString ra -> JS.testDigitsTwoLetters ra = true ->
     p_password p = JString password -> password <> EmptyString ->
     p_bookSlug p = JString slug -> slug <> EmptyString ->
     optionalString (p_bookQueueId p) = Some qid ->
     p_interval p = JUndefined /\ iv = (60 # 1)%Q \/
     p_interval p = JNumber iv /\ ((60 # 1) <= iv)%Q /\ (iv <= (300 # 1))%Q ->
     safeParse (Some p)
     = Some {| cfg_ra := ra; cfg_password := password; cfg_bookSlug := slug;
               cfg_interval := iv; cfg_bookQueueId := qid |} /\
     Routes.onMessage (Some {| Routes.type := "start"; Routes.payload := Some p |}) now
     = Routes.Starts {| cfg_ra := ra; cfg_password := password; cfg_bookSlug := slug;
                        cfg_interval := iv; cfg_bookQueueId := qid |}) /\
  (forall q,
     p_interval p = JNumber q ->
     ~ (((60 # 1) <= q)%Q /\ (q <= (300 # 1))%Q) ->
     safeParse (Some p) = None /\
     Routes.onMessage (Some {| Routes.type := "start"; Routes.payload := Some p |}) now
     = Routes.Replies (Routes.error "Configuração inválida")).
Proof.
  split; [|split].
  - intros cfg H. assert (H' := H). cbn [safeParse] in H.
    destruct (raField (p_ra p)) as [r|] eqn:Er; [|discriminate].
    destruct (stringMin1 (p_password p)) as [pw|] eqn:Ep; [|discriminate].
    destruct (stringMin1 (p_bookSlug p)) as [slug|] eqn:Es; [|discriminate].
    destruct (intervalField (p_interval p)) as [iv|] eqn:Ei; [|discriminate].
    destruct (optionalString (p_bookQueueId p)) as [qid|] eqn:Eq; [|discriminate].
    injection H as <-. cbn [cfg_interval cfg_ra cfg_password cfg_bookSlug].
    destruct (raField_some _ _ Er) as (Hra & _ & Hshape).
    destruct (stringMin1_some _ _ Ep) as (Hpw & Hpwne).
    destruct (stringMin1_some _ _ Es) as (_ & Hslugne).
    destruct (intervalField_some _ _ Ei) as (Hlo & Hhi & Hgiven).
    repeat split; auto.
    + destruct Hgiven as [[? ?]|?]; auto.
    + unfold Routes.onMessage. cbn [Routes.type Routes.payload String.eqb Ascii.eqb Bool.eqb].
      now rewrite H'.
  - intros ra password slug qid iv Hra Hshape Hpw Hpwne Hslug Hslugne Hqid Hiv.
    assert (E : safeParse (Some p)
                = Some {| cfg_ra := ra; cfg_password := password; cfg_bookSlug := slug;
                          cfg_interval := iv; cfg_bookQueueId := qid |}).
    { cbn [safeParse].
      rewrite Hra, Hpw, Hslug, Hqid, (raField_given ra Hshape),
        (stringMin1_given password Hpwne), (stringMin1_given slug Hslugne).
      destruct Hiv as [[-> ->]|(-> & Hlo & Hhi)]; [reflexivity|].
      now rewrite (intervalField_inside iv Hlo Hhi). }
    split; [exact E|].
    unfold Routes.onMessage. cbn [Routes.type Routes.payload String.eqb Ascii.eqb Bool.eqb].
    now rewrite E.
  - intros q Hq Hout.
    assert (E : safeParse (Some p) = None).
    { cbn [safeParse]. rewrite Hq, (intervalField_outside q Hout).
      destruct (raField (p_ra p)); [|reflexivity].
      destruct (stringMin1 (p_password p)); [|reflexivity].
      destruct (stringMin1 (p_bookSlug p)); reflexivity. }
    split; [exact E|].
    unfold Routes.onMessage. cbn [Routes.type Routes.payload String.eqb Ascii.eqb Bool.eqb].
    now rewrite E.
Qed.

Lemma start_command_validation_witness :
  (exists cfg, safeParse (Some Samples.payload90) = Some cfg /\
               cfg_interval cfg = (90 # 1)%Q) /\
  safeParse (Some Samples.payload30) = None /\
  Routes.onMessage
    (Some {| Routes.type := "start"; Routes.payload := Some Samples.payloadPlain |}) 0
  = Routes.Starts Samples.cfg.
Proof.
  split; [|split].
  - eexists. split; [reflexivity|]. reflexivity.
  - apply (proj2 (proj2 (start_command_validation Samples.payload30 0)) (30 # 1)%Q).
    + reflexivity.
    + intros [H _]. revert H. vm_compute. intros H. now apply H.
  - apply (proj1 (proj2 (start_command_validation Samples.payloadPlain 0))
             "00001152877136sp" "segredo" "dom-casmurro" (Some "q1") (60 # 1)%Q);
      try reflexivity; try discriminate.
    left. split; reflexivity.
Defined.

(** C7 as stated fails: a start command with interval 30 does not start
    a run with the interval clamped to 60; it is rejected. *)
Lemma start_command_counterexample :
  (Spec.clamp (30 # 1) == 60 # 1)%Q /\
  safeParse (Some Samples.payload30) = None /\
  Routes.onMessage
    (Some {| Routes.type := "start"; Routes.payload := Some Samples.payload30 |}) 0
  = Routes.Replies (Routes.error "Configuração inválida") /\
  ~ (exists cfg, safeParse (Some Samples.payload30) = Some cfg /\
                 (cfg_interval cfg == Spec.clamp (30 # 1))%Q).
Proof.
  split; [reflexivity|]. split; [reflexivity|]. split; [reflexivity|].
  intros (cfg & H & _). discriminate H.
Qed.

End Validation.

(** ** Channel close *)

Section ChannelClose.

Import AutomationService Trace.

(** With the stop flag set, the next pass of the loop leaves it at once. *)
Lemma stopped_loop_leaves (e : Engine) (p : Pass) (rest : list Input) :
  shouldStop e = true -> readLoop (Wakes p :: rest) e = (Done tt, e, []).
Proof. intros H. cbn [readLoop]. rewrite run_get_bind, H. reflexivity. Qed.

(** C8, as amended.  On channel close the handler sets the stop flag of
    the session's engine (clearing its pause flag) and releases the
    registry slot at once; it does not wait for, or perform, the
    teardown: the engine's browser session is as it was.  The teardown
    comes later, from the run itself: at its next pass the loop sees the
    flag and leaves, and the final cleanup step closes the browser. *)
Theorem close_sets_stop_and_releases_slot
    (srv : Routes.Server) (sessionId : string) (ref : nat) (session : Engine) :
  Routes.sessions srv !! sessionId = Some ref ->
  Routes.heap srv !! ref = Some session ->
  let srv' := fst (Routes.onClose sessionId srv) in
  let stopped := final stop session in
  Routes.sessions srv' !! sessionId = None /\
  Routes.heap srv' !! ref = Some stopped /\
  (shouldStop stopped = true /\ isPaused stopped = false) /\
  (browser stopped = browser session /\ page stopped = page session) /\
  snd (Routes.onClose sessionId srv)
  = [EvLog LogType.warning [Txt "Parando automação..."]] /\
  (forall p rest, readLoop (Wakes p :: rest) stopped = (Done tt, stopped, [])) /\
  browser (final cleanup stopped) = None.
Proof.
  intros Hs Hh. cbv zeta. unfold Routes.onClose. rewrite Hs, Hh.
  cbn [fst snd Routes.sessions Routes.heap].
  rewrite lookup_delete_eq, lookup_insert_eq.
  do 2 (split; [reflexivity|]). do 2 (split; [now split|]).
  split; [reflexivity|]. split.
  - intros p rest. now apply stopped_loop_leaves.
  - apply cleanup_closes.
Qed.

Lemma close_sets_stop_and_releases_slot_witness :
  Routes.sessions Samples.server !! "s1" = Some 0%nat /\
  Routes.heap Samples.server !! 0%nat = Some Samples.running /\
  Routes.sessions (fst (Routes.onClose "s1" Samples.server)) !! "s1" = None /\
  Routes.heap (fst (Routes.onClose "s1" Samples.server)) !! 0%nat
  = Some (final stop Samples.running).
Proof.
  split; [reflexivity|]. split; [reflexivity|].
  pose proof (close_sets_stop_and_releases_slot Samples.server "s1" 0%nat
                Samples.running eq_refl eq_refl) as (H1 & H2 & _).
  split; [exact H1 | exact H2].
Defined.

(** C8 as stated fails: when the handler has released the slot of a
    reading session, the browser session of its engine is still open. *)
Lemma close_counterexample :
  let srv' := fst (Routes.onClose "s1" Samples.server) in
  Routes.sessions srv' !! "s1" = None /\
  browser <$> Routes.heap srv' !! 0%nat = Some (Some 7%nat).
Proof. cbv zeta. split; reflexivity. Qed.

End ChannelClose.

(** ** Catalog scrape *)

Section Scrape.

Import BookBrowserService.

Lemma scanHeadings_bound (els : list Heading) (processed : gset string)
    (categories : list BookCategory) :
  Forall (fun c => (List.length (books c) <= 20)%nat) categories ->
  Forall (fun c => (List.length (books c) <= 20)%nat)
    (scanHeadings els processed categories).
Proof.
  revert processed categories.
  induction els as [|el rest IH]; intros processed categories Hacc;
    cbn [scanHeadings]; [exact Hacc|].
  destruct (isCategoryName (heading_text el) processed); [|now apply IH].
  apply IH.
  destruct (0 <? List.length _)%nat; [|exact Hacc].
  apply Forall_app. split; [exact Hacc|].
  constructor; [|constructor]. cbn [books]. apply firstn_le_length.
Qed.

Lemma flatScan_bound (env : ScrapeEnv) :
  Forall (fun c => name c = "Livros Disponíveis" /\ (List.length (books c) <= 50)%nat)
    (flatScan env) /\
  (List.length (flatScan env) <= 1)%nat.
Proof.
  unfold flatScan. destruct (0 <? List.length _)%nat.
  - split; [|cbn; lia]. constructor; [|constructor]. cbn [name books].
    split; [reflexivity | apply firstn_le_length].
  - split; [constructor | cbn; lia].
Qed.

(** C10.  Every category built from a heading holds at most 20 books.
    The flat scan, used only when the heading scan finds no category,
    yields at most one category, named Livros Disponíveis, with at most
    50 books.  The result of the scrape is the one or the other. *)
Theorem scrape_category_bounds (page : option nat) (env : ScrapeEnv) :
  let fromHeadings := scanHeadings (categoryElements env) ∅ [] in
  Forall (fun c => (List.length (books c) <= 20)%nat) fromHeadings /\
  (Forall (fun c => name c = "Livros Disponíveis" /\ (List.length (books c) <= 50)%nat)
     (flatScan env) /\
   (List.length (flatScan env) <= 1)%nat) /\
  (scrapeBooks page env = [] \/
   fromHeadings <> [] /\ scrapeBooks page env = fromHeadings \/
   fromHeadings = [] /\ scrapeBooks page env = flatScan env).
Proof.
  cbv zeta. split; [|split].
  - apply scanHeadings_bound. constructor.
  - apply flatScan_bound.
  - unfold scrapeBooks. destruct page as [pg|]; [|now left]. right.
    destruct (scanHeadings (categoryElements env) ∅ []) as [|c cs]; cbn.
    + now right.
    + left. split; [discriminate | reflexivity].
Qed.

End Scrape.

(* ===================================================================== *)
(** * Further properties of the code *)
(* ===================================================================== *)

(** ** Operator commands *)

Section Commands.

Import AutomationService Trace.

(** X1.  Pausing an engine that is already paused changes nothing and
    emits nothing: two pauses in a row are one pause, and the pause still
    starts at the time of the first. *)
Theorem pause_twice_is_pause_once (e : Engine) (t1 t2 : Z) :
  (pause t1;; pause t2) e = pause t1 e /\
  isPaused (final (pause t1) e) = true.
Proof.
  unfold final. rewrite run_bind. destruct (isPaused e) eqn:Hp.
  - rewrite !run_pause_paused by exact Hp. now split.
  - rewrite run_pause by exact Hp. rewrite run_pause_paused by reflexivity.
    now split.
Qed.

(** X2.  Resuming an engine that is not paused changes nothing and emits
    nothing, so that two resumes in a row are one resume and the pause is
    deducted from the elapsed time once. *)
Theorem resume_twice_is_resume_once (e : Engine) (t1 t2 : Z) :
  (resume t1;; resume t2) e = resume t1 e /\
  isPaused (final (resume t1) e) = false.
Proof.
  unfold final. rewrite run_bind. destruct (isPaused e) eqn:Hp.
  - rewrite run_resume by exact Hp. rewrite run_resume_running by reflexivity.
    now split.
  - rewrite !run_resume_running by exact Hp. now split.
Qed.

Lemma run_deliver_cons (s : Signal) (rest : list Signal) (e e1 : Engine) (t1 : list Event) :
  handle s e = (Done tt, e1, t1) ->
  final (deliver (s :: rest)) e = final (deliver rest) e1.
Proof.
  intros H. cbn [deliver]. unfold final. rewrite run_bind, H.
  now destruct (deliver rest e1) as [[r e2] t2].
Qed.

(** X3.  Pauses add up: after any number of pause and resume pairs the
    engine is running again, its paused time has grown by the total
    length of the pauses, and the elapsed time it reports is smaller by
    that length than it would have been without them. *)
Theorem pauses_add_up (e : Engine) (intervals : list (Z * Z)) :
  isPaused e = false ->
  let e' := final (deliver (pauses intervals)) e in
  isPaused e' = false /\
  pausedTime e' = pausedTime e + totalLength intervals /\
  startTime e' = startTime e /\
  (forall now, startTime e <> 0 ->
     (getElapsedTime e' now
      == getElapsedTime e now - inject_Z (totalLength intervals) / inject_Z 1000)%Q).
Proof.
  intros Hp. cbv zeta.
  assert (H : isPaused (final (deliver (pauses intervals)) e) = false /\
              pausedTime (final (deliver (pauses intervals)) e)
              = pausedTime e + totalLength intervals /\
              startTime (final (deliver (pauses intervals)) e) = startTime e).
  { revert e Hp. induction intervals as [|[a b] rest IH]; intros e Hp.
    - cbn. repeat split; [exact Hp | lia].
    - cbn [pauses flat_map app fst snd].
      rewrite (run_deliver_cons (CmdPause, a) _ e _ _ (run_pause e a Hp)).
      rewrite (run_deliver_cons (CmdResume, b) _ _ _ _
                 (run_resume (set_lastPauseStart a (set_isPaused true e)) b eq_refl)).
      cbn [pausedTime lastPauseStart set_isPaused set_lastPauseStart set_pausedTime].
      change (flat_map (fun iv : Z * Z => [(CmdPause, iv.1); (CmdResume, iv.2)]) rest)
        with (pauses rest).
      edestruct IH as (H1 & H2 & H3); [|split; [exact H1|split; [rewrite H2|rewrite H3]]];
        cbn [isPaused pausedTime startTime set_isPaused set_lastPauseStart set_pausedTime
             totalLength fold_right fst snd]; try reflexivity.
      fold (totalLength rest). lia. }
  destruct H as (H1 & H2 & H3). repeat split; try assumption.
  intros now Hs. rewrite !elapsed_formula by (rewrite ?H3; exact Hs).
  rewrite H2, H3.
  replace (now - startTime e - (pausedTime e + totalLength intervals))
    with ((now - startTime e - pausedTime e) - totalLength intervals) by lia.
  apply Qdiv1000_minus.
Qed.

Lemma pauses_add_up_witness :
  isPaused Samples.running = false /\
  pausedTime (final (deliver (pauses [(5000, 8000); (20000, 21000)])) Samples.running)
  = 4000.
Proof.
  split; [reflexivity|].
  pose proof (pauses_add_up Samples.running [(5000, 8000); (20000, 21000)] eq_refl)
    as (_ & H & _).
  exact H.
Defined.

End Commands.

(** ** Invariants, events and endings of a computation *)

Section Behaves.

Import AutomationService Trace.

Context (I : Engine -> Prop) (P : Event -> Prop) (ok : Outcome unit -> Prop).

Lemma behaves_ret {A} (a : A) : ok (Done tt) -> behaves I P ok (mret a : Act A).
Proof. intros Hok e He. split; [exact He | split; [constructor | exact Hok]]. Qed.

Lemma behaves_bind {A B} (m : Act A) (k : A -> Act B) :
  behaves I P ok m -> (forall a, behaves I P ok (k a)) -> behaves I P ok (m ≫= k).
Proof.
  intros Hm Hk e He. destruct (Hm e He) as (H1 & H2 & H3).
  unfold final, trace, outcome in *. rewrite run_bind.
  destruct (m e) as [[[a| |] e1] t1]; cbn [fst snd forget] in *; auto.
  destruct (Hk a e1 H1) as (H4 & H5 & H6). unfold final, trace, outcome in *.
  destruct (k a e1) as [[r e2] t2]; cbn [fst snd] in *.
  split; [assumption | split; [now apply Forall_app | assumption]].
Qed.

(** Reading the fields: the continuation runs on the engine it is given. *)
Lemma behaves_get_bind {B} (k : Engine -> Act B) :
  (forall e0, I e0 -> behaves I P ok (k e0)) -> behaves I P ok (get ≫= k).
Proof.
  intros Hk e He. unfold final, trace, outcome. rewrite run_get_bind.
  exact (Hk e He e He).
Qed.

Lemma behaves_modify (f : Engine -> Engine) :
  (forall e, I e -> I (f e)) -> ok (Done tt) -> behaves I P ok (modify f).
Proof. intros Hf Hok e He. split; [now apply Hf | split; [constructor | exact Hok]]. Qed.

Lemma behaves_emit (ev : Event) : P ev -> ok (Done tt) -> behaves I P ok (emit ev).
Proof.
  intros Hev Hok e He. split; [exact He | split; [now repeat constructor | exact Hok]].
Qed.

Lemma behaves_throw {A} (t : Thrown) : ok (Raised t) -> behaves I P ok (throw t : Act A).
Proof. intros Hok e He. split; [exact He | split; [constructor | exact Hok]]. Qed.

Lemma behaves_suspend {A} : ok Suspended -> behaves I P ok (suspend : Act A).
Proof. intros Hok e He. split; [exact He | split; [constructor | exact Hok]]. Qed.

(** Inside a [try] block an exception is no ending of the whole. *)
Lemma behaves_tryCatch {A} (body : Act A) (handler : Thrown -> Act A) :
  behaves I P (fun o => (exists t, o = Raised t) \/ ok o) body ->
  (forall t, behaves I P ok (handler t)) ->
  behaves I P ok (tryCatch body handler).
Proof.
  intros Hb Hh e He. destruct (Hb e He) as (H1 & H2 & H3).
  unfold final, trace, outcome, tryCatch in *.
  destruct (body e) as [[[a|t|] e1] t1]; cbn [fst snd forget] in *.
  - destruct H3 as [[t Ht]|H3]; [discriminate Ht | auto].
  - destruct (Hh t e1 H1) as (H4 & H5 & H6). unfold final, trace, outcome in *.
    destruct (handler t e1) as [[r e2] t2]; cbn [fst snd] in *.
    split; [assumption | split; [now apply Forall_app | assumption]].
  - destruct H3 as [[t Ht]|H3]; [discriminate Ht | auto].
Qed.

Lemma behaves_emitProgress (now : Z) :
  (forall e, I e -> P (EvProgress (progressOf e now))) -> ok (Done tt) ->
  behaves I P ok (emitProgress now).
Proof.
  intros H Hok e He.
  split; [exact He | split; [repeat constructor; now apply H | exact Hok]].
Qed.

Lemma behaves_emitCompleted (now : Z) :
  (forall e, I e -> P (EvCompleted (completedOf e now))) -> ok (Done tt) ->
  behaves I P ok (emitCompleted now).
Proof.
  intros H Hok e He.
  split; [exact He | split; [repeat constructor; now apply H | exact Hok]].
Qed.

End Behaves.

(** Decompose a computation along its structure; the fields read by the
    code stay related to the invariant. *)
Ltac behave_step :=
  lazymatch goal with
  | |- Trace.behaves _ _ _ (mbind _ AutomationService.get) =>
      apply behaves_get_bind; intros ? ?
  | |- Trace.behaves _ _ _ (mbind _ _) => apply behaves_bind; [|intros ?]
  | |- Trace.behaves _ _ _ (mret _) => apply behaves_ret
  | |- Trace.behaves _ _ _ (AutomationService.modify _) => apply behaves_modify
  | |- Trace.behaves _ _ _ (AutomationService.emit _) => apply behaves_emit
  | |- Trace.behaves _ _ _ (AutomationService.emitState _ _ _) => apply behaves_emit
  | |- Trace.behaves _ _ _ (AutomationService.emitLog _ _) => apply behaves_emit
  | |- Trace.behaves _ _ _ (AutomationService.emitError _) => apply behaves_emit
  | |- Trace.behaves _ _ _ (AutomationService.throw _) => apply behaves_throw
  | |- Trace.behaves _ _ _ AutomationService.suspend => apply behaves_suspend
  | |- Trace.behaves _ _ _ (AutomationService.tryCatch _ _) =>
      apply behaves_tryCatch; [|intros ?]
  | |- Trace.behaves _ _ _ (AutomationService.emitProgress _) =>
      apply behaves_emitProgress
  | |- Trace.behaves _ _ _ (AutomationService.emitCompleted _) =>
      apply behaves_emitCompleted
  | |- Trace.behaves _ _ _ (AutomationService.await ?r) =>
      destruct r; cbn [AutomationService.await]
  | |- Trace.behaves _ _ _ (AutomationService.awaitOk ?r) =>
      destruct r; cbn [AutomationService.awaitOk]
  | |- Trace.behaves _ _ _ (if ?b then _ else _) => destruct b eqn:?
  | |- Trace.behaves _ _ _ (match ?x with _ => _ end) => destruct x eqn:?
  | |- Trace.behaves _ _ _ (let _ := _ in _) => cbv zeta
  end.

Ltac behave := repeat behave_step.

(** ** Command handlers under an invariant *)

Section Handlers.

Import AutomationService Trace.

Context (I : Engine -> Prop) (P : Event -> Prop) (ok : Outcome unit -> Prop).

Hypothesis I_isPaused : forall e b, I e -> I (set_isPaused b e).
Hypothesis I_lastPauseStart : forall e t, I e -> I (set_lastPauseStart t e).
Hypothesis I_pausedTime : forall e t, I e -> I (set_pausedTime t e).
Hypothesis I_shouldStop : forall e, I e -> I (set_shouldStop true e).
Hypothesis P_paused : P (EvStateChange paused None None).
Hypothesis P_reading : P (EvStateChange reading None None).
Hypothesis P_log : forall type message, P (EvLog type message).
Hypothesis ok_done : ok (Done tt).

Lemma behaves_handle (s : Signal) : behaves I P ok (handle s).
Proof.
  destruct s as [[] now]; unfold handle, pause, resume, stop; behave; auto.
Qed.

Lemma behaves_deliver (signals : list Signal) : behaves I P ok (deliver signals).
Proof.
  induction signals as [|s rest IH]; cbn [deliver]; behave; auto.
  apply behaves_handle.
Qed.

Lemma behaves_emitLogs (lines : list LogLine) : behaves I P ok (emitLogs lines).
Proof.
  induction lines as [|[type message] rest IH]; cbn [emitLogs]; behave; auto.
Qed.

End Handlers.

(** ** How the parts of a run can end *)

Section Endings.

Import AutomationService Trace.

Ltac ending :=
  first [ exact Logic.I
        | intros; exact Logic.I
        | intros; discriminate
        | right; intros; discriminate
        | left; eexists; reflexivity ].

Ltac handlers :=
  lazymatch goal with
  | |- behaves _ _ _ (deliver _) => apply behaves_deliver; ending
  | |- behaves _ _ _ (emitLogs _) => apply behaves_emitLogs; ending
  | |- _ => ending
  end.

Lemma readLoop_never_throws (script : list Input) :
  behaves (fun _ => True) (fun _ => True) (fun o => forall t, o <> Raised t)
    (readLoop script).
Proof.
  induction script as [|[s|p] rest IH]; cbn [readLoop]; behave;
    try exact IH; try (apply behaves_handle; ending); try ending;
    unfold turnPage, advance, endOfBook, afterClick, countPage, reprobe, checkDone;
    behave; handlers.
Qed.

(** X4.  Once the reading state is entered nothing makes the run throw:
    whatever the page does and whichever commands arrive, [readPages]
    returns or is still reading, so that a failure while turning a page
    never reaches the fatal-error path of [start]. *)
Theorem reading_never_throws (env : ReadEnv) (e : Engine) (thrown : Thrown) :
  outcome (readPages env) e <> Raised thrown.
Proof.
  assert (H : behaves (fun _ => True) (fun _ => True) (fun o => forall t, o <> Raised t)
                (readPages env)).
  { unfold readPages, afterLoop; behave;
      lazymatch goal with
      | |- behaves _ _ _ (readLoop _) => apply readLoop_never_throws
      | |- _ => handlers
      end. }
  destruct (H e Logic.I) as (_ & _ & Hok). specialize (Hok thrown).
  intros Heq. rewrite Heq in Hok. now apply Hok.
Qed.





End Endings.

(** ** The stop flag *)

Section StopFlag.

Import AutomationService Trace.

Ltac settled :=
  first [ exact Logic.I
        | reflexivity
        | discriminate
        | intros; exact Logic.I
        | intros; reflexivity
        | intros; discriminate
        | intros; assumption
        | right; discriminate
        | left; eexists; reflexivity ].

Ltac stopped :=
  lazymatch goal with
  | H : shouldStop ?e = true, H' : shouldStop ?e = false |- _ =>
      exfalso; rewrite H in H'; discriminate H'
  | |- behaves _ _ _ (deliver _) => apply behaves_deliver; settled
  | |- behaves _ _ _ (emitLogs _) => apply behaves_emitLogs; settled
  | |- _ => settled
  end.

(** With the stop flag set, a run keeps it set, emits nothing that
    belongs to an opened book and does not stay waiting. *)
Lemma startTry_stopped (env : RunEnv) :
  behaves (fun e => shouldStop e = true) (fun ev => pastLogin ev = false)
    (fun o => o <> Suspended) (startTry env).
Proof.
  unfold startTry, login, accessLeiasp, cleanup; behave; cbv beta in *; stopped.
Qed.

Lemma deliver_stop (signals : list Signal) (now : Z) (e : Engine) :
  In (CmdStop, now) signals \/ shouldStop e = true ->
  shouldStop (final (deliver signals) e) = true.
Proof.
  revert e. induction signals as [|[c t] rest IH]; intros e [Hin|Hs];
    try contradiction; try exact Hs.
  - destruct c.
    + destruct (isPaused e) eqn:Hp.
      * rewrite (run_deliver_cons (CmdPause, t) _ e _ _ (run_pause_paused e t Hp)).
        apply IH. destruct Hin as [[=]|Hin]. now left.
      * rewrite (run_deliver_cons (CmdPause, t) _ e _ _ (run_pause e t Hp)).
        apply IH. destruct Hin as [[=]|Hin]. now left.
    + destruct (isPaused e) eqn:Hp.
      * rewrite (run_deliver_cons (CmdResume, t) _ e _ _ (run_resume e t Hp)).
        apply IH. destruct Hin as [[=]|Hin]. now left.
      * rewrite (run_deliver_cons (CmdResume, t) _ e _ _ (run_resume_running e t Hp)).
        apply IH. destruct Hin as [[=]|Hin]. now left.
    + rewrite (run_deliver_cons (CmdStop, t) _ e _ _ (run_stop e)).
      apply IH. now right.
  - destruct (behaves_handle (fun e => shouldStop e = true) (fun _ => True)
                (fun o => o = Done tt)) with (s := (c, t)) (e := e)
      as (H1 & _ & H3); try settled.
    unfold final, outcome in H1, H3.
    destruct (handle (c, t) e) as [[[[]| |] e1] t1] eqn:Hh; try discriminate H3.
    rewrite (run_deliver_cons (c, t) _ e _ _ Hh). apply IH. now right.
Qed.

(** What the commands that arrive during a wait do to what follows:
    they move its starting point and add their events to the trace. *)
Lemma after_signals {B} (ev1 ev2 : Event) (signals : list Signal)
    (k : unit -> Act B) (e : Engine) :
  let m := emit ev1 ≫= (fun _ => emit ev2 ≫= (fun _ => deliver signals ≫= k)) in
  let m0 := emit ev1 ≫= (fun _ => emit ev2 ≫= (fun _ => deliver [] ≫= k)) in
  let e1 := final (deliver signals) e in
  outcome m e = outcome m0 e1 /\
  final m e = final m0 e1 /\
  forall P, Forall P (trace (deliver signals) e) -> Forall P (trace m0 e1) ->
            Forall P (trace m e).
Proof.
  cbv zeta. pose proof (deliver_returns signals e) as (Hd & _).
  unfold outcome, final, trace in *.
  rewrite !(run_bind (emit ev1)). cbn [emit].
  rewrite !(run_bind (emit ev2)). cbn [emit].
  rewrite !(run_bind (deliver _)). cbn [deliver mret Act_ret].
  destruct (deliver signals e) as [[r e1] t1]; cbn [fst snd] in *. subst r.
  destruct (k tt e1) as [[r e2] t2]. cbn [fst snd app].
  repeat split.
  intros P H1 H2. inversion H2 as [|? ? Ha H3]; subst. inversion H3 as [|? ? Hb H4]; subst.
  constructor; [exact Ha|]. constructor; [exact Hb|].
  apply Forall_app; split; assumption.
Qed.

Lemma startTry_signals (env : RunEnv) (e : Engine) :
  let env0 := {| launch_signals := []; launch := launch env; newPage := newPage env;
                 login_env := login_env env; open_env := open_env env;
                 read_env := read_env env |} in
  let e1 := final (deliver (launch_signals env)) e in
  outcome (startTry env) e = outcome (startTry env0) e1 /\
  final (startTry env) e = final (startTry env0) e1 /\
  forall P, Forall P (trace (deliver (launch_signals env)) e) ->
            Forall P (trace (startTry env0) e1) ->
            Forall P (trace (startTry env) e).
Proof.
  cbv zeta. unfold startTry.
  cbn [launch_signals launch newPage login_env open_env read_env].
  apply (after_signals (EvStateChange connecting None None)
           (EvLog LogType.info [Txt "Iniciando navegador..."])).
Qed.

Lemma count_none (p : Event -> bool) (t : list Event) :
  Forall (fun ev => p ev = false) t -> count p t = 0%nat.
Proof.
  unfold count. induction 1 as [|ev t Hev _ IH]; [reflexivity|].
  cbn [List.filter]. now rewrite Hev.
Qed.




(** X7.  A stop that arrives while the browser is being started ends the
    run before any book is opened: [start] returns, the browser session
    is closed, and the trace holds no loading, progress or completed
    event, and no idle state either. *)
Theorem stop_during_launch_ends_run (cfg : AutomationConfig) (now clock : Z)
    (env : RunEnv) (e : Engine) :
  In (CmdStop, clock) (launch_signals env) ->
  outcome (start cfg now env) e = Done tt /\
  browser (final (start cfg now env) e) = None /\
  count pastLogin (trace (start cfg now env) e) = 0%nat.
Proof.
  intros Hin.
  pose proof (startTry_signals env (reset cfg now e)) as (Ho & Hf & Ht).
  cbv zeta in Ho, Hf, Ht.
  set (env0 := {| launch_signals := []; launch := launch env; newPage := newPage env;
                  login_env := login_env env; open_env := open_env env;
                  read_env := read_env env |}) in *.
  set (e1 := final (deliver (launch_signals env)) (reset cfg now e)) in *.
  assert (Hs : shouldStop e1 = true) by (apply (deliver_stop _ clock); now left).
  destruct (startTry_stopped env0 e1 Hs) as (_ & H2 & H3).
  assert (Hd : Forall (fun ev => pastLogin ev = false)
                 (trace (deliver (launch_signals env)) (reset cfg now e))).
  { destruct (behaves_deliver (fun _ => True) (fun ev => pastLogin ev = false)
                (fun _ => True)) with (signals := launch_signals env)
      (e := reset cfg now e) as (_ & H & _); try settled. }
  specialize (Ht _ Hd H2). rewrite <- Ho in H3.
  unfold outcome, final, trace in *. rewrite run_start.
  destruct (startTry env (reset cfg now e)) as [[[[]|thrown|] e2] t2];
    cbn [fst snd forget] in *.
  - split; [reflexivity|]. split; [apply cleanup_closes | now apply count_none].
  - split; [reflexivity|]. split; [apply cleanup_closes|].
    apply count_none. apply Forall_app. split; [exact Ht|].
    repeat constructor.
  - now elim H3.
Qed.

Lemma stop_during_launch_ends_run_witness :
  In (CmdStop, 1200) (launch_signals Samples.stoppedWhileLaunching) /\
  outcome (start Samples.cfg 1000 Samples.stoppedWhileLaunching) fresh = Done tt.
Proof.
  split; [now left|].
  refine (proj1 (stop_during_launch_ends_run Samples.cfg 1000 1200
                   Samples.stoppedWhileLaunching fresh _)).
  now left.
Defined.

End StopFlag.

(** ** The reading loop, pass by pass *)

Section Passes.

Import AutomationService Trace.

Ltac kept :=
  first [ exact Logic.I
        | reflexivity
        | intros; exact Logic.I
        | intros; reflexivity
        | intros; assumption ].

Ltac keeping :=
  lazymatch goal with
  | |- behaves _ _ _ (deliver _) => apply behaves_deliver; kept
  | |- _ => kept
  end.

(** X8.  While the engine is paused and not stopped the loop turns no
    page: however many times it is woken, it consults nothing, changes
    nothing, emits nothing and is still waiting. *)
Theorem paused_loop_turns_no_page (naps : list Pass) (e : Engine) :
  isPaused e = true -> shouldStop e = false ->
  readLoop (List.map Wakes naps) e = (Suspended, e, []).
Proof.
  intros Hp Hs. induction naps as [|p rest IH]; [reflexivity|].
  cbn [List.map readLoop]. now rewrite run_get_bind, Hs, Hp.
Qed.

Lemma paused_loop_turns_no_page_witness :
  isPaused (set_isPaused true Samples.running) = true /\
  shouldStop (set_isPaused true Samples.running) = false /\
  readLoop (List.map Wakes [Samples.passOn Samples.turnablePage 4000;
                            Samples.passOn Samples.lastPage 4100])
    (set_isPaused true Samples.running)
  = (Suspended, set_isPaused true Samples.running, []).
Proof.
  split; [reflexivity|]. split; [reflexivity|].
  apply paused_loop_turns_no_page; reflexivity.
Defined.

Lemma handle_returns (s : Signal) (e : Engine) :
  exists e1 t1, handle s e = (Done tt, e1, t1) /\ currentPage e1 = currentPage e.
Proof.
  destruct (behaves_handle (fun e1 => currentPage e1 = currentPage e) (fun _ => True)
              (fun o => o = Done tt)) with (s := s) (e := e) as (H1 & _ & H3);
    try kept.
  unfold final, outcome in *.
  destruct (handle s e) as [[[[]| |] e1] t1]; try discriminate H3.
  now exists e1, t1.
Qed.

(** X9.  A stop command ends the loop at its next wake-up, before the
    page is consulted again, whatever the rest of the script holds; so
    every script in which a stop is followed by a wake-up makes the loop
    return. *)
Theorem stop_ends_the_loop (script rest : list Input) (now : Z) (p : Pass) (e : Engine) :
  readLoop (Arrives (CmdStop, now) :: Wakes p :: rest) e
  = (Done tt, set_isPaused false (set_shouldStop true e),
     [EvLog LogType.warning [Txt "Parando automação..."]]) /\
  outcome (readLoop (script ++ Arrives (CmdStop, now) :: Wakes p :: rest)) e = Done tt.
Proof.
  assert (H : forall e0, readLoop (Arrives (CmdStop, now) :: Wakes p :: rest) e0
                         = (Done tt, set_isPaused false (set_shouldStop true e0),
                            [EvLog LogType.warning [Txt "Parando automação..."]])).
  { intros e0. reflexivity. }
  split; [apply H|].
  revert e. induction script as [|[s|q] tail IH]; intros e.
  - cbn [app]. unfold outcome. now rewrite H.
  - cbn [app readLoop]. destruct (handle_returns s e) as (e1 & t1 & Hh & _).
    rewrite (outcome_bind_done _ _ e e1 tt t1 Hh). apply IH.
  - cbn [app readLoop]. unfold outcome. rewrite run_get_bind.
    destruct (shouldStop e); [reflexivity|].
    destruct (isPaused e); [apply IH|].
    rewrite run_bind. pose proof (turnPage_turns q e) as Hturn.
    destruct (turnPage q e) as [[[[|]|t|] e1] t1]; cbn [pageTurned] in Hturn;
      try contradiction; [reflexivity|].
    specialize (IH e1). unfold outcome in IH.
    destruct (readLoop _ e1) as [[r e2] t2]. exact IH.
Qed.

(** After a click the page counter is one more than before. *)
Lemma afterClick_counts (p : Pass) (e : Engine) :
  currentPage (final (afterClick p) e) = currentPage e + 1.
Proof.
  assert (H : behaves (fun e1 => currentPage e1 = currentPage e + 1) (fun _ => True)
                (fun _ => True) (reprobe p ≫= fun _ => checkDone p)).
  { unfold reprobe, checkDone; behave; keeping. }
  unfold afterClick, countPage. unfold final. rewrite run_bind.
  rewrite run_bind. cbn [modify]. unfold emitProgress. rewrite run_get_bind. cbn [emit].
  destruct (H (set_currentPage (currentPage e + 1) e) eq_refl) as (H1 & _).
  unfold final in H1.
  destruct ((reprobe p ≫= fun _ => checkDone p) _) as [[r e2] t2]. exact H1.
Qed.

Lemma advance_counts (p : Pass) (e : Engine) :
  currentPage (final (advance p) e) = currentPage e \/
  currentPage (final (advance p) e) = currentPage e + 1.
Proof.
  unfold advance.
  destruct (query (pass_page p) "[data-testid='next-page-button']") as [nextButton|];
    cbv zeta;
    [destruct (el_disabled nextButton)
    |destruct (clickFirstAlt (pass_page p) altSelectors); cbn [negb]];
    try (right; apply afterClick_counts); now left.
Qed.

(** A pass counts one page or none. *)
Lemma turnPage_counts (p : Pass) (e : Engine) :
  currentPage (final (turnPage p) e) = currentPage e \/
  currentPage (final (turnPage p) e) = currentPage e + 1.
Proof.
  pose proof (deliver_returns (pass_lookup_signals p) e) as (Hd & _ & _ & _ & Hc & _).
  destruct (pass_fault p) as [t|] eqn:Hf.
  - left. unfold turnPage, final, tryCatch in *. rewrite Hf. cbn [awaitOk].
    rewrite run_bind. unfold outcome in Hd.
    destruct (deliver (pass_lookup_signals p) e) as [[r e1] t1]; cbn [fst snd] in *.
    subst r. exact Hc.
  - pose proof (advance_counts p (final (deliver (pass_lookup_signals p)) e)) as H.
    rewrite Hc in H.
    replace (final (turnPage p) e)
      with (final (advance p) (final (deliver (pass_lookup_signals p)) e)); [exact H|].
    unfold final. rewrite (run_turnPage p e Hf). unfold final.
    now destruct (advance p _) as [[r e2] t2].
Qed.

(** X10.  Within one run, whatever pause, resume and stop commands
    arrive, the page counter never goes back and grows by at most one
    for each time the loop is woken: commands, faults and naps count no
    page.  The counter goes back only when [start] is called again: its
    first assignments set it to 0. *)
Theorem page_counter_bounds (cfg : AutomationConfig) (now : Z)
    (script : list Input) (e : Engine) :
  currentPage e <= currentPage (final (readLoop script) e)
  <= currentPage e + Z.of_nat (passes script) /\
  currentPage (reset cfg now (final (readLoop script) e)) = 0.
Proof.
  split; [|reflexivity].
  revert e. induction script as [|[s|p] rest IH]; intros e.
  - cbn. lia.
  - cbn [readLoop passes]. destruct (handle_returns s e) as (e1 & t1 & Hh & Hc).
    unfold final. rewrite run_bind, Hh. specialize (IH e1). unfold final in IH.
    destruct (readLoop rest e1) as [[r e2] t2]; cbn [fst snd] in *. lia.
  - cbn [readLoop passes]. unfold final. rewrite run_get_bind.
    destruct (shouldStop e); [cbn; lia|].
    destruct (isPaused e); [specialize (IH e); unfold final in IH; lia|].
    rewrite run_bind. pose proof (turnPage_counts p e) as Hc.
    pose proof (turnPage_turns p e) as Hturn. unfold final in Hc.
    destruct (turnPage p e) as [[[[|]|t|] e1] t1]; cbn [pageTurned fst snd] in *;
      try contradiction; [run; lia|].
    specialize (IH e1). unfold final in IH.
    destruct (readLoop rest e1) as [[r e2] t2]; cbn [fst snd] in *. lia.
Qed.

(** X11.  A page call that fails during a pass is not fatal: the pass
    logs the error and lets the loop continue, no page is counted, and
    neither a progress nor a completed event is emitted for it. *)
Theorem failed_pass_is_retried (p : Pass) (e : Engine) (thrown : Thrown) :
  pass_fault p = Some thrown ->
  turnPage p e
  = (Done Continue, final (deliver (pass_lookup_signals p)) e,
     trace (deliver (pass_lookup_signals p)) e
     ++ [EvLog LogType.error
           [Txt "Erro: "; Txt (messageOf thrown "Erro ao virar página")]]) /\
  currentPage (final (turnPage p) e) = currentPage e.
Proof.
  intros Hf.
  pose proof (deliver_returns (pass_lookup_signals p) e) as (Hd & _ & _ & _ & Hc & _).
  assert (E : turnPage p e
              = (Done Continue, final (deliver (pass_lookup_signals p)) e,
                 trace (deliver (pass_lookup_signals p)) e
                 ++ [EvLog LogType.error
                       [Txt "Erro: "; Txt (messageOf thrown "Erro ao virar página")]])).
  { unfold turnPage, tryCatch, final, trace, outcome in *. rewrite Hf. cbn [awaitOk].
    rewrite run_bind.
    destruct (deliver (pass_lookup_signals p) e) as [[r e1] t1]; cbn [fst snd] in *.
    subst r. run. now rewrite app_nil_r. }
  split; [exact E|]. unfold final at 1. rewrite E. exact Hc.
Qed.

Lemma failed_pass_is_retried_witness :
  pass_fault Samples.flakyPass = Some (JsError "Node is detached from document") /\
  currentPage (final (turnPage Samples.flakyPass) Samples.page30of120) = 30.
Proof.
  split; [reflexivity|].
  exact (proj2 (failed_pass_is_retried Samples.flakyPass Samples.page30of120
                  (JsError "Node is detached from document") eq_refl)).
Defined.

(** X12.  When a click takes the page counter to the known total, the
    pass ends the run as completed: after the progress snapshot of the
    new page it emits one completed event, whose [pagesRead] is the new
    counter and whose [totalPages] is the total, then the completed
    state, and the loop is left. *)
Theorem last_click_completes_the_book (p : Pass) (rest : list Input) (e : Engine)
    (nextButton : Element) (total : Z) :
  shouldStop e = false -> isPaused e = false ->
  pass_fault p = None ->
  query (pass_page p) "[data-testid='next-page-button']" = Some nextButton ->
  el_disabled nextButton = false ->
  totalPages e = Some total -> total <> 0 -> total <= currentPage e + 1 ->
  let e1 := set_currentPage (currentPage e + 1)
              (final (deliver (pass_lookup_signals p)) e) in
  readLoop (Wakes p :: rest) e
  = (Done tt, e1,
     trace (deliver (pass_lookup_signals p)) e
     ++ [EvProgress (progressOf e1 (pass_clock1 p));
         EvLog LogType.success [Txt "Todas as páginas foram lidas!"];
         EvCompleted (completedOf e1 (pass_clock3 p));
         EvStateChange completed None None]) /\
  cd_pagesRead (completedOf e1 (pass_clock3 p)) = currentPage e + 1 /\
  cd_totalPages (completedOf e1 (pass_clock3 p)) = total.
Proof.
  intros Hs Hp Hf Hq Hd Htot Hnz Hle. cbv zeta.
  pose proof (deliver_returns (pass_lookup_signals p) e)
    as (_ & _ & _ & _ & Hcur & Htot1).
  set (e0 := final (deliver (pass_lookup_signals p)) e) in *.
  rewrite Htot in Htot1.
  assert (Htruthy : JS.truthyNum total = true).
  { unfold JS.truthyNum. now destruct (Z.eqb_spec total 0). }
  split; [|split].
  - cbn [readLoop]. rewrite run_get_bind, Hs, Hp, run_bind, (run_turnPage p e Hf).
    fold e0. unfold advance. rewrite Hq. cbv zeta. rewrite Hd.
    unfold afterClick, countPage, reprobe, checkDone. run.
    change (totalPages (set_currentPage (currentPage e0 + 1) e0)) with (totalPages e0).
    change (currentPage (set_currentPage (currentPage e0 + 1) e0))
      with (currentPage e0 + 1).
    rewrite Htot1, Hcur. cbn [JS.truthyOpt]. rewrite Htruthy. run.
    change (totalPages (set_currentPage (currentPage e + 1) e0)) with (totalPages e0).
    change (currentPage (set_currentPage (currentPage e + 1) e0))
      with (currentPage e + 1).
    rewrite Htot1. change (default 0 (Some total)) with total.
    cbn [JS.truthyOpt]. rewrite Htruthy.
    destruct (Z.leb_spec total (currentPage e + 1)); [|lia].
    run. now rewrite app_nil_r.
  - cbn [completedOf cd_pagesRead currentPage set_currentPage]. reflexivity.
  - cbn [completedOf cd_totalPages totalPages set_currentPage]. rewrite Htot1.
    now rewrite Htruthy.
Qed.

Lemma last_click_completes_the_book_witness :
  outcome (readLoop [Wakes (Samples.passOn Samples.turnablePage 7200000)])
    Samples.page119of120 = Done tt /\
  cd_pagesRead (completedOf (set_currentPage 120 Samples.page119of120) 7200000) = 120.
Proof.
  pose proof (last_click_completes_the_book
                (Samples.passOn Samples.turnablePage 7200000) []
                Samples.page119of120
                {| textContent := ">"; el_disabled := false |} 120
                eq_refl eq_refl eq_refl eq_refl eq_refl eq_refl) as H.
  destruct H as (H1 & H2 & _); [discriminate | cbn; lia |].
  split; [unfold outcome; rewrite H1; reflexivity | exact H2].
Defined.

End Passes.

(** ** What the page probes can return *)

Section Probes.

Import AutomationService Trace.

Lemma digit_value (c : ascii) : JS.isDigit c = true -> 0 <= Z.of_N (JS.code c) - 48.
Proof.
  unfold JS.isDigit, JS.between. intros H. apply andb_prop in H as [H _].
  apply N.leb_le in H. lia.
Qed.

Lemma parseInt10_digitsOf (text : string) : 0 <= parseInt10 (digitsOf text).
Proof.
  unfold parseInt10, digitsOf. rewrite chars_str.
  assert (H : forall l acc, 0 <= acc -> Forall (fun c => JS.isDigit c = true) l ->
                0 <= fold_left (fun acc c => acc * 10 + (Z.of_N (JS.code c) - 48)) l acc).
  { induction l as [|c l IH]; intros acc Hacc Hl; [exact Hacc|].
    inversion Hl as [|? ? Hc Hl']; subst. cbn [fold_left]. apply IH; [|exact Hl'].
    pose proof (digit_value c Hc). lia. }
  apply H; [lia|]. apply List.Forall_forall. intros c Hc.
  now apply List.filter_In in Hc.
Qed.

Lemma totalBySelector_nonneg (d : Dom) (selectors : list string) (n : Z) :
  totalBySelector d selectors = Some n -> 0 <= n.
Proof.
  induction selectors as [|selector rest IH]; cbn [totalBySelector]; [discriminate|].
  destruct (query d selector) as [element|]; [|exact IH].
  cbv zeta. destruct (JS.truthyStr (JS.trim (textContent element))); [|exact IH].
  destruct (JS.truthyStr (digitsOf _)); [|exact IH].
  intros [= <-]. apply parseInt10_digitsOf.
Qed.

Lemma totalBySlash_positive (elements : list Element) (n : Z) :
  totalBySlash elements = Some n -> 0 < n.
Proof.
  induction elements as [|element rest IH]; cbn [totalBySlash]; [discriminate|].
  cbv zeta. destruct (JS.truthyStr _ && JS.includes _ "/"); [|exact IH].
  destruct (JS.truthyStr (digitsOf _)); cbn [andb]; [|exact IH].
  destruct (Z.ltb_spec 0 (parseInt10 (digitsOf (afterLastSlash
                            (JS.trim (textContent element)))))) as [Hpos|_];
    [|exact IH].
  now intros [= <-].
Qed.

(** X13.  The total that [getTotalPages] reports is never negative, and
    it is positive when it comes from the scan for a text of the form
    [current / total]; without an open page nothing is reported. *)
Theorem total_pages_is_not_negative (d : Dom) (e : Engine) (n : Z) :
  getTotalPages d e = Some n ->
  0 <= n /\ page e <> None /\
  (totalBySelector d totalSelectors = None -> 0 < n).
Proof.
  unfold getTotalPages. destruct (page e) as [pg|]; [|discriminate].
  destruct (totalBySelector d totalSelectors) as [m|] eqn:Hsel.
  - intros [= <-]. split; [now apply (totalBySelector_nonneg d totalSelectors)|].
    split; [discriminate | discriminate].
  - intros Hs. pose proof (totalBySlash_positive _ _ Hs).
    split; [lia|]. split; [discriminate | trivial].
Qed.

Lemma total_pages_is_not_negative_witness :
  getTotalPages Samples.bookPage Samples.running = Some 120 /\ 0 < 120.
Proof.
  split; [reflexivity|].
  exact (proj2 (proj2 (total_pages_is_not_negative Samples.bookPage Samples.running 120
                         eq_refl)) eq_refl).
Defined.

Lemma firstTitle_found (d : Dom) (selectors : list string) (text : string) :
  firstTitle d selectors = Some text ->
  (0 < JS.length text < 200)%nat /\
  exists selector element,
    In selector selectors /\ query d selector = Some element /\
    text = JS.trim (textContent element).
Proof.
  induction selectors as [|selector rest IH]; cbn [firstTitle]; [discriminate|].
  destruct (query d selector) as [element|] eqn:Hq.
  - cbv zeta.
    destruct (JS.truthyStr (JS.trim (textContent element))
              && (0 <? JS.length (JS.trim (textContent element)))%nat
              && (JS.length (JS.trim (textContent element)) <? 200)%nat) eqn:Hc.
    + intros [= <-]. apply andb_prop in Hc as [Hc H200]. apply andb_prop in Hc as [_ H0].
      apply Nat.ltb_lt in H0, H200. split; [lia|].
      exists selector, element. split; [now left | now split].
    + intros H. destruct (IH H) as (Hlen & s & el & Hin & Hq' & Ht).
      split; [exact Hlen|]. exists s, el. split; [now right | now split].
  - intros H. destruct (IH H) as (Hlen & s & el & Hin & Hq' & Ht).
    split; [exact Hlen|]. exists s, el. split; [now right | now split].
Qed.

(** X14.  A title that [getBookTitle] reports is the trimmed text of an
    element found by one of the four title selectors; its length, which
    [JS.length] counts in UTF-16 code units as the code does, is at least
    1 and less than 200. *)
Theorem book_title_is_short_text (d : Dom) (e : Engine) (text : string) :
  getBookTitle d e = Some text ->
  (0 < JS.length text < 200)%nat /\
  exists selector element,
    In selector titleSelectors /\ query d selector = Some element /\
    text = JS.trim (textContent element).
Proof.
  unfold getBookTitle. destruct (page e); [apply firstTitle_found | discriminate].
Qed.

Lemma book_title_is_short_text_witness :
  getBookTitle Samples.bookPage Samples.running = Some "Dom Casmurro" /\
  (0 < JS.length "Dom Casmurro" < 200)%nat.
Proof.
  split; [reflexivity|].
  exact (proj1 (book_title_is_short_text Samples.bookPage Samples.running
                  "Dom Casmurro" eq_refl)).
Defined.

(** Lengths are counted in UTF-16 code units, not in bytes, and a
    no-break space is white space to [trim]: a title of 150 accented
    letters is reported, and the title below has 17 characters in 19
    bytes. *)
Example title_lengths :
  JS.length "Memórias Póstumas" = 17%nat /\
  String.length "Memórias Póstumas" = 19%nat /\
  JS.trim (String (ascii_of_nat 194) (String (ascii_of_nat 160) "Dom Casmurro"))
  = "Dom Casmurro" /\
  JS.length (JS.str (concat (repeat (JS.chars "é") 150))) = 150%nat /\
  firstTitle
    {| query := fun _ => Some {| textContent := JS.str (concat (repeat (JS.chars "é") 150));
                                 el_disabled := false |};
       allElements := [] |} ["h1"]
  = Some (JS.str (concat (repeat (JS.chars "é") 150))).
Proof. repeat split; vm_compute; reflexivity. Qed.

End Probes.

(** ** Runs without a queue entry *)

Section Unqueued.

Import AutomationService Trace.

Lemma no_calls (automation : Engine) (t : list Event) :
  bookQueueId automation = None ->
  Forall (fun ev => forall d, ev = EvCompleted d -> cd_bookQueueId d = None) t ->
  Routes.storeCalls automation t = [].
Proof.
  intros Hid Hall. unfold Routes.storeCalls.
  induction Hall as [|ev t Hev _ IH]; [reflexivity|].
  cbn [flat_map]. rewrite IH, app_nil_r.
  destruct ev as [st bt ur|pr|ty m|m|d]; cbn [Routes.listeners snd]; try reflexivity.
  - unfold getCurrentBookQueueId. now rewrite Hid.
  - now rewrite (Hev d eq_refl).
Qed.

(** X15.  A run whose configuration names no queue entry (the id is
    absent or empty) never touches the store: the engine then holds no
    queue id, and none of the progress or completed events of the run
    makes the bridge call [updateBookProgress] or [markBookCompleted]. *)
Theorem run_without_queue_entry_stores_nothing (cfg : AutomationConfig) (now : Z)
    (env : RunEnv) (e automation : Engine) (clock : Z) (db : Storage.Db) :
  orUndefined (cfg_bookQueueId cfg) = None ->
  bookQueueId automation = None ->
  let calls := Routes.storeCalls automation (trace (start cfg now env) e) in
  calls = [] /\ Routes.performAll clock calls db = db.
Proof.
  intros Hq Hid. cbv zeta.
  pose (P := fun ev : Event => forall d, ev = EvCompleted d -> cd_bookQueueId d = None).
  destruct (run_keeps_queue_id None P env) with (e := reset cfg now e) as [_ Hall].
  - intros [] Hev d Heq; try discriminate Heq; discriminate Hev.
  - intros e0 t0 He0 d [= <-]. cbn [completedOf cd_bookQueueId]. now rewrite He0.
  - exact Hq.
  - assert (Ht : trace (start cfg now env) e
                 = trace (finally (tryCatch (startTry env) startCatch) cleanup)
                     (reset cfg now e)).
    { unfold trace, start. rewrite run_bind. cbn [modify].
      now destruct (finally _ cleanup (reset cfg now e)) as [[r e2] t2]. }
    rewrite Ht, (no_calls _ _ Hid Hall). now split.
Qed.

Lemma run_without_queue_entry_stores_nothing_witness :
  orUndefined (cfg_bookQueueId Samples.unqueued) = None /\
  Routes.performAll 200000
    (Routes.storeCalls (reset Samples.unqueued 1000 fresh)
       (trace (start Samples.unqueued 1000 Samples.completedRun) fresh))
    Samples.db
  = Samples.db.
Proof.
  split; [reflexivity|].
  exact (proj2 (run_without_queue_entry_stores_nothing Samples.unqueued 1000
                  Samples.completedRun fresh (reset Samples.unqueued 1000 fresh)
                  200000 Samples.db eq_refl eq_refl)).
Defined.

End Unqueued.

(** ** The catalogue scrape *)

Section Catalogue.

Import BookBrowserService.

Lemma slugChar_lower (c : ascii) : slugChar c = true -> JS.lowerChar c = c.
Proof. destruct c as [[] [] [] [] [] [] [] []]; vm_compute; try reflexivity; discriminate. Qed.

Lemma slugChar_not_space (c : ascii) : slugChar c = true -> JS.isSpace c = false.
Proof. destruct c as [[] [] [] [] [] [] [] []]; vm_compute; try reflexivity; discriminate. Qed.

Lemma slugChar_ascii (c : ascii) : slugChar c = true -> (JS.code c <? 128)%N = true.
Proof. destruct c as [[] [] [] [] [] [] [] []]; vm_compute; try reflexivity; discriminate. Qed.

(** An ASCII character that is not white space is kept as it is. *)
Lemma dashSpaces_keep (a : ascii) (r : list ascii) (inRun : bool) :
  (JS.code a <? 128)%N = true -> JS.isSpace a = false ->
  dashSpaces inRun (a :: r) = a :: dashSpaces false r.
Proof.
  intros Ha Hs. cbn [dashSpaces]. rewrite Hs.
  destruct r as [|b [|c r]]; [reflexivity | |].
  - now rewrite (proj1 (ascii_not_lead a b b Ha)).
  - now rewrite (proj1 (ascii_not_lead a b c Ha)), (proj2 (ascii_not_lead a b c Ha)).
Qed.

Lemma forallb_filter (p : ascii -> bool) (l : list ascii) :
  forallb p (List.filter p l) = true.
Proof.
  induction l as [|c l IH]; [reflexivity|]. cbn [List.filter].
  destruct (p c) eqn:Hc; [|exact IH]. cbn [forallb]. now rewrite Hc.
Qed.

Lemma slug_fixed (l : list ascii) :
  forallb slugChar l = true ->
  List.map JS.lowerChar l = l /\ (forall b, dashSpaces b l = l) /\
  List.filter slugChar l = l.
Proof.
  induction l as [|c l IH]; [now repeat split|].
  cbn [forallb]. intros H. apply andb_prop in H as [Hc Hl].
  destruct (IH Hl) as (H1 & H2 & H3). repeat split.
  - cbn [List.map]. now rewrite H1, slugChar_lower.
  - intros b. rewrite (dashSpaces_keep c l b (slugChar_ascii c Hc)
                         (slugChar_not_space c Hc)).
    now rewrite H2.
  - cbn [List.filter]. now rewrite Hc, H3.
Qed.

(** X16.  A slug made from a title holds only lower-case letters,
    digits and hyphens, and making the slug of a slug changes nothing. *)
Theorem slugify_charset_and_idempotence (title : string) :
  forallb slugChar (JS.chars (slugify title)) = true /\
  slugify (slugify title) = slugify title.
Proof.
  unfold slugify at 1 3 4. set (l := List.filter slugChar _).
  assert (Hl : forallb slugChar l = true) by apply forallb_filter.
  rewrite chars_str. split; [exact Hl|].
  destruct (slug_fixed l Hl) as (H1 & H2 & H3).
  unfold slugify, JS.toLowerCase. now rewrite !chars_str, H1, H2, H3.
Qed.

Lemma prefixOf_app (m l : list ascii) :
  JS.prefixOf m l = true -> l = m ++ skipn (List.length m) l.
Proof.
  revert l. induction m as [|c m IH]; intros l; [reflexivity|].
  destruct l as [|d l]; cbn [JS.prefixOf]; [discriminate|].
  intros H. apply andb_prop in H as [Hc Hm]. apply Ascii.eqb_eq in Hc. subst d.
  cbn [List.length skipn app]. f_equal. now apply IH.
Qed.

Lemma prefixOf_refl_app (m rest : list ascii) : JS.prefixOf m (m ++ rest) = true.
Proof.
  induction m as [|c m IH]; [reflexivity|]. cbn [app JS.prefixOf].
  now rewrite Ascii.eqb_refl, IH.
Qed.

Lemma takeWhile_prefix (p : ascii -> bool) (l : list ascii) :
  exists rest, l = JS.takeWhile p l ++ rest.
Proof.
  induction l as [|c l [rest IH]]; [now exists []|]. cbn [JS.takeWhile].
  destruct (p c); [|now eexists]. exists rest. cbn [app]. now f_equal.
Qed.

Lemma matchMarkers_found (markers : list string) (l : list ascii) (seg : string) :
  matchMarkers markers l = Some seg ->
  seg <> EmptyString /\ forallb segmentChar (JS.chars seg) = true /\
  exists marker, In marker markers /\
    JS.prefixOf (JS.chars marker ++ JS.chars seg) l = true.
Proof.
  induction markers as [|m rest IH]; cbn [matchMarkers]; [discriminate|].
  cbv zeta.
  destruct (JS.prefixOf (JS.chars m) l &&
            negb (Nat.eqb (List.length (JS.takeWhile segmentChar
                                          (skipn (String.length m) l))) 0)) eqn:Hc.
  - intros [= <-]. apply andb_prop in Hc as [Hp Hn].
    apply negb_true_iff, Nat.eqb_neq in Hn.
    set (seg := JS.takeWhile segmentChar (skipn (String.length m) l)) in *.
    split; [|split].
    + intros Heq. apply Hn. rewrite <- (chars_str seg), Heq. reflexivity.
    + rewrite chars_str. apply takeWhile_all.
    + exists m. split; [now left|]. rewrite chars_str.
      destruct (takeWhile_prefix segmentChar (skipn (String.length m) l)) as [tl Htl].
      fold seg in Htl. rewrite (prefixOf_app _ _ Hp) at 1.
      assert (Hlen : List.length (JS.chars m) = String.length m).
      { rewrite <- (str_chars m) at 2. now rewrite length_str. }
      rewrite Hlen, Htl, app_assoc. apply prefixOf_refl_app.
  - intros H. destruct (IH H) as (H1 & H2 & marker & Hin & Hp).
    split; [exact H1|]. split; [exact H2|]. exists marker. split; [now right | exact Hp].
Qed.

Lemma includesChars_here (sub l : list ascii) :
  JS.prefixOf sub l = true -> JS.includesChars sub l = true.
Proof. intros H. destruct l; cbn [JS.includesChars]; now rewrite H. Qed.

(** X17.  The slug read from a link is the path segment that follows
    [/livro/], [/book/] or [/reader/]: it is not empty, holds neither a
    slash nor a question mark, and the link contains the marker followed
    by it. *)
Theorem book_path_segment (href seg : string) :
  matchBookPath href = Some seg ->
  seg <> EmptyString /\ forallb segmentChar (JS.chars seg) = true /\
  exists marker, In marker pathMarkers /\
    JS.includesChars (JS.chars marker ++ JS.chars seg) (JS.chars href) = true.
Proof.
  unfold matchBookPath. induction (JS.chars href) as [|c l IH].
  - cbn [matchPathChars].
    destruct (matchMarkers pathMarkers []) as [s|] eqn:Hm; [|discriminate].
    intros [= <-]. destruct (matchMarkers_found _ _ _ Hm) as (H1 & H2 & m & Hin & Hp).
    split; [exact H1|]. split; [exact H2|]. exists m. split; [exact Hin|].
    now apply includesChars_here.
  - cbn [matchPathChars].
    destruct (matchMarkers pathMarkers (c :: l)) as [s|] eqn:Hm.
    + intros [= <-]. destruct (matchMarkers_found _ _ _ Hm) as (H1 & H2 & m & Hin & Hp).
      split; [exact H1|]. split; [exact H2|]. exists m. split; [exact Hin|].
      now apply includesChars_here.
    + intros H. destruct (IH H) as (H1 & H2 & m & Hin & Hp).
      split; [exact H1|]. split; [exact H2|]. exists m. split; [exact Hin|].
      cbn [JS.includesChars]. rewrite Hp. apply orb_true_r.
Qed.

Lemma book_path_segment_witness :
  matchBookPath "https://e-reader.arvore.com.br/livro/dom-casmurro?page=3"
  = Some "dom-casmurro" /\
  forallb segmentChar (JS.chars "dom-casmurro") = true.
Proof.
  split; [reflexivity|].
  exact (proj1 (proj2 (book_path_segment
                         "https://e-reader.arvore.com.br/livro/dom-casmurro?page=3"
                         "dom-casmurro" eq_refl))).
Defined.

(** What the card loop keeps of the books collected so far. *)
Lemma collectCards_keeps (Q : AvailableBook -> Prop) (categoryName : string)
    (cards : list (option CardData * Z)) (acc : list AvailableBook) :
  (forall b, category b = categoryName ->
             (2 < JS.length (title b) < 200)%nat -> Q b) ->
  Forall Q acc -> Forall Q (collectCards categoryName cards acc).
Proof.
  intros HQ. revert acc.
  induction cards as [|[[bookData|] now] rest IH]; intros acc Hacc;
    cbn [collectCards]; [exact Hacc | | now apply IH].
  destruct (JS.truthyStr (card_title bookData)
            && (2 <? JS.length (card_title bookData))%nat
            && (JS.length (card_title bookData) <? 200)%nat) eqn:Hc;
    [|now apply IH].
  apply IH. apply Forall_app. split; [exact Hacc|]. constructor; [|constructor].
  apply HQ; cbn [category title]; [reflexivity|].
  apply andb_prop in Hc as [Hc H200]. apply andb_prop in Hc as [_ H2].
  apply Nat.ltb_lt in H2, H200. lia.
Qed.

Lemma isCategoryName_true (categoryName : string) (processed : gset string) :
  isCategoryName categoryName processed = true ->
  (5 <= JS.length categoryName <= 100)%nat /\ (categoryName ∉ processed) /\
  (JS.includes categoryName "Leitura" || JS.includes categoryName "Ano"
   || JS.includes categoryName "Bimestre" || JS.includes categoryName "Sugerida") = true.
Proof.
  unfold isCategoryName. intros H. apply negb_true_iff in H.
  apply orb_false_elim in H as [H Hvoc]. apply orb_false_elim in H as [H Hin].
  apply orb_false_elim in H as [H H100]. apply orb_false_elim in H as [_ H5].
  apply Nat.ltb_ge in H5, H100. apply bool_decide_eq_false in Hin.
  split; [now split|]. split; [exact Hin|].
  destruct (JS.includes categoryName "Leitura"), (JS.includes categoryName "Ano"),
    (JS.includes categoryName "Bimestre"), (JS.includes categoryName "Sugerida");
    try reflexivity; discriminate Hvoc.
Qed.

Lemma scanHeadings_distinct (els : list Heading) (processed : gset string)
    (categories : list BookCategory) :
  NoDup (List.map name categories) ->
  Forall (fun c => name c ∈ processed) categories ->
  Forall wellFormed categories ->
  NoDup (List.map name (scanHeadings els processed categories)) /\
  Forall wellFormed (scanHeadings els processed categories).
Proof.
  revert processed categories.
  induction els as [|el rest IH]; intros processed categories Hnd Hin Hwf;
    cbn [scanHeadings]; [now split|].
  cbv zeta. destruct (isCategoryName (heading_text el) processed) eqn:Hc;
    [|now apply IH].
  apply isCategoryName_true in Hc as (Hlen & Hnew & Hvoc).
  assert (Hin' : Forall (fun c => name c ∈ {[heading_text el]} ∪ processed) categories).
  { eapply Forall_impl; [exact Hin|]. cbv beta. intros c Hc. now apply elem_of_union_r. }
  destruct (0 <? List.length (collectCards (heading_text el) (heading_cards el) []))%nat
    eqn:Hpos; [|now apply IH].
  apply IH.
  - rewrite List.map_app. cbn [List.map name]. apply NoDup_app. split; [exact Hnd|].
    split; [|apply NoDup_singleton].
    intros x Hx Hx'. apply list_elem_of_singleton in Hx'. subst x.
    apply list_elem_of_In, List.in_map_iff in Hx as (c & Hname & Hc).
    apply Hnew. rewrite <- Hname.
    exact (proj1 (List.Forall_forall _ _) Hin c Hc).
  - apply Forall_app. split; [exact Hin'|]. constructor; [|constructor].
    cbn [name]. apply elem_of_union_l. now apply elem_of_singleton.
  - apply Forall_app. split; [exact Hwf|]. constructor; [|constructor].
    split; [exact Hlen|]. cbn [name books]. split; [exact Hvoc|]. split.
    + apply Nat.ltb_lt in Hpos.
      destruct (collectCards _ _ []); [cbn in Hpos; lia | discriminate].
    + apply Forall_take. apply collectCards_keeps; [now split | constructor].
Qed.

(** X18.  The categories read from the headings have pairwise distinct
    names; each name has a length of 5 to 100 and holds one of the words
    Leitura, Ano, Bimestre, Sugerida; each category holds at least one
    book, and each of its books carries the name of the category and a
    title of length 3 to 199.  The lengths are [JS.length], in UTF-16
    code units, as the code counts them. *)
Theorem heading_categories_are_distinct (env : ScrapeEnv) :
  let categories := scanHeadings (categoryElements env) ∅ [] in
  NoDup (List.map name categories) /\ Forall wellFormed categories.
Proof. cbv zeta. apply scanHeadings_distinct; constructor. Qed.

(** A heading of four characters is no category, however many bytes it
    takes, and a card title of two characters is too short. *)
Example short_names :
  JS.length "Anos" = 4%nat /\ JS.length "Ano²" = 4%nat /\
  isCategoryName "Ano²" ∅ = false /\
  isCategoryName "Ano 2" ∅ = true /\
  JS.length "Só" = 2%nat /\ String.length "Só" = 3%nat.
Proof. repeat split; vm_compute; reflexivity. Qed.

(** A list of books whose ids carry their positions. *)
Lemma indexed_NoDup (l : list AvailableBook) :
  (forall i b, nth_error l i = Some b ->
     exists now, id b = [Txt "book-"; Int (Z.of_nat i); Txt "-"; Int now]) ->
  NoDup (List.map id l).
Proof.
  intros H. apply NoDup_ListNoDup, List.NoDup_nth_error. intros i j Hi Heq.
  rewrite length_map in Hi. rewrite !nth_error_map in Heq.
  destruct (nth_error l i) as [b|] eqn:Hb;
    [|apply nth_error_None in Hb; lia].
  destruct (nth_error l j) as [b'|] eqn:Hb'; [|discriminate Heq].
  cbn [option_map] in Heq. injection Heq as Heq.
  destruct (H i b Hb) as [n1 H1]. destruct (H j b' Hb') as [n2 H2].
  rewrite H1, H2 in Heq. injection Heq as Heq _. lia.
Qed.

Lemma indexed_snoc (l : list AvailableBook) (b : AvailableBook) (now : Z) :
  (forall i b, nth_error l i = Some b ->
     exists now, id b = [Txt "book-"; Int (Z.of_nat i); Txt "-"; Int now]) ->
  id b = [Txt "book-"; Int (Z.of_nat (List.length l)); Txt "-"; Int now] ->
  forall i b', nth_error (l ++ [b]) i = Some b' ->
    exists now, id b' = [Txt "book-"; Int (Z.of_nat i); Txt "-"; Int now].
Proof.
  intros Hl Hb i b' Hi. destruct (Nat.lt_ge_cases i (List.length l)) as [Hlt|Hge].
  - rewrite nth_error_app1 in Hi by exact Hlt. now apply Hl.
  - rewrite nth_error_app2 in Hi by exact Hge.
    destruct (i - List.length l)%nat as [|k] eqn:Hk; cbn in Hi.
    + injection Hi as <-. exists now. rewrite Hb. repeat f_equal. lia.
    + now destruct k.
Qed.

Lemma indexed_firstn (n : nat) (l : list AvailableBook) :
  (forall i b, nth_error l i = Some b ->
     exists now, id b = [Txt "book-"; Int (Z.of_nat i); Txt "-"; Int now]) ->
  forall i b, nth_error (firstn n l) i = Some b ->
    exists now, id b = [Txt "book-"; Int (Z.of_nat i); Txt "-"; Int now].
Proof.
  intros Hl i b Hi. apply Hl. clear Hl. revert n i Hi.
  induction l as [|x l IH]; intros [|n] [|i] Hi; cbn in *; try discriminate;
    [exact Hi | now apply (IH n)].
Qed.

Lemma collectCards_indexed (categoryName : string) (cards : list (option CardData * Z))
    (acc : list AvailableBook) :
  (forall i b, nth_error acc i = Some b ->
     exists now, id b = [Txt "book-"; Int (Z.of_nat i); Txt "-"; Int now]) ->
  forall i b, nth_error (collectCards categoryName cards acc) i = Some b ->
    exists now, id b = [Txt "book-"; Int (Z.of_nat i); Txt "-"; Int now].
Proof.
  revert acc. induction cards as [|[[bookData|] now] rest IH]; intros acc Hacc;
    cbn [collectCards]; [exact Hacc | | now apply IH].
  destruct (JS.truthyStr _ && _ && _); [|now apply IH].
  apply IH. now apply indexed_snoc with (now := now).
Qed.

Lemma collectImages_indexed (els : list (option ImageData * Z))
    (acc : list AvailableBook) :
  (forall i b, nth_error acc i = Some b ->
     exists now, id b = [Txt "book-"; Int (Z.of_nat i); Txt "-"; Int now]) ->
  forall i b, nth_error (collectImages els acc) i = Some b ->
    exists now, id b = [Txt "book-"; Int (Z.of_nat i); Txt "-"; Int now].
Proof.
  revert acc. induction els as [|[[bookData|] now] rest IH]; intros acc Hacc;
    cbn [collectImages]; [exact Hacc | | now apply IH].
  destruct (JS.truthyStr _ && _); [|now apply IH].
  apply IH. now apply indexed_snoc with (now := now).
Qed.

Lemma scanHeadings_ids (els : list Heading) (processed : gset string)
    (categories : list BookCategory) :
  Forall (fun c => NoDup (List.map id (books c))) categories ->
  Forall (fun c => NoDup (List.map id (books c)))
    (scanHeadings els processed categories).
Proof.
  revert processed categories.
  induction els as [|el rest IH]; intros processed categories Hacc;
    cbn [scanHeadings]; [exact Hacc|].
  cbv zeta. destruct (isCategoryName (heading_text el) processed); [|now apply IH].
  apply IH. destruct (0 <? _)%nat; [|exact Hacc].
  apply Forall_app. split; [exact Hacc|]. constructor; [|constructor].
  cbn [books]. apply indexed_NoDup, indexed_firstn, collectCards_indexed.
  intros [|i] b Hi; discriminate Hi.
Qed.

(** X19.  Within every category that the scrape returns the ids of the
    books are pairwise distinct, also when the clock does not advance
    between two books: an id carries the position of its book. *)
Theorem book_ids_are_distinct (page : option nat) (env : ScrapeEnv) :
  Forall (fun c => NoDup (List.map id (books c))) (scrapeBooks page env).
Proof.
  unfold scrapeBooks. destruct page as [pg|]; [|constructor].
  assert (Hh : Forall (fun c => NoDup (List.map id (books c)))
                 (scanHeadings (categoryElements env) ∅ [])).
  { apply scanHeadings_ids. constructor. }
  destruct (Nat.eqb _ 0); [|exact Hh].
  apply Forall_app. split; [exact Hh|].
  unfold flatScan. destruct (0 <? _)%nat; constructor; [|constructor].
  cbn [books]. apply indexed_NoDup, indexed_firstn, collectImages_indexed.
  intros [|i] b Hi; discriminate Hi.
Qed.

(** X20.  [fetchBooks] always closes the browser it started, whether it
    returns the catalogue or throws; what it throws is the error of the
    step that failed, unchanged; and a catalogue it returns is the result
    of the scrape on the page it opened. *)
Theorem fetchBooks_closes_the_browser (env : FetchEnv) (s : Service) :
  browser (snd (fetchBooks env s)) = None /\
  (forall thrown, fst (fetchBooks env s) = inl thrown ->
     fetch_launch env = inl thrown \/ fetch_newPage env = inl thrown \/
     fetch_login env = Some thrown \/ fetch_navigate env = Some thrown \/
     fetch_scrape env = inl thrown) /\
  (forall categories, fst (fetchBooks env s) = inr categories ->
     exists p document,
       fetch_newPage env = inr p /\ fetch_scrape env = inr document /\
       categories = scrapeBooks (Some p) document).
Proof.
  unfold fetchBooks, fetchTry.
  destruct (fetch_launch env) as [t1|b]; cbn [fst snd].
  - split; [|split]; [|intros ? [= <-]; auto | discriminate].
    unfold cleanup. destruct (browser s) eqn:Hb; [reflexivity | exact Hb].
  - destruct (fetch_newPage env) as [t2|p]; cbn [fst snd cleanup browser].
    + split; [reflexivity|]. split; [intros ? [= <-]; auto | discriminate].
    + destruct (fetch_login env) as [t3|]; cbn [fst snd cleanup browser].
      * split; [reflexivity|]. split; [intros ? [= <-]; auto | discriminate].
      * destruct (fetch_navigate env) as [t4|]; cbn [fst snd cleanup browser].
        -- split; [reflexivity|]. split; [intros ? [= <-]; auto | discriminate].
        -- destruct (fetch_scrape env) as [t5|document]; cbn [fst snd cleanup browser].
           ++ split; [reflexivity|]. split; [intros ? [= <-]; auto 6 | discriminate].
           ++ split; [reflexivity|]. split; [discriminate|].
              intros ? [= <-]. now exists p, document.
Qed.

End Catalogue.

(** ** The queue, the history and the schedules *)

Section Store.

Import Storage.

Lemma fold_max_spec (l : list Z) (x : Z) :
  In (fold_left Z.max l x) (x :: l) /\
  forall y, In y (x :: l) -> y <= fold_left Z.max l x.
Proof.
  revert x. induction l as [|z l IH]; intros x; cbn [fold_left].
  - split; [now left|]. intros y [<-|[]]. lia.
  - destruct (IH (Z.max x z)) as [Hin Hmax]. split.
    + destruct Hin as [Heq|Hin]; [|right; now right].
      rewrite <- Heq.
      destruct (Z.max_spec x z) as [[_ Hm]|[_ Hm]]; rewrite Hm;
        [right; now left | now left].
    + intros y [<-|[<-|Hy]];
        [specialize (Hmax (Z.max x z) (or_introl eq_refl)); lia ..
        |apply Hmax; now right].
Qed.

Lemma position_listed (db : Db) (id : string) (b : BookQueue) :
  booksQueue db !! id = Some b -> In (position b) (positions db).
Proof.
  intros H. unfold positions. apply List.in_map_iff. exists (id, b).
  split; [reflexivity|]. apply list_elem_of_In. now apply elem_of_map_to_list.
Qed.

Lemma listed_position (db : Db) (p : Z) :
  In p (positions db) -> exists id b, booksQueue db !! id = Some b /\ position b = p.
Proof.
  unfold positions. intros H. apply List.in_map_iff in H as ([id b] & Hp & Hin).
  exists id, b. split; [|exact Hp]. apply elem_of_map_to_list. now apply list_elem_of_In.
Qed.

Lemma maxPosition_above (db : Db) (id : string) (b : BookQueue) :
  booksQueue db !! id = Some b -> position b < maxPosition db.
Proof.
  intros H. apply position_listed in H. unfold maxPosition.
  destruct (positions db) as [|p ps]; [contradiction|].
  pose proof (proj2 (fold_max_spec ps p) _ H). lia.
Qed.

Lemma maxPosition_reached (db : Db) :
  positions db <> [] ->
  exists id b, booksQueue db !! id = Some b /\ maxPosition db = position b + 1.
Proof.
  intros Hne. unfold maxPosition. destruct (positions db) as [|p ps] eqn:Hp;
    [contradiction|].
  destruct (listed_position db (fold_left Z.max ps p)) as (id & b & Hb & Hpos).
  { rewrite Hp. apply fold_max_spec. }
  exists id, b. split; [exact Hb | lia].
Qed.

(** X21.  A book added without a position goes to the end of the queue,
    provided that the row fits the [integer] columns: its position is
    greater than that of every entry already there, the entries already
    there are unchanged, the history is untouched, and the next book
    added this way gets the position after it.  A row that does not fit
    is refused and the store is left as it was; such is every book added
    without a position to a queue that has an entry at position
    2147483647. *)
Theorem addToQueue_appends (id : string) (book : InsertBookQueue) (db : Db) :
  booksQueue db !! id = None -> ins_position book = None ->
  let db' := fst (addToQueue id book db) in
  (fits (created book db) = true ->
   exists row,
     snd (addToQueue id book db) = Some row /\
     getQueuedBook id db' = Some row /\
     (forall other b, booksQueue db !! other = Some b ->
        position b < position row /\ getQueuedBook other db' = Some b) /\
     readingHistory db' = readingHistory db /\
     maxPosition db' = position row + 1) /\
  (fits (created book db) = false -> addToQueue id book db = (db, None)) /\
  (forall other b, booksQueue db !! other = Some b -> position b = 2147483647 ->
     addToQueue id book db = (db, None)).
Proof.
  intros Hfresh Hpos. cbv zeta.
  assert (Hrow : position (created book db) = maxPosition db).
  { cbn [created position]. now rewrite Hpos. }
  assert (Hrefused : fits (created book db) = false -> addToQueue id book db = (db, None)).
  { intros Hf. unfold addToQueue. cbv zeta. now rewrite Hf. }
  split; [|split; [exact Hrefused|]].
  - intros Hfits. unfold addToQueue, getQueuedBook. cbv zeta. rewrite Hfits.
    cbn [fst snd booksQueue readingHistory].
    exists (created book db). split; [reflexivity|].
    split; [apply lookup_insert_eq|]. split; [|split; [reflexivity|]].
    + intros other b Hb. split.
      * rewrite Hrow. now apply (maxPosition_above db other).
      * rewrite lookup_insert_ne; [exact Hb|]. intros <-. congruence.
    + set (db' := {| booksQueue := <[id := created book db]> (booksQueue db);
                     readingHistory := readingHistory db |}).
      assert (Hin : booksQueue db' !! id = Some (created book db))
        by apply lookup_insert_eq.
      pose proof (maxPosition_above db' id _ Hin) as Hlt.
      destruct (maxPosition_reached db') as (j & b & Hb & Hmax).
      { intros Hnil. apply position_listed in Hin. rewrite Hnil in Hin. contradiction. }
      rewrite Hmax in *. destruct (decide (j = id)) as [->|Hne].
      * rewrite Hin in Hb. now injection Hb as <-.
      * cbn [booksQueue db'] in Hb. rewrite lookup_insert_ne in Hb by congruence.
        pose proof (maxPosition_above db j b Hb). lia.
  - intros other b Hb Hlast. apply Hrefused.
    pose proof (maxPosition_above db other b Hb) as Hlt.
    unfold fits. rewrite Hrow. unfold int32.
    replace (maxPosition db <=? 2147483647) with false by (symmetry; apply Z.leb_gt; lia).
    now rewrite andb_false_r.
Qed.

Lemma addToQueue_appends_witness :
  booksQueue Samples.db !! "q2" = None /\
  Storage.ins_position Samples.nextBook = None /\
  fits (created Samples.nextBook Samples.db) = true /\
  (exists row, snd (addToQueue "q2" Samples.nextBook Samples.db) = Some row /\
               position Samples.queued < position row) /\
  addToQueue "q2" Samples.nextBook Samples.fullQueue = (Samples.fullQueue, None).
Proof.
  split; [reflexivity|]. split; [reflexivity|]. split; [reflexivity|].
  split.
  - destruct (addToQueue_appends "q2" Samples.nextBook Samples.db eq_refl eq_refl)
      as (H & _).
    destruct (H eq_refl) as (row & Hrow & _ & Hothers & _).
    exists row. split; [exact Hrow|].
    exact (proj1 (Hothers "q1" Samples.queued eq_refl)).
  - destruct (addToQueue_appends "q2" Samples.nextBook Samples.fullQueue eq_refl eq_refl)
      as (_ & _ & H).
    eapply (H "q1"); reflexivity.
Defined.

Lemma Db_eta (db : Db) :
  {| booksQueue := booksQueue db; readingHistory := readingHistory db |} = db.
Proof. now destruct db. Qed.

(** X22.  Store calls about an id that is not in the queue change
    nothing: no entry is created, and no history is written. *)
Theorem calls_for_absent_entry_change_nothing (clock : Z) (id : string)
    (calls : list Routes.StoreCall) (db : Db) :
  booksQueue db !! id = None ->
  Forall (fun c => Routes.target c = id) calls ->
  Routes.performAll clock calls db = db.
Proof.
  intros Habs Hall. unfold Routes.performAll.
  induction Hall as [|c calls Hc _ IH]; [reflexivity|].
  cbn [fold_left].
  assert (Hone : Routes.perform clock db c = db).
  { destruct c as [i cur total|i pagesRead total timeSpent];
      cbn [Routes.target] in Hc; subst i.
    - unfold Routes.perform. cbn [Routes.call]. unfold updateBookProgress.
      destruct (int32 cur && int32Opt total); [|reflexivity].
      cbn [fst]. rewrite alter_id' by exact Habs. apply Db_eta.
    - unfold Routes.perform. cbn [Routes.call].
      unfold markBookCompleted, getQueuedBook. now rewrite Habs. }
  now rewrite Hone.
Qed.

Lemma calls_for_absent_entry_change_nothing_witness :
  booksQueue Samples.db !! "q9" = None /\
  Routes.performAll 9000
    [Routes.UpdateBookProgress "q9" 3 None; Routes.MarkBookCompleted "q9" 3 3 (180 # 1)%Q]
    Samples.db
  = Samples.db.
Proof.
  split; [reflexivity|].
  apply calls_for_absent_entry_change_nothing with (id := "q9");
    [reflexivity | repeat constructor].
Defined.

Lemma fold_sum (f : ReadingHistory -> Z) (history : list ReadingHistory) (a : Z) :
  fold_left (fun sum h => sum + f h) history a
  = a + fold_right (fun h sum => f h + sum) 0 history.
Proof.
  revert a. induction history as [|h t IH]; intros a; cbn [fold_left fold_right]; [lia|].
  rewrite IH. lia.
Qed.

Lemma statsOf_snoc (history : list ReadingHistory) (entry : ReadingHistory) :
  statsOf (history ++ [entry])
  = {| stats_totalBooks := S (stats_totalBooks (statsOf history));
       stats_totalPages := stats_totalPages (statsOf history) + h_pagesRead entry;
       stats_totalTime := stats_totalTime (statsOf history) + h_timeSpentSeconds entry;
       stats_completedBooks :=
         if h_wasCompleted entry
         then S (stats_completedBooks (statsOf history))
         else stats_completedBooks (statsOf history) |}.
Proof.
  unfold statsOf. cbn [stats_totalBooks stats_totalPages stats_totalTime
                       stats_completedBooks].
  rewrite !fold_left_app, length_app, List.filter_app, length_app.
  cbn [fold_left List.filter List.length]. f_equal.
  - lia.
  - destruct (h_wasCompleted entry); cbn [List.length]; lia.
Qed.

Lemma statsOf_permutation (h1 h2 : list ReadingHistory) :
  Permutation h1 h2 -> statsOf h1 = statsOf h2.
Proof.
  intros Hp. unfold statsOf. rewrite !fold_sum. f_equal.
  - now apply Permutation_length.
  - f_equal. induction Hp; cbn [fold_right]; lia.
  - f_equal. induction Hp; cbn [fold_right]; lia.
  - induction Hp as [|x l l' _ IH|x y l|l l' l'' _ IH1 _ IH2]; cbn [List.filter].
    + reflexivity.
    + destruct (h_wasCompleted x); cbn [List.length]; now rewrite ?IH.
    + now destruct (h_wasCompleted x), (h_wasCompleted y).
    + now rewrite IH1.
Qed.

(** X23.  Marking a queued book as completed, with numbers that fit the
    [integer] columns, adds exactly one finished book to the statistics:
    one more book, one more completed book, the pages read, and the time
    spent rounded down to whole seconds.  With a number that does not
    fit, the call throws and the statistics are what they were.  The
    statistics never count more completed books than books, and do not
    depend on the order in which the history rows are read. *)
Theorem completed_book_counts_in_stats (id : string) (pagesRead total : Z)
    (timeSpent : Q) (now : Z) (db : Db) (book : BookQueue) :
  booksQueue db !! id = Some book ->
  let before := getHistoryStats db in
  let answer := markBookCompleted id pagesRead total timeSpent now db in
  let after := getHistoryStats (fst answer) in
  (int32 pagesRead && int32 total && int32 (Qfloor timeSpent) = true ->
   snd answer = Returns /\
   stats_totalBooks after = S (stats_totalBooks before) /\
   stats_completedBooks after = S (stats_completedBooks before) /\
   stats_totalPages after = stats_totalPages before + pagesRead /\
   stats_totalTime after = stats_totalTime before + Qfloor timeSpent) /\
  (int32 pagesRead && int32 total && int32 (Qfloor timeSpent) = false ->
   snd answer = Throws /\ after = before) /\
  (stats_completedBooks before <= stats_totalBooks before)%nat /\
  (forall rows, Permutation (readingHistory db) rows -> statsOf rows = before).
Proof.
  intros Hb. cbv zeta. unfold getHistoryStats, markBookCompleted, getQueuedBook.
  rewrite Hb. split; [|split; [|split]].
  - intros Hin. apply andb_prop in Hin as [Hin ->]. rewrite Hin.
    cbn [fst snd addToHistory readingHistory]. rewrite statsOf_snoc.
    cbn [stats_totalBooks stats_totalPages stats_totalTime stats_completedBooks
         h_pagesRead h_timeSpentSeconds h_wasCompleted].
    repeat split.
  - intros Hout. destruct (int32 pagesRead && int32 total); [|split; reflexivity].
    cbn [andb] in Hout. rewrite Hout. split; reflexivity.
  - unfold statsOf. cbn [stats_totalBooks stats_completedBooks].
    apply List.filter_length_le.
  - intros rows Hp. symmetry. now apply statsOf_permutation.
Qed.

Lemma completed_book_counts_in_stats_witness :
  booksQueue Samples.db !! "q1" = Some Samples.queued /\
  int32 120 && int32 120 && int32 (Qfloor (7261 # 2)) = true /\
  stats_totalTime
    (getHistoryStats (fst (markBookCompleted "q1" 120 120 (7261 # 2)%Q 9000 Samples.db)))
  = 3630 /\
  int32 2 && int32 1209788535914849 && int32 (Qfloor (123 # 1)) = false /\
  getHistoryStats
    (fst (markBookCompleted "q1" 2 1209788535914849 (123 # 1)%Q 9000 Samples.db))
  = getHistoryStats Samples.db.
Proof.
  split; [reflexivity|]. split; [reflexivity|]. split.
  - destruct (completed_book_counts_in_stats "q1" 120 120 (7261 # 2)%Q 9000
                Samples.db Samples.queued eq_refl) as (H & _).
    exact (proj2 (proj2 (proj2 (proj2 (H eq_refl))))).
  - split; [reflexivity|].
    destruct (completed_book_counts_in_stats "q1" 2 1209788535914849 (123 # 1)%Q 9000
                Samples.db Samples.queued eq_refl) as (_ & H & _).
    exact (proj2 (H eq_refl)).
Defined.

Lemma due_row (later : Z) (id : string) (row : ScheduledReading)
    (tbl : gmap string ScheduledReading) :
  tbl !! id = Some row ->
  getDueScheduledReadings later tbl !! id = if isDue later row then Some row else None.
Proof.
  intros H. unfold getDueScheduledReadings. destruct (isDue later row) eqn:Hd.
  - apply map_lookup_filter_Some. now split.
  - apply map_lookup_filter_None. right. intros x Hx.
    assert (x = row) by congruence. subst x. cbn [snd]. congruence.
Qed.

(** X24.  A schedule of type once that has been marked as run is never
    due again, whatever the time, and keeps its scheduled time.  A daily
    or weekly schedule gets the scheduled time that the calendar gives
    for one or seven days later and stays as active as it was; in a
    calendar in which a later day is a later time, it is then not due
    at any time up to its old scheduled time, and an active one is due
    again from the new time on.  In all cases the time of the run is
    recorded and the other schedules are untouched. *)
Theorem schedule_marked_as_run (addDays : Z -> Z -> Z) (now later : Z) (id : string)
    (tbl : gmap string ScheduledReading) (schedule : ScheduledReading) :
  tbl !! id = Some schedule ->
  let tbl' := markScheduleAsRun addDays now id tbl in
  (exists ran, tbl' !! id = Some ran /\ lastRun ran = Some now /\
     (repeatType schedule = "once" ->
      isActive ran = false /\ scheduledTime ran = scheduledTime schedule /\
      getDueScheduledReadings later tbl' !! id = None) /\
     (forall days,
        repeatType schedule = "daily" /\ days = 1 \/
        repeatType schedule = "weekly" /\ days = 7 ->
        isActive ran = isActive schedule /\
        scheduledTime ran = addDays days (scheduledTime schedule) /\
        getDueScheduledReadings later tbl' !! id
        = (if isActive schedule && (addDays days (scheduledTime schedule) <=? later)
           then Some ran else None) /\
        ((forall n t, 0 < n -> t < addDays n t) ->
         scheduledTime schedule < scheduledTime ran /\
         (later <= scheduledTime schedule ->
          getDueScheduledReadings later tbl' !! id = None)))) /\
  (forall other, other <> id ->
     tbl' !! other = tbl !! other /\
     getDueScheduledReadings later tbl' !! other
     = getDueScheduledReadings later tbl !! other).
Proof.
  intros Hs. cbv zeta. unfold markScheduleAsRun. rewrite Hs. split.
  - exists (ranAt addDays now schedule).
    assert (Hin : <[id:=ranAt addDays now schedule]> tbl !! id
                  = Some (ranAt addDays now schedule)) by apply lookup_insert_eq.
    split; [exact Hin|].
    split; [unfold ranAt; now destruct (String.eqb _ "once")|].
    rewrite (due_row later id _ _ Hin). split.
    + intros Hr. unfold ranAt, isDue. rewrite Hr. cbn. repeat split.
    + intros days Hdays.
      assert (Hran : isActive (ranAt addDays now schedule) = isActive schedule /\
                     scheduledTime (ranAt addDays now schedule)
                     = addDays days (scheduledTime schedule)).
      { unfold ranAt. destruct Hdays as [[Hr ->]|[Hr ->]]; rewrite Hr; cbn; now split. }
      destruct Hran as [Ha Ht]. unfold isDue. rewrite Ha, Ht.
      split; [reflexivity|]. split; [reflexivity|]. split; [reflexivity|].
      intros Hforward.
      assert (Hlt : scheduledTime schedule < addDays days (scheduledTime schedule)).
      { apply Hforward. destruct Hdays as [[_ ->]|[_ ->]]; lia. }
      split; [exact Hlt|]. intros Hle.
      replace (addDays days (scheduledTime schedule) <=? later) with false
        by (symmetry; apply Z.leb_gt; lia).
      now rewrite andb_false_r.
  - intros other Hne. assert (Hl : <[id:=ranAt addDays now schedule]> tbl !! other
                                    = tbl !! other)
      by (apply lookup_insert_ne; congruence).
    split; [exact Hl|]. unfold getDueScheduledReadings.
    destruct (tbl !! other) as [s|] eqn:Ho.
    + destruct (isDue later s) eqn:Hd.
      * transitivity (Some s); [|symmetry];
          apply map_lookup_filter_Some; (split; [congruence | exact Hd]).
      * transitivity (@None ScheduledReading); [|symmetry];
          apply map_lookup_filter_None; right; intros x Hx;
          (assert (x = s) by congruence); subst x; cbn [snd]; congruence.
    + transitivity (@None ScheduledReading); [|symmetry];
        apply map_lookup_filter_None; left; congruence.
Qed.

Lemma schedule_marked_as_run_witness :
  Samples.schedules !! "r1" = Some Samples.scheduledOnce /\
  getDueScheduledReadings 5000 Samples.schedules !! "r1" = Some Samples.scheduledOnce /\
  getDueScheduledReadings 99000
    (markScheduleAsRun (fun n t => t + n * 86400000) 6000 "r1" Samples.schedules) !! "r1"
  = None /\
  Samples.dailySchedules !! "r2" = Some Samples.scheduledDaily /\
  getDueScheduledReadings 5000 Samples.dailySchedules !! "r2" = Some Samples.scheduledDaily /\
  (forall n t, 0 < n -> t < t + n * 86400000) /\
  getDueScheduledReadings 5000
    (markScheduleAsRun (fun n t => t + n * 86400000) 6000 "r2" Samples.dailySchedules)
    !! "r2"
  = None.
Proof.
  split; [reflexivity|]. split; [reflexivity|]. split.
  - pose proof (schedule_marked_as_run (fun n t => t + n * 86400000) 6000 99000 "r1"
                  Samples.schedules Samples.scheduledOnce eq_refl)
      as [(ran & _ & _ & H & _) _].
    exact (proj2 (proj2 (H eq_refl))).
  - split; [reflexivity|]. split; [reflexivity|]. split; [intros n t Hn; lia|].
    pose proof (schedule_marked_as_run (fun n t => t + n * 86400000) 6000 5000 "r2"
                  Samples.dailySchedules Samples.scheduledDaily eq_refl)
      as [(ran & _ & _ & _ & H) _].
    destruct (H 1 (or_introl (conj eq_refl eq_refl))) as (_ & _ & _ & Hforward).
    apply Hforward; [intros n t Hn; lia | reflexivity].
Defined.

(** X30.  Adding a book under a new id and removing it again leaves
    the store as it was, and removing an id that is not in the queue
    changes nothing. *)
Theorem add_then_remove_restores_queue (id : string) (book : InsertBookQueue) (db : Db) :
  booksQueue db !! id = None ->
  removeFromQueue id (fst (addToQueue id book db)) = db /\
  removeFromQueue id db = db /\
  getQueuedBook id (removeFromQueue id (fst (addToQueue id book db))) = None.
Proof.
  intros Hfresh.
  assert (H1 : removeFromQueue id (fst (addToQueue id book db)) = db).
  { unfold removeFromQueue, addToQueue. cbv zeta.
    destruct (fits (created book db)); cbn [fst booksQueue readingHistory].
    - rewrite delete_insert_eq, delete_id by exact Hfresh. apply Db_eta.
    - rewrite delete_id by exact Hfresh. apply Db_eta. }
  split; [exact H1|]. split.
  - unfold removeFromQueue. rewrite delete_id by exact Hfresh. apply Db_eta.
  - rewrite H1. exact Hfresh.
Qed.

Lemma add_then_remove_restores_queue_witness :
  booksQueue Samples.db !! "q2" = None /\
  removeFromQueue "q2" (fst (addToQueue "q2" Samples.nextBook Samples.db)) = Samples.db.
Proof.
  split; [reflexivity|].
  exact (proj1 (add_then_remove_restores_queue "q2" Samples.nextBook Samples.db eq_refl)).
Defined.

End Store.

(** ** Sessions *)

Section Sessions.

Import AutomationService Trace.

(** X25.  Closing the channel of one session leaves every other session
    alone: its registry slot stays, and its engine, being another object,
    is not touched. *)
Theorem close_leaves_other_sessions_alone (srv : Routes.Server)
    (sessionId other : string) (ref : nat) :
  other <> sessionId ->
  Routes.sessions srv !! other = Some ref ->
  Routes.sessions srv !! sessionId <> Some ref ->
  let srv' := fst (Routes.onClose sessionId srv) in
  Routes.sessions srv' !! other = Some ref /\
  Routes.heap srv' !! ref = Routes.heap srv !! ref.
Proof.
  intros Hne Ho Hdistinct. cbv zeta. unfold Routes.onClose.
  destruct (Routes.sessions srv !! sessionId) as [r|] eqn:Hs; [|now split].
  destruct (Routes.heap srv !! r) as [session|] eqn:Hh; [|now split].
  cbn [fst Routes.sessions Routes.heap]. split.
  - rewrite lookup_delete_ne by congruence. exact Ho.
  - apply lookup_insert_ne. congruence.
Qed.

Lemma close_leaves_other_sessions_alone_witness :
  Routes.sessions Samples.twoSessions !! "s2" = Some 1%nat /\
  Routes.heap (fst (Routes.onClose "s1" Samples.twoSessions)) !! 1%nat
  = Some Samples.page30of120.
Proof.
  split; [reflexivity|].
  refine (proj2 (close_leaves_other_sessions_alone Samples.twoSessions "s1" "s2" 1%nat
                   _ eq_refl _)); discriminate.
Defined.

(** X26.  A connection that is opened and closed leaves the registry as
    it was: the slot made for it is released, the slots of the other
    sessions are as before, and the engine made for it was never started
    and ends with its stop flag set. *)
Theorem connection_round_trip (srv : Routes.Server) (sessionId : string) (ref : nat) :
  Routes.sessions srv !! sessionId = None ->
  let opened := Routes.onConnection sessionId ref srv in
  let closed := fst (Routes.onClose sessionId opened) in
  Routes.sessions opened !! sessionId = Some ref /\
  Routes.heap opened !! ref = Some fresh /\
  Routes.sessions closed = Routes.sessions srv /\
  Routes.heap closed !! ref = Some (final stop fresh) /\
  shouldStop (final stop fresh) = true /\ browser (final stop fresh) = None.
Proof.
  intros Hfree. cbv zeta. unfold Routes.onClose, Routes.onConnection.
  cbn [Routes.sessions Routes.heap]. rewrite !lookup_insert_eq.
  cbn [fst Routes.sessions Routes.heap]. rewrite lookup_insert_eq.
  split; [reflexivity|]. split; [reflexivity|]. split.
  - rewrite delete_insert_eq. now apply delete_id.
  - now repeat split.
Qed.

Lemma connection_round_trip_witness :
  Routes.sessions Samples.server !! "s7" = None /\
  Routes.sessions (fst (Routes.onClose "s7" (Routes.onConnection "s7" 1%nat Samples.server)))
  = Routes.sessions Samples.server.
Proof.
  split; [reflexivity|].
  exact (proj1 (proj2 (proj2 (connection_round_trip Samples.server "s7" 1%nat eq_refl)))).
Defined.

End Sessions.

(** ** Validation on both sides of the channel *)

Section RoundTrip.

(** X27.  Validation is idempotent across the channel: a configuration
    that the schema has accepted is accepted again, unchanged, when it is
    sent as the payload of a start message; in particular the default
    interval filled in by the first validation passes the second. *)
Theorem accepted_configuration_is_accepted_again (p : Payload) (cfg : AutomationConfig) :
  safeParse (Some p) = Some cfg ->
  safeParse (Some (asPayload cfg)) = Some cfg /\
  Routes.onMessage (Some {| Routes.type := "start"; Routes.payload := Some (asPayload cfg) |})
    0
  = Routes.Starts cfg.
Proof.
  intros H.
  assert (H2 : safeParse (Some (asPayload cfg)) = Some cfg).
  { cbn [safeParse] in H.
    destruct (raField (p_ra p)) as [r|] eqn:Hra; [|discriminate].
    destruct (stringMin1 (p_password p)) as [pw|] eqn:Hpw; [|discriminate].
    destruct (stringMin1 (p_bookSlug p)) as [slug|] eqn:Hslug; [|discriminate].
    destruct (intervalField (p_interval p)) as [iv|] eqn:Hiv; [|discriminate].
    destruct (optionalString (p_bookQueueId p)) as [qid|] eqn:Hq; [|discriminate].
    injection H as <-.
    destruct (raField_some _ _ Hra) as (Hv & _ & Htest). rewrite Hv in Hra.
    destruct (stringMin1_some _ _ Hpw) as (Hv2 & _). rewrite Hv2 in Hpw.
    destruct (stringMin1_some _ _ Hslug) as (Hv3 & _). rewrite Hv3 in Hslug.
    cbn [safeParse asPayload cfg_ra cfg_password cfg_bookSlug cfg_interval
         cfg_bookQueueId p_ra p_password p_bookSlug p_interval p_bookQueueId].
    rewrite Hra, Hpw, Hslug.
    assert (Hiv2 : intervalField (JNumber iv) = Some iv).
    { destruct (intervalField_some _ _ Hiv) as (H60 & H300 & _).
      cbn [intervalField]. apply Qle_bool_iff in H60, H300. now rewrite H60, H300. }
    rewrite Hiv2. now destruct qid. }
  split; [exact H2|]. unfold Routes.onMessage. cbn [Routes.type Routes.payload].
  cbn [String.eqb Ascii.eqb Bool.eqb]. now rewrite H2.
Qed.

Lemma accepted_configuration_is_accepted_again_witness :
  safeParse (Some Samples.payload90)
  = Some {| cfg_ra := "00001152877136sp"; cfg_password := "segredo";
            cfg_bookSlug := "dom-casmurro"; cfg_interval := (90 # 1)%Q;
            cfg_bookQueueId := None |} /\
  safeParse (Some (asPayload {| cfg_ra := "00001152877136sp"; cfg_password := "segredo";
                                cfg_bookSlug := "dom-casmurro";
                                cfg_interval := (90 # 1)%Q;
                                cfg_bookQueueId := None |}))
  = Some {| cfg_ra := "00001152877136sp"; cfg_password := "segredo";
            cfg_bookSlug := "dom-casmurro"; cfg_interval := (90 # 1)%Q;
            cfg_bookQueueId := None |}.
Proof.
  split; [reflexivity|].
  exact (proj1 (accepted_configuration_is_accepted_again Samples.payload90 _ eq_refl)).
Defined.

End RoundTrip.

(** ** What the progress panel shows *)

Section Panel.

Import AutomationService.

Lemma min100_bounds (q : Q) :
  (0 <= q)%Q ->
  (0 <= ProgressPanel.min100 q)%Q /\ (ProgressPanel.min100 q <= (100 # 1))%Q /\
  ((q <= (100 # 1))%Q -> ProgressPanel.min100 q = q).
Proof.
  intros Hq. unfold ProgressPanel.min100.
  destruct (Qle_bool q (100 # 1)) eqn:E.
  - apply Qle_bool_iff in E. now repeat split.
  - repeat split; try discriminate.
    intros H. apply Qle_bool_iff in H. congruence.
Qed.

Lemma ratio_nonneg (cur total : Z) :
  0 <= cur -> 0 <= total ->
  (0 <= inject_Z cur / inject_Z total * inject_Z 100)%Q.
Proof.
  intros Hc Ht. apply Qmult_le_0_compat; [apply Qmult_le_0_compat|].
  - change 0%Q with (inject_Z 0). now rewrite <- Zle_Qle.
  - apply Qinv_le_0_compat. change 0%Q with (inject_Z 0). now rewrite <- Zle_Qle.
  - discriminate.
Qed.

(** X28.  Whatever snapshot the engine sends, the percentage the panel
    shows lies between 0 and 100: it is the engine's percentage cut off
    at 100, so that a total detected late, smaller than the pages
    already counted, does not make the bar overflow. *)
Theorem shown_percentage_is_capped (e : Engine) (now : Z) :
  0 <= currentPage e ->
  (forall total, totalPages e = Some total -> 0 <= total) ->
  let sent := progressOf e now in
  let shown := ProgressPanel.percentage sent in
  (0 <= shown)%Q /\ (shown <= (100 # 1))%Q /\
  ((pd_percentage sent <= (100 # 1))%Q -> shown = pd_percentage sent).
Proof.
  intros Hcur Htot. cbv zeta. unfold ProgressPanel.percentage.
  cbn [progressOf pd_totalPages pd_currentPage pd_percentage].
  destruct (totalPages e) as [total|] eqn:Ht.
  - destruct (JS.truthyNum total).
    + apply min100_bounds. apply ratio_nonneg; [exact Hcur | now apply Htot].
    + repeat split; discriminate.
  - repeat split; discriminate.
Qed.

Lemma shown_percentage_is_capped_witness :
  let late := set_totalPages (Some 3) Samples.page5unknown in
  0 <= currentPage late /\
  ProgressPanel.percentage (progressOf late 9000) = (100 # 1)%Q.
Proof.
  cbv zeta. split; [discriminate|].
  pose proof (shown_percentage_is_capped (set_totalPages (Some 3) Samples.page5unknown)
                9000) as H.
  destruct H as (_ & H & _); [discriminate | intros t [= <-]; discriminate |].
  reflexivity.
Defined.

Lemma Qfloor_div60 (q : Q) : Qfloor (q / (60 # 1)) = Qfloor q / 60.
Proof.
  destruct q as [n d]. unfold Qdiv, Qmult, Qinv. cbn [Qnum Qden Qfloor Z.mul].
  rewrite Z.mul_1_r, Pos2Z.inj_mul, Z.div_div; [reflexivity | discriminate | lia].
Qed.

Lemma Qfloor_minus_60 (q : Q) (k : Z) :
  Qfloor (q - (60 # 1) * inject_Z k) = Qfloor q - 60 * k.
Proof.
  destruct q as [n d]. unfold Qminus, Qplus, Qopp, Qmult, inject_Z.
  cbn [Qnum Qden Qfloor]. rewrite !Pos.mul_1_r.
  replace (n * 1 + - (60 * k) * Z.pos d) with (n + (- (60 * k)) * Z.pos d) by lia.
  rewrite Z.div_add by discriminate. lia.
Qed.

Lemma floor_at_least (q : Q) (z : Z) : Qle_bool (inject_Z z) q = (z <=? Qfloor q).
Proof.
  destruct (Z.leb_spec z (Qfloor q)) as [H|H].
  - apply Qle_bool_iff. apply Qle_trans with (inject_Z (Qfloor q)); [|apply Qfloor_le].
    now rewrite <- Zle_Qle.
  - destruct (Qle_bool (inject_Z z) q) eqn:E; [|reflexivity].
    apply Qle_bool_iff, Qfloor_resp_le in E. rewrite Qfloor_Z in E. lia.
Qed.

(** X29.  [formatTime] shows the whole seconds of its argument and
    nothing else: below a minute the seconds; below an hour the minutes
    and the seconds that remain; from an hour on the hours and the
    minutes that remain, the seconds being dropped. *)
Theorem formatTime_shows_whole_seconds (seconds : Q) :
  let s := Qfloor seconds in
  ProgressPanel.formatTime seconds
  = if s <? 60 then [Int s; Txt "s"]
    else if s <? 3600 then [Int (s / 60); Txt "m "; Int (s mod 60); Txt "s"]
    else [Int (s / 3600); Txt "h "; Int ((s / 60) mod 60); Txt "m"].
Proof.
  cbv zeta. unfold ProgressPanel.formatTime.
  change (60 # 1)%Q with (inject_Z 60) at 1. rewrite floor_at_least.
  destruct (Z.leb_spec 60 (Qfloor seconds)) as [H60|H60]; cbn [negb].
  - destruct (Z.ltb_spec (Qfloor seconds) 60) as [Hlt|_]; [lia|].
    cbv zeta. rewrite Qfloor_div60.
    assert (Hm : 0 <= Qfloor seconds / 60) by (apply Z.div_pos; lia).
    destruct (Z.ltb_spec (Qfloor seconds / 60) 60) as [Hmin|Hmin].
    + destruct (Z.ltb_spec (Qfloor seconds) 3600) as [_|Hs].
      * unfold ProgressPanel.rem, ProgressPanel.trunc.
        rewrite Qfloor_minus_60. do 3 f_equal.
        assert (Hq : Qfloor (seconds / (60 # 1)) = Qfloor seconds / 60)
          by apply Qfloor_div60.
        unfold Qfloor at 1 in Hq.
        destruct (seconds / (60 # 1))%Q as [n d] eqn:Hdiv. cbn [Qnum Qden].
        rewrite Z.quot_div_nonneg; [rewrite Hq, Z.mod_eq by lia; reflexivity | | lia].
        destruct (Z.neg_nonneg_cases n) as [Hneg|Hpos]; [|exact Hpos].
        assert (n / Z.pos d < 0) by (apply Z.div_lt_upper_bound; lia). lia.
      * exfalso. assert (60 <= Qfloor seconds / 60)
          by (apply Z.div_le_lower_bound; lia). lia.
    + destruct (Z.ltb_spec (Qfloor seconds) 3600) as [Hs|_].
      * exfalso. assert (Qfloor seconds / 60 < 60)
          by (apply Z.div_lt_upper_bound; lia). lia.
      * change (60 # 1)%Q with (inject_Z 60). rewrite <- Zdiv_Qdiv.
        rewrite Z.div_div by lia. rewrite Z.rem_mod_nonneg by lia. reflexivity.
  - destruct (Z.ltb_spec (Qfloor seconds) 60) as [_|Hge]; [reflexivity | lia].
Qed.

End Panel.
